(** * Planning poker: session state coordinator and broadcast hub

    A shallow embedding of the Go sources of the planning-poker server:

    - [internal/models/models.go]: the structs and the voting cards;
    - [internal/utils/validation.go]: input validation;
    - the SQLite schema of [migrations/001_initial_schema.sql] together with
      the queries issued by the session, ticket and voting services;
    - the request handlers of [internal/handlers] (voting and ticket
      handlers, session deletion), the vote statistics of the session page
      and the session middleware with the two queries of
      [internal/services/user.go] it issues;
    - the two fan-out hubs, [internal/services/websocket.go] and
      [internal/services/sse.go].

    Storage is a record of tables, every query is a function on it, and a
    request handler is a computation in a small monad that threads the
    database, records the storage calls and the broadcasts in the order in
    which the Go code performs them, and can leave early with an HTTP
    response or with a run-time panic.  Channels live in a heap indexed by
    addresses so that a client record and the hub share one queue. *)

From Stdlib Require Import ZArith String Ascii Lia.
From stdpp Require Import base option list gmap strings sorting pretty.

Local Open Scope string_scope.
Local Open Scope Z_scope.

(** ** Go standard library functions used by the sources

    [strings.TrimSpace], [html.EscapeString] and the compiled regular
    expression [ticketTitleRegex] are not part of the repository; the
    development is parametric in them. *)

Class GoStd := {
  strings_TrimSpace : string → string;
  html_EscapeString : string → string;
  ticketTitleRegex_MatchString : string → bool
}.

(** [strconv.Atoi]: an optional sign followed by at least one decimal digit,
    with the value in the range of a 64-bit [int]. *)

Definition digit_of (c : ascii) : option Z :=
  let n := Z.of_nat (nat_of_ascii c) in
  if (48 <=? n) && (n <=? 57) then Some (n - 48) else None.

Fixpoint digits_value (s : string) (acc : Z) : option Z :=
  match s with
  | EmptyString => Some acc
  | String c s' =>
      match digit_of c with
      | Some d => digits_value s' (10 * acc + d)
      | None => None
      end
  end.

Definition Atoi (s : string) : option Z :=
  let '(neg, body) :=
    match s with
    | String "-"%char rest => (true, rest)
    | String "+"%char rest => (false, rest)
    | _ => (false, s)
    end in
  match body with
  | EmptyString => None
  | _ =>
      match digits_value body 0 with
      | Some n =>
          let v := if neg then - n else n in
          if (- 2 ^ 63 <=? v) && (v <=? 2 ^ 63 - 1) then Some v else None
      | None => None
      end
  end.

(** ** internal/models *)

Module User.
Record t := mk {
    ID : string;
    Username : string;
    CreatedAt : Z;
    LastSeen : Z
  }.
End User.

Module Vote.
Record t := mk {
    ID : Z;
    TicketID : Z;
    UserID : string;
    VoteValue : string;
    CreatedAt : Z;
    User : option User.t
  }.
End Vote.

Module Ticket.
Record t := mk {
    ID : Z;
    SessionID : string;
    Title : string;
    Description : string;
    FinalEstimate : option Z;
    Position : Z;
    CreatedAt : Z;
    Votes : list Vote.t
  }.
End Ticket.

Module Session.
  (** [Participants] is left out: none of the handlers below reads it. *)
Record t := mk {
    ID : string;
    Name : string;
    OwnerID : string;
    CurrentTicketID : option Z;
    IsVotingActive : bool;
    CreatedAt : Z;
    UpdatedAt : Z;
    Tickets : list Ticket.t;
    CurrentTicket : option Ticket.t
  }.

Definition set_IsVotingActive (b : bool) (s : t) : t :=
    mk (ID s) (Name s) (OwnerID s) (CurrentTicketID s) b
       (CreatedAt s) (UpdatedAt s) (Tickets s) (CurrentTicket s).

Definition set_CurrentTicketID (c : option Z) (s : t) : t :=
    mk (ID s) (Name s) (OwnerID s) c (IsVotingActive s)
       (CreatedAt s) (UpdatedAt s) (Tickets s) (CurrentTicket s).
End Session.

(** [SSEMessage.Data] is an [interface{}]; the payloads the handlers build
    are enumerated here.  A [*models.Ticket] payload may be [nil]. *)

Inductive Data :=
  | DataTicket (ticket : option Ticket.t)
  | DataVoteCast (user_id : string) (vote : Vote.t)
  | DataVotingEnded (ticket : option Ticket.t) (votes : list Vote.t)
  | DataTicketDeleted (ticket_id : Z)
  | DataSessionEnded (message : string).

Module SSEMessage.
Record t := mk { Type_ : string; Data_ : Data }.
End SSEMessage.

(** The coffee card is the three bytes of U+2615 in [models.go]. *)
Definition coffee_card : string :=
  String (ascii_of_nat 226) (String (ascii_of_nat 152) (String (ascii_of_nat 149) "")).

Definition FibonacciCards : list string :=
  ["0"; "1"; "2"; "3"; "5"; "8"; "13"; "21"; "34"; "55"; "89"; "144"].
Definition SpecialCards : list string := [coffee_card; "?"].
Definition AllVotingCards : list string := FibonacciCards ++ SpecialCards.

(** ** internal/utils/validation.go *)

Module utils.

Record ValidationError := mkValidationError {
  Field : string;
  Message : string
}.

Definition ValidationErrors := list ValidationError.

(** [ValidationError.Error] and [ValidationErrors.Error] *)
Definition Error1 (e : ValidationError) : string :=
  Field e ++ ": " ++ Message e.

Definition Error (e : ValidationErrors) : string :=
  String.concat "; " (Error1 <$> e).

Definition HasErrors (e : ValidationErrors) : bool :=
  bool_decide (0 < length e)%nat.

Definition SanitizeInput `{GoStd} (input : string) : string :=
  html_EscapeString (strings_TrimSpace input).

(** The tenth entry of [validVotes] is spelled in the source with the
    seven bytes below (a doubly encoded coffee sign). *)
Definition validVotes_coffee : string :=
  string_of_list_ascii
    (map ascii_of_nat [195; 162; 203; 156; 226; 128; 162]%nat).

Definition validVotes : list string :=
  ["0"; "1"; "2"; "3"; "5"; "8"; "13"; "21"; "34"; validVotes_coffee; "?"].

Definition ValidateVoteValue (voteValue : string) : ValidationErrors :=
  if existsb (λ valid, String.eqb voteValue valid) validVotes then []
  else [mkValidationError "vote" "Invalid vote value"].

Definition ValidateTicketTitle `{GoStd} (title : string) : ValidationErrors :=
  let title := strings_TrimSpace title in
  if decide (title = "")
  then [mkValidationError "title" "Ticket title is required"]
  else if ticketTitleRegex_MatchString title then []
  else [mkValidationError "title" "Ticket title must be 1-200 characters"].

(** [len] counts bytes. *)
Definition ValidateTicketDescription (description : string)
    : ValidationErrors :=
  if bool_decide (1000 < String.length description)%nat
  then [mkValidationError "description"
          "Ticket description must be no more than 1000 characters"]
  else [].

End utils.

(** ** The database (migrations/001_initial_schema.sql)

    One table per field.  [sessions], [users] and [tickets] are keyed by
    their primary key; [votes] is a list of rows in insertion order, its
    [UNIQUE(ticket_id, user_id)] constraint being enforced by the
    [INSERT OR REPLACE] below.  [ticket_seq] and [vote_seq] stand for the
    [sqlite_sequence] entries of the two [AUTOINCREMENT] keys.
    [foreign_keys] is the connection setting [_foreign_keys=on]: the
    repository opens the database with it in one version of
    [database.NewDB] and without it in the other. *)

Record UserRow := mkUserRow {
  u_username : string;
  u_created_at : Z;
  u_last_seen : Z
}.

Record SessionRow := mkSessionRow {
  s_name : string;
  s_owner_id : string;
  s_current_ticket_id : option Z;
  s_is_voting_active : bool;
  s_created_at : Z;
  s_updated_at : Z
}.

Record TicketRow := mkTicketRow {
  t_session_id : string;
  t_title : string;
  t_description : string;
  t_final_estimate : option Z;
  t_position : Z;
  t_created_at : Z
}.

Record VoteRow := mkVoteRow {
  v_id : Z;
  v_ticket_id : Z;
  v_user_id : string;
  v_vote_value : string;
  v_created_at : Z
}.

Record DB := mkDB {
  users : gmap string UserRow;
  sessions : gmap string SessionRow;
  tickets : gmap Z TicketRow;
  votes : list VoteRow;
  ticket_seq : Z;
  vote_seq : Z;
  foreign_keys : bool
}.

Definition set_sessions (m : gmap string SessionRow) (db : DB) : DB :=
  mkDB (users db) m (tickets db) (votes db) (ticket_seq db) (vote_seq db)
       (foreign_keys db).

Definition set_votes (l : list VoteRow) (db : DB) : DB :=
  mkDB (users db) (sessions db) (tickets db) l (ticket_seq db) (vote_seq db)
       (foreign_keys db).

Definition set_tickets (m : gmap Z TicketRow) (db : DB) : DB :=
  mkDB (users db) (sessions db) m (votes db) (ticket_seq db) (vote_seq db)
       (foreign_keys db).

(** [ORDER BY] on an integer column.  Rows with equal keys come out in an
    order SQL leaves open; the model takes the one of stdpp's merge sort. *)
Definition key_le {A} (key : A → Z) : relation A := λ a b, key a ≤ key b.

#[global] Instance key_le_dec {A} (key : A → Z) : RelDecision (key_le key).
Proof. intros a b. unfold key_le. apply _. Defined.

Definition order_by {A} (key : A → Z) (l : list A) : list A :=
  merge_sort (key_le key) l.

(** The row id an [AUTOINCREMENT] key gives to the next inserted row: one
    more than the largest id the table holds or has ever held. *)
Definition max_list (l : list Z) : Z := foldr Z.max 0 l.

Definition next_ticket_id (db : DB) : Z :=
  1 + Z.max (ticket_seq db) (max_list (fst <$> map_to_list (tickets db))).

Definition next_vote_id (db : DB) : Z :=
  1 + Z.max (vote_seq db) (max_list (v_id <$> votes db)).

(** ** internal/services: voting.go *)

Module VotingService.

(** [SELECT ... FROM votes v JOIN users u ON v.user_id = u.id
     WHERE v.ticket_id = ? ORDER BY v.created_at] *)
Definition vote_of_row (db : DB) (r : VoteRow) : option Vote.t :=
  u ← users db !! v_user_id r;
  Some (Vote.mk (v_id r) (v_ticket_id r) (v_user_id r) (v_vote_value r)
          (v_created_at r)
          (Some (User.mk (v_user_id r) (u_username u) 0 0))).

Definition GetVotesForTicket (db : DB) (ticketID : Z) : list Vote.t :=
  omap (vote_of_row db)
    (order_by v_created_at
       (filter (λ r, v_ticket_id r = ticketID) (votes db))).

(** [INSERT OR REPLACE INTO votes (ticket_id, user_id, vote_value,
    created_at)]: the row that holds the same (ticket_id, user_id) is
    deleted and the new row is appended under a fresh id.  With foreign
    keys enforced the statement fails unless the ticket and the user
    exist.  The result is the [*models.Vote] the Go function returns. *)
Definition SubmitVote (now : Z) (ticketID : Z) (userID voteValue : string)
    (db : DB) : option Vote.t * DB :=
  if foreign_keys db
     && negb (bool_decide (is_Some (tickets db !! ticketID))
              && bool_decide (is_Some (users db !! userID)))
  then (None, db)
  else
    let voteID := next_vote_id db in
    let kept :=
      filter (λ r, ¬ (v_ticket_id r = ticketID ∧ v_user_id r = userID))
             (votes db) in
    let row := mkVoteRow voteID ticketID userID voteValue now in
    (Some (Vote.mk voteID ticketID userID voteValue now None),
     mkDB (users db) (sessions db) (tickets db) (kept ++ [row])
          (ticket_seq db) voteID (foreign_keys db)).

(** [DELETE FROM votes WHERE ticket_id = ?] *)
Definition ClearVotesForTicket (ticketID : Z) (db : DB) : option unit * DB :=
  (Some (), set_votes (filter (λ r, v_ticket_id r ≠ ticketID) (votes db)) db).

(** [GetUserVoteForTicket]: [QueryRow] scans the first row the query
    yields; [None] is the [nil, nil] result of [sql.ErrNoRows].  The [User]
    field is not filled in. *)
Definition GetUserVoteForTicket (db : DB) (ticketID : Z) (userID : string)
    : option Vote.t :=
  r ← List.find (λ r, bool_decide (v_ticket_id r = ticketID
                                    ∧ v_user_id r = userID)) (votes db);
  Some (Vote.mk (v_id r) (v_ticket_id r) (v_user_id r) (v_vote_value r)
          (v_created_at r) None).

End VotingService.

(** ** internal/services: the session service *)

Module SessionService.

(** [getTicketVotes] issues the query of [GetVotesForTicket]. *)
Definition getTicketVotes (db : DB) (ticketID : Z) : list Vote.t :=
  VotingService.GetVotesForTicket db ticketID.

Definition ticket_of_row (db : DB) (kr : Z * TicketRow) : Ticket.t :=
  let '(id, r) := kr in
  Ticket.mk id (t_session_id r) (t_title r) (t_description r)
    (t_final_estimate r) (t_position r) (t_created_at r)
    (getTicketVotes db id).

(** [SELECT ... FROM tickets WHERE session_id = ? ORDER BY position], each
    ticket with its votes. *)
Definition getSessionTickets (db : DB) (sessionID : string) : list Ticket.t :=
  ticket_of_row db <$>
    order_by (λ kr, t_position kr.2)
      (filter (λ kr, t_session_id kr.2 = sessionID)
         (map_to_list (tickets db))).

(** The loop that resolves [session.CurrentTicket]: the first loaded ticket
    whose id is [*session.CurrentTicketID]. *)
Definition resolve_current (cur : option Z) (ts : list Ticket.t)
    : option Ticket.t :=
  match cur with
  | None => None
  | Some c => List.find (λ t, bool_decide (Ticket.ID t = c)) ts
  end.

(** [GetSessionByID]: [None] is the [nil, nil] result for a missing row. *)
Definition GetSessionByID (db : DB) (sessionID : string) : option Session.t :=
  r ← sessions db !! sessionID;
  let ts := getSessionTickets db sessionID in
  Some (Session.mk sessionID (s_name r) (s_owner_id r)
          (s_current_ticket_id r) (s_is_voting_active r)
          (s_created_at r) (s_updated_at r) ts
          (resolve_current (s_current_ticket_id r) ts)).

(** [UPDATE sessions SET name = ?, current_ticket_id = ?,
     is_voting_active = ?, updated_at = ? WHERE id = ?] *)
Definition UpdateSession (now : Z) (s : Session.t) (db : DB)
    : option unit * DB :=
  (Some (),
   set_sessions
     (alter (λ r, mkSessionRow (Session.Name s) (s_owner_id r)
                    (Session.CurrentTicketID s) (Session.IsVotingActive s)
                    (s_created_at r) now)
            (Session.ID s) (sessions db))
     db).

(** [DELETE FROM sessions WHERE id = ?]; with foreign keys enforced the
    [ON DELETE CASCADE] clauses remove the tickets of the session and the
    votes of these tickets. *)
Definition DeleteSession (sessionID : string) (db : DB) : option unit * DB :=
  let ss := delete sessionID (sessions db) in
  if foreign_keys db then
    let ts := filter (λ kr, t_session_id kr.2 ≠ sessionID) (tickets db) in
    let vs := filter (λ r, t_session_id <$> tickets db !! v_ticket_id r
                           ≠ Some sessionID) (votes db) in
    (Some (), mkDB (users db) ss ts vs (ticket_seq db) (vote_seq db)
                (foreign_keys db))
  else (Some (), set_sessions ss db).

End SessionService.

(** ** internal/services: the ticket service *)

Module TicketService.

(** [SELECT COALESCE(MAX(position), 0) FROM tickets WHERE session_id = ?] *)
Definition max_position (db : DB) (sessionID : string) : Z :=
  match t_position ∘ snd <$>
          filter (λ kr, t_session_id kr.2 = sessionID)
                 (map_to_list (tickets db)) with
  | [] => 0
  | p :: ps => foldr Z.max p ps
  end.

(** [CreateTicket]; with foreign keys enforced the insert needs the session
    row. *)
Definition CreateTicket (now : Z) (sessionID title description : string)
    (db : DB) : option Ticket.t * DB :=
  if foreign_keys db && bool_decide (sessions db !! sessionID = None)
  then (None, db)
  else
    let maxPosition := max_position db sessionID in
    let ticketID := next_ticket_id db in
    let row := mkTicketRow sessionID title description None
                 (maxPosition + 1) now in
    (Some (Ticket.mk ticketID sessionID title description None
             (maxPosition + 1) now []),
     mkDB (users db) (sessions db) (<[ticketID := row]> (tickets db))
          (votes db) ticketID (vote_seq db) (foreign_keys db)).

(** [GetTicketByID]: the row without its votes. *)
Definition GetTicketByID (db : DB) (ticketID : Z) : option Ticket.t :=
  r ← tickets db !! ticketID;
  Some (Ticket.mk ticketID (t_session_id r) (t_title r) (t_description r)
          (t_final_estimate r) (t_position r) (t_created_at r) []).

(** [UPDATE tickets SET title, description, final_estimate, position
     WHERE id = ?] *)
Definition UpdateTicket (t : Ticket.t) (db : DB) : option unit * DB :=
  (Some (),
   set_tickets
     (alter (λ r, mkTicketRow (t_session_id r) (Ticket.Title t)
                    (Ticket.Description t) (Ticket.FinalEstimate t)
                    (Ticket.Position t) (t_created_at r))
            (Ticket.ID t) (tickets db))
     db).

(** [DeleteTicket]: fails when the ticket is missing; otherwise one
    transaction deletes the row and closes the gap in the positions of the
    session.  With foreign keys enforced the votes of the ticket go with
    it. *)
Definition DeleteTicket (ticketID : Z) (db : DB) : option unit * DB :=
  match tickets db !! ticketID with
  | None => (None, db)
  | Some row =>
      let shifted :=
        (λ r, if bool_decide (t_session_id r = t_session_id row
                              ∧ t_position row < t_position r)
              then mkTicketRow (t_session_id r) (t_title r) (t_description r)
                     (t_final_estimate r) (t_position r - 1) (t_created_at r)
              else r) <$> delete ticketID (tickets db) in
      let vs := if foreign_keys db
                then filter (λ r, v_ticket_id r ≠ ticketID) (votes db)
                else votes db in
      (Some (), mkDB (users db) (sessions db) shifted vs (ticket_seq db)
                  (vote_seq db) (foreign_keys db))
  end.

End TicketService.

(** ** Requests, effects and the handler monad *)

(** The service methods a handler calls.  Each of them is one or more SQL
    statements and can come back with an error. *)
Inductive StorageCall :=
  | KGetSessionByID
  | KUpdateSession
  | KDeleteSession
  | KSubmitVote
  | KGetVotesForTicket
  | KClearVotesForTicket
  | KCreateTicket
  | KGetTicketByID
  | KUpdateTicket
  | KDeleteTicket.

#[global] Instance StorageCall_eq_dec : EqDecision StorageCall.
Proof. solve_decision. Defined.

(** The route and its URL and form parameters. *)
Inductive Op :=
  | OpSubmitVote (vote : string)
  | OpStartVoting
  | OpEndVoting
  | OpNextTicket
  | OpSelectTicket (ticketID : string)
  | OpCreateTicket (title description hx_request : string)
  | OpDeleteTicket (ticketID : string)
  | OpUpdateTicket (ticketID title description final_estimate : string)
  | OpDeleteSession.

(** A request: the user the session middleware put in the context (if
    any), the [sessionID] URL parameter, the route, the reading of the clock
    and, for every service method, whether the database lets it down during
    this request. *)
Record Request := mkRequest {
  ctx_user : option User.t;
  sessionID : string;
  op : Op;
  now : Z;
  fails : StorageCall → bool
}.

Inductive Outcome :=
  | Response (status : Z) (body : string)
  | Panicked.

Inductive Effect :=
  | Storage (k : StorageCall) (ok : bool)
  | Broadcast (sid : string) (m : SSEMessage.t).

Record HState := mkHState { hdb : DB; hlog : list Effect }.

(** A handler either goes on with a value or has written its response (or
    panicked) and returns. *)
Definition H (A : Type) : Type := HState → (A + Outcome) * HState.

#[global] Instance H_ret : MRet H := λ A a s, (inl a, s).

#[global] Instance H_bind : MBind H := λ A B f m s,
  match m s with
  | (inl a, s') => f a s'
  | (inr o, s') => (inr o, s')
  end.

Definition reply {A} (o : Outcome) : H A := λ s, (inr o, s).

(** [http.Error(w, msg, code); return] *)
Definition http_Error {A} (msg : string) (code : Z) : H A :=
  reply (Response code msg).

(** [utils.WriteHTMLError(w, code, msg); return]; the body is kept as the
    message the HTML wraps. *)
Definition WriteHTMLError {A} (code : Z) (msg : string) : H A :=
  reply (Response code msg).

(** [http.Redirect(w, r, url, http.StatusSeeOther)] *)
Definition http_Redirect {A} (url : string) : H A :=
  reply (Response 303 url).

(** [w.WriteHeader(code)] as the last statement of a handler. *)
Definition WriteHeader {A} (code : Z) : H A := reply (Response code "").

(** A run-time panic (nil pointer dereference). *)
Definition panic {A} : H A := reply Panicked.

(** A call of a service method: when the database fails the call returns
    an error and leaves the tables as they were. *)
Definition call {A} (r : Request) (k : StorageCall)
    (f : DB → option A * DB) : H (option A) := λ s,
  if fails r k then (inl None, mkHState (hdb s) (hlog s ++ [Storage k false]))
  else
    let '(a, db') := f (hdb s) in
    (inl a, mkHState db' (hlog s ++ [Storage k (bool_decide (is_Some a))])).

(** [h.wsService.Broadcast(sessionID, msg)] *)
Definition wsService_Broadcast (sid : string) (m : SSEMessage.t) : H unit :=
  λ s, (inl (), mkHState (hdb s) (hlog s ++ [Broadcast sid m])).

(** ** internal/handlers *)

Module Handler.

(** [user := GetUserFromContext(r.Context()); if user == nil { 401 }] *)
Definition require_user (r : Request) : H User.t :=
  match ctx_user r with
  | None => http_Error "Unauthorized" 401
  | Some u => mret u
  end.

(** The lookup every handler starts with:
    [session, err := h.sessionService.GetSessionByID(sessionID)] followed by
    the 500 and 404 exits. *)
Definition load_session (r : Request) : H Session.t :=
  res ← call r KGetSessionByID
          (λ db, (Some (SessionService.GetSessionByID db (sessionID r)), db));
  match res with
  | None => http_Error "Failed to get session" 500
  | Some None => http_Error "Session not found" 404
  | Some (Some s) => mret s
  end.

Definition SubmitVote `{GoStd} (r : Request) (vote : string) : H unit :=
  user ← require_user r;
  let voteValue := utils.SanitizeInput vote in
  let validationErrors := utils.ValidateVoteValue voteValue in
  if utils.HasErrors validationErrors
  then WriteHTMLError 400 (utils.Error validationErrors)
  else
    session ← load_session r;
    match Session.CurrentTicket session with
    | None => http_Error "No active ticket" 400
    | Some cur =>
        if negb (existsb (λ card, String.eqb card voteValue) AllVotingCards)
        then http_Error "Invalid vote value" 400
        else
          v ← call r KSubmitVote
                (VotingService.SubmitVote (now r) (Ticket.ID cur)
                   (User.ID user) voteValue);
          match v with
          | None => http_Error "Failed to submit vote" 500
          | Some vote =>
              wsService_Broadcast (sessionID r)
                (SSEMessage.mk "vote-cast"
                   (DataVoteCast (User.ID user) vote));;
              WriteHeader 200
          end
    end.

Definition StartVoting (r : Request) : H unit :=
  user ← require_user r;
  session ← load_session r;
  if decide (Session.OwnerID session ≠ User.ID user)
  then http_Error "Only session owner can start voting" 403
  else
    match Session.CurrentTicket session with
    | None => http_Error "No active ticket" 400
    | Some cur =>
        let session := Session.set_IsVotingActive true session in
        e ← call r KUpdateSession (SessionService.UpdateSession (now r) session);
        match e with
        | None => http_Error "Failed to start voting" 500
        | Some _ =>
            e ← call r KClearVotesForTicket
                  (VotingService.ClearVotesForTicket (Ticket.ID cur));
            match e with
            | None => http_Error "Failed to clear votes" 500
            | Some _ =>
                wsService_Broadcast (sessionID r)
                  (SSEMessage.mk "voting-started" (DataTicket (Some cur)));;
                http_Redirect ("/session/" ++ sessionID r)
            end
        end
    end.

Definition EndVoting (r : Request) : H unit :=
  user ← require_user r;
  session ← load_session r;
  if decide (Session.OwnerID session ≠ User.ID user)
  then http_Error "Only session owner can end voting" 403
  else
    let session := Session.set_IsVotingActive false session in
    e ← call r KUpdateSession (SessionService.UpdateSession (now r) session);
    match e with
    | None => http_Error "Failed to end voting" 500
    | Some _ =>
        (* [session.CurrentTicket.ID] dereferences the pointer *)
        match Session.CurrentTicket session with
        | None => panic
        | Some cur =>
            vs ← call r KGetVotesForTicket
                   (λ db, (Some (VotingService.GetVotesForTicket db
                                   (Ticket.ID cur)), db));
            match vs with
            | None => http_Error "Failed to get votes" 500
            | Some votes =>
                wsService_Broadcast (sessionID r)
                  (SSEMessage.mk "voting-ended"
                     (DataVotingEnded (Some cur) votes));;
                http_Redirect ("/session/" ++ sessionID r)
            end
        end
    end.

(** The loop of [NextTicket]: the successor of the first ticket that has
    the id of the current one and is not the last of the slice. *)
Fixpoint ticket_after (cur : Z) (ts : list Ticket.t) : option Ticket.t :=
  match ts with
  | t :: ((t' :: _) as rest) =>
      if decide (Ticket.ID t = cur) then Some t' else ticket_after cur rest
  | _ => None
  end.

Definition find_next (session : Session.t) : option Ticket.t :=
  match Session.CurrentTicket session, Session.Tickets session with
  | None, t :: _ => Some t
  | Some cur, ts => ticket_after (Ticket.ID cur) ts
  | None, [] => None
  end.

Definition NextTicket (r : Request) : H unit :=
  user ← require_user r;
  session ← load_session r;
  if decide (Session.OwnerID session ≠ User.ID user)
  then http_Error "Only session owner can advance tickets" 403
  else
    let nextTicket := find_next session in
    let session :=
      Session.set_CurrentTicketID (Ticket.ID <$> nextTicket) session in
    let session := Session.set_IsVotingActive false session in
    e ← call r KUpdateSession (SessionService.UpdateSession (now r) session);
    match e with
    | None => http_Error "Failed to advance ticket" 500
    | Some _ =>
        wsService_Broadcast (sessionID r)
          (SSEMessage.mk "ticket-changed" (DataTicket nextTicket));;
        http_Redirect ("/session/" ++ sessionID r)
    end.

Definition SelectTicket (r : Request) (ticketIDStr : string) : H unit :=
  user ← require_user r;
  session ← load_session r;
  if decide (Session.OwnerID session ≠ User.ID user)
  then http_Error "Only session owner can select tickets" 403
  else
    match Atoi ticketIDStr with
    | None => http_Error "Invalid ticket ID" 400
    | Some ticketID =>
        match List.find (λ t, bool_decide (Ticket.ID t = ticketID))
                (Session.Tickets session) with
        | None => http_Error "Ticket not found" 404
        | Some selectedTicket =>
            let session :=
              Session.set_CurrentTicketID (Some ticketID) session in
            let session := Session.set_IsVotingActive false session in
            e ← call r KUpdateSession
                  (SessionService.UpdateSession (now r) session);
            match e with
            | None => http_Error "Failed to select ticket" 500
            | Some _ =>
                wsService_Broadcast (sessionID r)
                  (SSEMessage.mk "ticket-changed"
                     (DataTicket (Some selectedTicket)));;
                http_Redirect ("/session/" ++ sessionID r)
            end
        end
    end.

Definition CreateTicket `{GoStd} (r : Request)
    (title description hx_request : string) : H unit :=
  user ← require_user r;
  session ← load_session r;
  if decide (Session.OwnerID session ≠ User.ID user)
  then http_Error "Only session owner can create tickets" 403
  else
    let title := utils.SanitizeInput title in
    let description := utils.SanitizeInput description in
    let allErrors :=
      (utils.ValidateTicketTitle title
       ++ utils.ValidateTicketDescription description)%list in
    if utils.HasErrors allErrors
    then WriteHTMLError 400 (utils.Error allErrors)
    else
      t ← call r KCreateTicket
            (TicketService.CreateTicket (now r) (sessionID r) title description);
      match t with
      | None => http_Error "Failed to create ticket" 500
      | Some ticket =>
          wsService_Broadcast (sessionID r)
            (SSEMessage.mk "ticket-created" (DataTicket (Some ticket)));;
          if decide (hx_request ≠ "") then WriteHeader 200
          else http_Redirect ("/session/" ++ sessionID r)
      end.

(** The lookup shared by [DeleteTicket] and [UpdateTicket]. *)
Definition load_ticket (r : Request) (ticketID : Z) : H Ticket.t :=
  res ← call r KGetTicketByID
          (λ db, (Some (TicketService.GetTicketByID db ticketID), db));
  match res with
  | None => http_Error "Failed to get ticket" 500
  | Some None => http_Error "Ticket not found" 404
  | Some (Some t) =>
      if decide (Ticket.SessionID t ≠ sessionID r)
      then http_Error "Ticket does not belong to this session" 400
      else mret t
  end.

Definition DeleteTicket (r : Request) (ticketIDStr : string) : H unit :=
  user ← require_user r;
  match Atoi ticketIDStr with
  | None => http_Error "Invalid ticket ID" 400
  | Some ticketID =>
      session ← load_session r;
      if decide (Session.OwnerID session ≠ User.ID user)
      then http_Error "Only session owner can delete tickets" 403
      else
        ticket ← load_ticket r ticketID;
        (if decide (Session.CurrentTicketID session = Some ticketID)
         then
           let session := Session.set_CurrentTicketID None session in
           let session := Session.set_IsVotingActive false session in
           e ← call r KUpdateSession
                 (SessionService.UpdateSession (now r) session);
           match e with
           | None => http_Error "Failed to update session" 500
           | Some _ => mret ()
           end
         else mret ());;
        e ← call r KDeleteTicket (TicketService.DeleteTicket ticketID);
        match e with
        | None => http_Error "Failed to delete ticket" 500
        | Some _ =>
            wsService_Broadcast (sessionID r)
              (SSEMessage.mk "ticket-deleted" (DataTicketDeleted ticketID));;
            http_Redirect ("/session/" ++ sessionID r)
        end
  end.

Definition UpdateTicket (r : Request)
    (ticketIDStr title description estimateStr : string) : H unit :=
  user ← require_user r;
  match Atoi ticketIDStr with
  | None => http_Error "Invalid ticket ID" 400
  | Some ticketID =>
      session ← load_session r;
      if decide (Session.OwnerID session ≠ User.ID user)
      then http_Error "Only session owner can update tickets" 403
      else
        ticket ← load_ticket r ticketID;
        let ticket :=
          Ticket.mk (Ticket.ID ticket) (Ticket.SessionID ticket)
            (if decide (title ≠ "") then title else Ticket.Title ticket)
            description
            (match (if decide (estimateStr ≠ "") then Atoi estimateStr
                    else None) with
             | Some estimate => Some estimate
             | None => Ticket.FinalEstimate ticket
             end)
            (Ticket.Position ticket) (Ticket.CreatedAt ticket)
            (Ticket.Votes ticket) in
        e ← call r KUpdateTicket (TicketService.UpdateTicket ticket);
        match e with
        | None => http_Error "Failed to update ticket" 500
        | Some _ =>
            wsService_Broadcast (sessionID r)
              (SSEMessage.mk "ticket-updated" (DataTicket (Some ticket)));;
            http_Redirect ("/session/" ++ sessionID r)
        end
  end.

Definition DeleteSession (r : Request) : H unit :=
  user ← require_user r;
  session ← load_session r;
  if decide (Session.OwnerID session ≠ User.ID user)
  then http_Error "Only session owner can delete the session" 403
  else
    (* Broadcast session end to all participants before deletion *)
    wsService_Broadcast (sessionID r)
      (SSEMessage.mk "session-ended"
         (DataSessionEnded "Session has been ended by the owner"));;
    e ← call r KDeleteSession (SessionService.DeleteSession (sessionID r));
    match e with
    | None => http_Error "Failed to delete session" 500
    | Some _ => WriteHeader 204
    end.

(** The router of [cmd/server/main.go]. *)
Definition route `{GoStd} (r : Request) : H unit :=
  match op r with
  | OpSubmitVote vote => SubmitVote r vote
  | OpStartVoting => StartVoting r
  | OpEndVoting => EndVoting r
  | OpNextTicket => NextTicket r
  | OpSelectTicket tid => SelectTicket r tid
  | OpCreateTicket t d hx => CreateTicket r t d hx
  | OpDeleteTicket tid => DeleteTicket r tid
  | OpUpdateTicket tid t d e => UpdateTicket r tid t d e
  | OpDeleteSession => DeleteSession r
  end.

(** *** Vote statistics of the session page *)

Record VoteCount := mkVoteCount {
  Value : string;
  Count : Z;
  Percentage : Z
}.

Definition parseVoteValue (voteValue : string) : Z :=
  if String.eqb voteValue "0" then 0
  else if String.eqb voteValue "1" then 1
  else if String.eqb voteValue "2" then 2
  else if String.eqb voteValue "3" then 3
  else if String.eqb voteValue "5" then 5
  else if String.eqb voteValue "8" then 8
  else if String.eqb voteValue "13" then 13
  else if String.eqb voteValue "21" then 21
  else if String.eqb voteValue "34" then 34
  else if String.eqb voteValue "55" then 55
  else if String.eqb voteValue "89" then 89
  else if String.eqb voteValue "144" then 144
  else -1.

(** The first loop of [calculateVoteHistogram]:
    [voteCounts[vote.VoteValue]++], a missing key reading as 0. *)
Definition count_votes (votes : list Vote.t) : gmap string Z :=
  foldl (λ m vote,
           <[Vote.VoteValue vote :=
               default 0 (m !! Vote.VoteValue vote) + 1]> m)
        ∅ votes.

(** [calculateVoteHistogram].  Go visits the map in an order it leaves
    open; the entries come here in the order of [map_to_list].  The
    division of non-negative [int]s truncates. *)
Definition calculateVoteHistogram (votes : list Vote.t) : list VoteCount :=
  let total := Z.of_nat (length votes) in
  omap (λ '(voteValue, count),
          if 0 <? count
          then Some (mkVoteCount voteValue count
                       (if 0 <? total then (count * 100) `quot` total
                        else 0))
          else None)
       (map_to_list (count_votes votes)).

(** The numeric votes of [calculateVoteMedian].  The [float64] values are
    conversions of the integers 0 to 144, which are exact, and are only
    sorted and selected, so that integers stand for them. *)
Definition numericVotes (votes : list Vote.t) : list Z :=
  votes ≫= (λ vote,
    if existsb (String.eqb (Vote.VoteValue vote))
         ["0"; "1"; "2"; "3"; "5"; "8"; "13"; "21"; "34"; "55"; "89"; "144"]
    then let val := parseVoteValue (Vote.VoteValue vote) in
         if 0 <=? val then [val] else []
    else []).

(** [calculateVoteMedian]: [None] is the nil pointer.  The index is within
    the slice whenever it is used. *)
Definition calculateVoteMedian (votes : list Vote.t) : option Z :=
  if bool_decide (length votes = 0%nat) then None
  else
    let numeric := numericVotes votes in
    if bool_decide (length numeric = 0%nat) then None
    else
      let sorted := merge_sort Z.le numeric in
      let n := Z.of_nat (length sorted) in
      if n `rem` 2 =? 0 then sorted !! Z.to_nat (n `quot` 2 - 1)
      else sorted !! Z.to_nat (n `quot` 2).

End Handler.

(** What one request leaves behind. *)
Record Result := mkResult {
  outcome : Outcome;
  db_after : DB;
  effects : list Effect
}.

(** A handler that returns without writing answers 200. *)
Definition serve `{GoStd} (db : DB) (r : Request) : Result :=
  let '(x, s) := Handler.route r (mkHState db []) in
  mkResult (match x with inl _ => Response 200 "" | inr o => o end)
           (hdb s) (hlog s).

(** [utils.RecoverFromPanic]: the middleware answers a panic with 500. *)
Definition RecoverFromPanic (o : Outcome) : Outcome :=
  match o with
  | Panicked => Response 500 "An unexpected error occurred"
  | _ => o
  end.

(** The messages handed to the hub, in order. *)
Definition events (l : list Effect) : list (string * SSEMessage.t) :=
  omap (λ e, match e with
             | Broadcast sid m => Some (sid, m)
             | Storage _ _ => None
             end) l.

(** A sequence of requests served one after the other. *)
Definition run `{GoStd} (db : DB) (rs : list Request) : DB :=
  foldl (λ db r, db_after (serve db r)) db rs.

(** ** Channels

    A buffered channel of messages.  Channels are heap objects: a client
    record holds the address of its queue, and the hub and the pumps of the
    connection see the same queue through it.  An address that is not
    allocated stands for a nil channel. *)

Module Chan.

Record t := mk {
  buf : list SSEMessage.t;
  cap : nat;
  closed : bool
}.

Definition full (c : t) : bool := bool_decide (cap c ≤ length (buf c))%nat.

End Chan.

Abbreviation Heap := (gmap nat Chan.t).

(** [make(chan models.SSEMessage, n)] *)
Definition make_chan (n : nat) (h : Heap) : nat * Heap :=
  let a := fresh (dom h) in (a, <[a := Chan.mk [] n false]> h).

(** One attempt to send without waiting, the send case of a [select]. *)
Inductive SendResult :=
  | Sent (h : Heap)
  | NotReady
  | SendOnClosed.

Definition try_send (h : Heap) (a : nat) (m : SSEMessage.t) : SendResult :=
  match h !! a with
  | None => NotReady
  | Some c =>
      if Chan.closed c then SendOnClosed
      else if Chan.full c then NotReady
      else Sent (<[a := Chan.mk (Chan.buf c ++ [m]) (Chan.cap c) false]> h)
  end.

(** [close(ch)]; closing a nil or a closed channel panics ([None]). *)
Definition close_chan (h : Heap) (a : nat) : option Heap :=
  match h !! a with
  | None => None
  | Some c =>
      if Chan.closed c then None
      else Some (<[a := Chan.mk (Chan.buf c) (Chan.cap c) true]> h)
  end.

(** ** internal/services/websocket.go *)

Module WSService.

(** [WSClient]; the transport handle [Conn] plays no part in the hub. *)
Record WSClient := mkWSClient {
  ID : string;
  SessionID : string;
  UserID : string;
  Send : nat
}.

#[global] Instance WSClient_eq_dec : EqDecision WSClient.
Proof. solve_decision. Defined.

(** The service: its client map, with the heap its channels live in. *)
Record t := mk {
  clients : gmap string WSClient;
  heap : Heap
}.

Definition NewWSService : t := mk ∅ ∅.

(** The three cases of the [select] in [Run].  [None] is a panic of the
    hub goroutine. *)

(** [case client := <-ws.register] *)
Definition Run_register (client : WSClient) (ws : t) : t :=
  mk (<[ID client := client]> (clients ws)) (heap ws).

(** [case client := <-ws.unregister] *)
Definition Run_unregister (client : WSClient) (ws : t) : option t :=
  match clients ws !! ID client with
  | Some _ =>
      h ← close_chan (heap ws) (Send client);
      Some (mk (delete (ID client) (clients ws)) h)
  | None => Some ws
  end.

(** The body of the loop of [case message := <-ws.broadcast] for one
    client. *)
Definition Run_broadcast_client (sessionID : string) (m : SSEMessage.t)
    (ws : t) (client : WSClient) : option t :=
  if decide (SessionID client = sessionID) then
    match try_send (heap ws) (Send client) m with
    | Sent h => Some (mk (clients ws) h)
    | NotReady =>
        h ← close_chan (heap ws) (Send client);
        Some (mk (delete (ID client) (clients ws)) h)
    | SendOnClosed => None
    end
  else Some ws.

(** The loop over [ws.clients], visiting the clients in the order [order];
    Go leaves the iteration order of a map open. *)
Fixpoint Run_broadcast_in (order : list WSClient) (sessionID : string)
    (m : SSEMessage.t) (ws : t) : option t :=
  match order with
  | [] => Some ws
  | client :: rest =>
      ws' ← Run_broadcast_client sessionID m ws client;
      Run_broadcast_in rest sessionID m ws'
  end.

Definition Run_broadcast (sessionID : string) (m : SSEMessage.t) (ws : t)
    : option t :=
  Run_broadcast_in (snd <$> map_to_list (clients ws)) sessionID m ws.

(** [HandleWebSocket] after a successful upgrade: the client is built
    around a fresh queue of 256 messages and handed to [Run] through the
    [register] channel. *)
Definition HandleWebSocket (sessionID userID : string) (ws : t)
    : WSClient * t :=
  let clientID := sessionID ++ "_" ++ userID in
  let '(a, h) := make_chan 256 (heap ws) in
  let client := mkWSClient clientID sessionID userID a in
  (client, Run_register client (mk (clients ws) h)).

Definition GetClientCount (sessionID : string) (ws : t) : nat :=
  length (filter (λ kc, SessionID kc.2 = sessionID)
            (map_to_list (clients ws))).

(** A client is registered when the map holds it under some key. *)
Definition registered (client : WSClient) (ws : t) : Prop :=
  ∃ k, clients ws !! k = Some client.

(** The queue of a client, as the heap has it. *)
Definition queue (client : WSClient) (ws : t) : option (list SSEMessage.t) :=
  Chan.buf <$> heap ws !! Send client.

End WSService.

(** ** internal/services/sse.go *)

Module SSEService.

(** [SSEClient]; the [Request] field plays no part in the hub. *)
Record SSEClient := mkSSEClient {
  ID : string;
  SessionID : string;
  UserID : string;
  Channel : nat
}.

#[global] Instance SSEClient_eq_dec : EqDecision SSEClient.
Proof. solve_decision. Defined.

Record t := mk {
  clients : gmap string SSEClient;
  heap : Heap
}.

Definition NewSSEService : t := mk ∅ ∅.

(** [AddClient]; [nanos] is [time.Now().UnixNano()]. *)
Definition AddClient (sessionID userID : string) (nanos : Z) (s : t)
    : SSEClient * t :=
  let clientID := sessionID ++ "_" ++ userID ++ "_" ++ pretty nanos in
  let '(a, h) := make_chan 10 (heap s) in
  let client := mkSSEClient clientID sessionID userID a in
  (client, mk (<[clientID := client]> (clients s)) h).

(** [RemoveClient]; [None] is a panic. *)
Definition RemoveClient (clientID : string) (s : t) : option t :=
  match clients s !! clientID with
  | Some client =>
      h ← close_chan (heap s) (Channel client);
      Some (mk (delete clientID (clients s)) h)
  | None => Some s
  end.

(** The drop timeout of [Broadcast], in milliseconds. *)
Definition drop_timeout_ms : Z := 100.

(** The [select] of [Broadcast] for one client, with nobody draining the
    queue meanwhile: the message is queued at once when there is room, and
    given up after the timeout otherwise.  The second component is the time
    spent waiting. *)
Definition Broadcast_client (sessionID : string) (m : SSEMessage.t)
    (sw : t * Z) (client : SSEClient) : option (t * Z) :=
  let '(s, waited) := sw in
  if decide (SessionID client = sessionID) then
    match try_send (heap s) (Channel client) m with
    | Sent h => Some (mk (clients s) h, waited)
    | NotReady => Some (s, waited + drop_timeout_ms)
    | SendOnClosed => None
    end
  else Some (s, waited).

Fixpoint Broadcast_in (order : list SSEClient) (sessionID : string)
    (m : SSEMessage.t) (sw : t * Z) : option (t * Z) :=
  match order with
  | [] => Some sw
  | client :: rest =>
      sw' ← Broadcast_client sessionID m sw client;
      Broadcast_in rest sessionID m sw'
  end.

Definition Broadcast (sessionID : string) (m : SSEMessage.t) (s : t)
    : option (t * Z) :=
  Broadcast_in (snd <$> map_to_list (clients s)) sessionID m (s, 0).

Definition GetClientCount (sessionID : string) (s : t) : nat :=
  length (filter (λ kc, SessionID kc.2 = sessionID)
            (map_to_list (clients s))).

Definition registered (client : SSEClient) (s : t) : Prop :=
  ∃ k, clients s !! k = Some client.

Definition queue (client : SSEClient) (s : t) : option (list SSEMessage.t) :=
  Chan.buf <$> heap s !! Channel client.

End SSEService.

(** ** Sample data

    A database with three users and one session owned by alice that holds
    two tickets and has no current ticket, and an instance of [GoStd] that
    agrees with Go on the short strings used below (no white space at the
    ends, no HTML special characters). *)

Definition plain_GoStd : GoStd := {|
  strings_TrimSpace := id;
  html_EscapeString := id;
  ticketTitleRegex_MatchString :=
    λ s, bool_decide (1 ≤ String.length s ≤ 200)%nat
|}.

Definition alice : User.t := User.mk "u-alice" "alice" 0 0.
Definition bob : User.t := User.mk "u-bob" "bob" 0 0.
Definition carol : User.t := User.mk "u-carol" "carol" 0 0.

Definition sample_db : DB := {|
  users := list_to_map
             [("u-alice", mkUserRow "alice" 0 0);
              ("u-bob", mkUserRow "bob" 0 0);
              ("u-carol", mkUserRow "carol" 0 0)];
  sessions := {["s1" := mkSessionRow "sprint 12" "u-alice" None false 0 0]};
  tickets := list_to_map
               [(1, mkTicketRow "s1" "login page" "" None 1 0);
                (2, mkTicketRow "s1" "export" "" None 2 0)];
  votes := [];
  ticket_seq := 2;
  vote_seq := 0;
  foreign_keys := true
|}.

Definition no_faults : StorageCall → bool := λ _, false.

Definition fault_on (k : StorageCall) : StorageCall → bool :=
  λ k', bool_decide (k' = k).

Definition request (u : User.t) (o : Op) (t : Z) : Request :=
  mkRequest (Some u) "s1" o t no_faults.

(** ** Properties of a request's effects *)

(** Some storage call of the request came back with an error. *)
Definition storage_failed (l : list Effect) : Prop :=
  ∃ k, Storage k false ∈ l.

Definition no_emit_on_failure (res : Result) : Prop :=
  storage_failed (effects res) → events (effects res) = [].

(** The service methods through which an operation changes the tables.
    [DeleteTicket] also updates the session when the ticket is the current
    one. *)
Definition writes_of (o : Op) : list StorageCall :=
  match o with
  | OpSubmitVote _ => [KSubmitVote]
  | OpStartVoting => [KUpdateSession; KClearVotesForTicket]
  | OpEndVoting | OpNextTicket | OpSelectTicket _ => [KUpdateSession]
  | OpCreateTicket _ _ _ => [KCreateTicket]
  | OpDeleteTicket _ => [KDeleteTicket]
  | OpUpdateTicket _ _ _ _ => [KUpdateTicket]
  | OpDeleteSession => [KDeleteSession]
  end.

(** A broadcast is the last effect of the request; every write of the
    operation precedes it and every storage call before it succeeded. *)
Definition emit_after_applied (o : Op) (res : Result) : Prop :=
  ∀ pre sid m post,
    effects res = (pre ++ Broadcast sid m :: post)%list →
    post = []
    ∧ (∀ k, k ∈ writes_of o → Storage k true ∈ pre)
    ∧ (∀ k ok, Storage k ok ∈ pre → ok = true).

(** The shape of the effects of [DeleteSession] when it broadcasts: the
    message leaves before the deletion is attempted. *)
Definition emit_before_delete (res : Result) : Prop :=
  ∀ pre sid m post,
    effects res = (pre ++ Broadcast sid m :: post)%list →
    pre = [Storage KGetSessionByID true]
    ∧ ∃ ok, post = [Storage KDeleteSession ok].

Definition emit_policy (o : Op) (res : Result) : Prop :=
  match o with
  | OpDeleteSession => emit_before_delete res
  | _ => no_emit_on_failure res ∧ emit_after_applied o res
  end.

(** ** Predicates on outcomes *)

(** A rejected operation: a response in the 4xx range. *)
Definition rejected (o : Outcome) : Prop :=
  ∃ code body, o = Response code body ∧ 400 ≤ code < 500.

(** [SubmitVote] answers 200 when the vote is stored. *)
Definition vote_accepted (res : Result) : Prop :=
  outcome res = Response 200 "".

(** The routes guarded by [session.OwnerID != user.ID]. *)
Definition owner_only (o : Op) : bool :=
  match o with
  | OpSubmitVote _ => false
  | _ => true
  end.

(** A vote value that passes both checks of [SubmitVote]. *)
Definition valid_card (v : string) : Prop :=
  utils.HasErrors (utils.ValidateVoteValue v) = false
  ∧ existsb (λ card, String.eqb card v) AllVotingCards = true.

(** ** The phases of a session

    Modelled on the state machine of the specification (section 4.3):
    Idle when no ticket is current, Voting while the flag is set, and, with
    a current ticket and the flag cleared, Reviewing when voting has been
    started since the ticket was selected and Selected when it has not.
    The tables record the current ticket and the flag only; whether voting
    has been started is a fact about the requests served so far. *)

Inductive Phase := Idle | Selected | Voting | Reviewing.

Definition spec_phase (started : bool) (s : Session.t) : Phase :=
  match Session.CurrentTicket s with
  | None => Idle
  | Some _ =>
      if Session.IsVotingActive s then Voting
      else if started then Reviewing else Selected
  end.

Definition session_updated (l : list Effect) : bool :=
  existsb (λ e, match e with
                | Storage KUpdateSession true => true
                | _ => false
                end) l.

(** Whether voting has been started on the current ticket of session [sid]
    since that ticket was selected, after the requests [rs] have been
    served from [db]. *)
Fixpoint started_since_selection `{GoStd} (sid : string) (db : DB)
    (rs : list Request) (started : bool) : bool :=
  match rs with
  | [] => started
  | r :: rs' =>
      let res := serve db r in
      let started' :=
        if bool_decide (sessionID r = sid) && session_updated (effects res)
        then match op r with
             | OpStartVoting => true
             | OpNextTicket | OpSelectTicket _ | OpDeleteTicket _ => false
             | _ => started
             end
        else started in
      started_since_selection sid (db_after res) rs' started'
  end.

(** ** Votes of a round *)

(** A submission: the voter, the value of the form field and the reading
    of the clock. *)
Record Submission := mkSubmission {
  voter : User.t;
  form_vote : string;
  cast_at : Z
}.

Definition vote_request (sid : string) (s : Submission) : Request :=
  mkRequest (Some (voter s)) sid (OpSubmitVote (form_vote s)) (cast_at s)
            no_faults.

(** The value of the last submission of user [uid], if any. *)
Fixpoint latest_vote `{GoStd} (subs : list Submission) (uid : string)
    : option string :=
  match subs with
  | [] => None
  | s :: rest =>
      match latest_vote rest uid with
      | Some v => Some v
      | None =>
          if decide (User.ID (voter s) = uid)
          then Some (utils.SanitizeInput (form_vote s))
          else None
      end
  end.

(** The state of a round on the ticket [tid] of session [sid] once the
    submissions [done] have been served: the users are those of the start,
    the session still has the ticket as its current one, and the rows of
    [votes] for the ticket are one per voter, each with the voter's latest
    value. *)
Definition round_inv `{GoStd} (users0 : gmap string UserRow) (sid : string)
    (owner_id : string) (tid : Z) (done : list Submission) (db : DB) : Prop :=
  users db = users0
  ∧ (∃ s cur, SessionService.GetSessionByID db sid = Some s
              ∧ Session.CurrentTicket s = Some cur
              ∧ Ticket.ID cur = tid
              ∧ Session.OwnerID s = owner_id)
  ∧ (∀ r, r ∈ votes db → v_ticket_id r = tid →
          is_Some (users0 !! v_user_id r))
  ∧ NoDup (v_user_id <$> filter (λ r, v_ticket_id r = tid) (votes db))
  ∧ (∀ u v, (∃ r, r ∈ votes db ∧ v_ticket_id r = tid
                  ∧ v_user_id r = u ∧ v_vote_value r = v)
            ↔ latest_vote done u = Some v).

(** ** The session invariant *)

(** What a handler sees through [GetSessionByID]: a session whose voting
    flag is set has a current ticket. *)
Definition voting_implies_ticket (db : DB) : Prop :=
  ∀ sid s,
    SessionService.GetSessionByID db sid = Some s →
    Session.IsVotingActive s = true →
    Session.CurrentTicketID s ≠ None ∧ Session.CurrentTicket s ≠ None.

(** The same at the level of the rows: the session row of a session whose
    voting flag is set points to a ticket row of that session. *)
Definition rows_inv (db : DB) : Prop :=
  ∀ sid row,
    sessions db !! sid = Some row →
    s_is_voting_active row = true →
    ∃ c trow, s_current_ticket_id row = Some c
              ∧ tickets db !! c = Some trow
              ∧ t_session_id trow = sid.

(** ** Well-formed hubs

    Every client is filed under its own id, its queue is allocated and
    open, and no two registered clients share a queue.  [Run_register],
    [HandleWebSocket], [AddClient] and the removals keep a hub
    well-formed. *)

Definition open_at (h : Heap) (a : nat) : Prop :=
  ∃ c, h !! a = Some c ∧ Chan.closed c = false.

Definition full_at (h : Heap) (a : nat) : Prop :=
  ∃ c, h !! a = Some c ∧ Chan.full c = true.

Definition ws_wf (ws : WSService.t) : Prop :=
  (∀ k c, WSService.clients ws !! k = Some c →
          WSService.ID c = k ∧ open_at (WSService.heap ws) (WSService.Send c))
  ∧ (∀ k1 k2 c1 c2,
       WSService.clients ws !! k1 = Some c1 →
       WSService.clients ws !! k2 = Some c2 →
       WSService.Send c1 = WSService.Send c2 → k1 = k2).

Definition sse_wf (s : SSEService.t) : Prop :=
  (∀ k c, SSEService.clients s !! k = Some c →
          SSEService.ID c = k
          ∧ open_at (SSEService.heap s) (SSEService.Channel c))
  ∧ (∀ k1 k2 c1 c2,
       SSEService.clients s !! k1 = Some c1 →
       SSEService.clients s !! k2 = Some c2 →
       SSEService.Channel c1 = SSEService.Channel c2 → k1 = k2).

(** A send on the channel at [a] cannot proceed: the queue is full, or
    the channel is nil. *)
Definition not_ready (h : Heap) (a : nat) : bool :=
  match h !! a with
  | Some c => negb (Chan.closed c) && Chan.full c
  | None => true
  end.

(** What the hubs do to an open queue: the message is appended when there
    is room; a full queue is left as it is by the SSE hub and closed by the
    WebSocket hub. *)
Definition pushed (m : SSEMessage.t) (c : Chan.t) : Chan.t :=
  Chan.mk (Chan.buf c ++ [m])%list (Chan.cap c) false.

Definition shut (c : Chan.t) : Chan.t :=
  Chan.mk (Chan.buf c) (Chan.cap c) true.

(** ** The situation of a broadcast with one full queue

    The hub is well-formed, [slow] is a registered connection of the
    session with a full queue, and no other registered connection of the
    session has a full queue. *)

Definition ws_one_full (ws : WSService.t) (slow : WSService.WSClient)
    (sid : string) : Prop :=
  ws_wf ws
  ∧ WSService.registered slow ws
  ∧ WSService.SessionID slow = sid
  ∧ full_at (WSService.heap ws) (WSService.Send slow)
  ∧ ∀ c, WSService.registered c ws → WSService.SessionID c = sid →
         c ≠ slow → ¬ full_at (WSService.heap ws) (WSService.Send c).

Definition sse_one_full (s : SSEService.t) (slow : SSEService.SSEClient)
    (sid : string) : Prop :=
  sse_wf s
  ∧ SSEService.registered slow s
  ∧ SSEService.SessionID slow = sid
  ∧ full_at (SSEService.heap s) (SSEService.Channel slow)
  ∧ ∀ c, SSEService.registered c s → SSEService.SessionID c = sid →
         c ≠ slow → ¬ full_at (SSEService.heap s) (SSEService.Channel c).

(** What such a broadcast does in the WebSocket hub, visiting the map in
    the order [order]: it goes through; every other connection of the
    session stays registered and has the message appended to its queue;
    the queue of [slow] does not get it; the connections of other sessions
    are untouched. *)
Definition ws_dropped_for_one (ws : WSService.t)
    (order : list WSService.WSClient) (slow : WSService.WSClient)
    (sid : string) (m : SSEMessage.t) : Prop :=
  ∃ ws', WSService.Run_broadcast_in order sid m ws = Some ws'
    ∧ (∀ c, WSService.registered c ws → WSService.SessionID c = sid →
            c ≠ slow →
            WSService.registered c ws'
            ∧ WSService.queue c ws'
              = (λ q, q ++ [m])%list <$> WSService.queue c ws)
    ∧ WSService.queue slow ws' = WSService.queue slow ws
    ∧ (∀ c, WSService.registered c ws → WSService.SessionID c ≠ sid →
            WSService.registered c ws'
            ∧ WSService.queue c ws' = WSService.queue c ws).

(** The same in the SSE hub, where the call waits for one drop timeout
    and the registry is left as it was. *)
Definition sse_dropped_for_one (s : SSEService.t)
    (order : list SSEService.SSEClient) (slow : SSEService.SSEClient)
    (sid : string) (m : SSEMessage.t) : Prop :=
  ∃ s', SSEService.Broadcast_in order sid m (s, 0)
        = Some (s', SSEService.drop_timeout_ms)
    ∧ SSEService.clients s' = SSEService.clients s
    ∧ (∀ c, SSEService.registered c s → SSEService.SessionID c = sid →
            c ≠ slow →
            SSEService.queue c s'
            = (λ q, q ++ [m])%list <$> SSEService.queue c s)
    ∧ SSEService.queue slow s' = SSEService.queue slow s
    ∧ (∀ c, SSEService.registered c s → SSEService.SessionID c ≠ sid →
            SSEService.queue c s' = SSEService.queue c s).

(** ** Executable checks

    Boolean versions of the hypotheses above, for concrete states. *)

Definition is_open (h : Heap) (a : nat) : bool :=
  match h !! a with
  | Some c => negb (Chan.closed c)
  | None => false
  end.

Definition is_full (h : Heap) (a : nat) : bool :=
  match h !! a with
  | Some c => Chan.full c
  | None => false
  end.

Definition ws_wf_check (ws : WSService.t) : bool :=
  forallb (λ kc, bool_decide (WSService.ID kc.2 = kc.1)
                 && is_open (WSService.heap ws) (WSService.Send kc.2))
          (map_to_list (WSService.clients ws))
  && bool_decide (NoDup (WSService.Send
                           <$> (map_to_list (WSService.clients ws)).*2)).

Definition ws_one_full_check (ws : WSService.t)
    (slow : WSService.WSClient) (sid : string) : bool :=
  ws_wf_check ws
  && bool_decide (WSService.clients ws !! WSService.ID slow = Some slow)
  && bool_decide (WSService.SessionID slow = sid)
  && is_full (WSService.heap ws) (WSService.Send slow)
  && forallb (λ kc, bool_decide (WSService.SessionID kc.2 ≠ sid)
                    || bool_decide (kc.2 = slow)
                    || negb (is_full (WSService.heap ws)
                               (WSService.Send kc.2)))
             (map_to_list (WSService.clients ws)).

Definition sse_wf_check (s : SSEService.t) : bool :=
  forallb (λ kc, bool_decide (SSEService.ID kc.2 = kc.1)
                 && is_open (SSEService.heap s) (SSEService.Channel kc.2))
          (map_to_list (SSEService.clients s))
  && bool_decide (NoDup (SSEService.Channel
                           <$> (map_to_list (SSEService.clients s)).*2)).

Definition sse_one_full_check (s : SSEService.t)
    (slow : SSEService.SSEClient) (sid : string) : bool :=
  sse_wf_check s
  && bool_decide (SSEService.clients s !! SSEService.ID slow = Some slow)
  && bool_decide (SSEService.SessionID slow = sid)
  && is_full (SSEService.heap s) (SSEService.Channel slow)
  && forallb (λ kc, bool_decide (SSEService.SessionID kc.2 ≠ sid)
                    || bool_decide (kc.2 = slow)
                    || negb (is_full (SSEService.heap s)
                               (SSEService.Channel kc.2)))
             (map_to_list (SSEService.clients s)).

Definition rows_inv_check (db : DB) : bool :=
  forallb (λ kr, negb (s_is_voting_active kr.2)
                 || match s_current_ticket_id kr.2 with
                    | Some c =>
                        match tickets db !! c with
                        | Some trow => bool_decide (t_session_id trow = kr.1)
                        | None => false
                        end
                    | None => false
                    end)
          (map_to_list (sessions db)).

(** ** Sample hubs *)

Definition sample_msg : SSEMessage.t :=
  SSEMessage.mk "ticket-changed" (DataTicket None).

(** A queue of capacity 2 that already holds two messages. *)
Definition full_chan : Chan.t := Chan.mk [sample_msg; sample_msg] 2 false.
Definition empty_chan : Chan.t := Chan.mk [] 2 false.

Definition ws_bob : WSService.WSClient :=
  WSService.mkWSClient "s1_u-bob" "s1" "u-bob" 0.
Definition ws_carol : WSService.WSClient :=
  WSService.mkWSClient "s1_u-carol" "s1" "u-carol" 1.
Definition ws_dave : WSService.WSClient :=
  WSService.mkWSClient "s2_u-dave" "s2" "u-dave" 2.

(** Bob's queue is full, Carol's is empty, Dave sits in another session. *)
Definition sample_ws : WSService.t :=
  WSService.mk
    (list_to_map [("s1_u-bob", ws_bob); ("s1_u-carol", ws_carol);
                  ("s2_u-dave", ws_dave)])
    (list_to_map [(0%nat, full_chan); (1%nat, empty_chan);
                  (2%nat, empty_chan)]).

Definition sse_bob : SSEService.SSEClient :=
  SSEService.mkSSEClient "s1_u-bob_1" "s1" "u-bob" 0.
Definition sse_carol : SSEService.SSEClient :=
  SSEService.mkSSEClient "s1_u-carol_2" "s1" "u-carol" 1.

(** The sample session once alice has selected the first ticket, and once
    she has started voting on it. *)
Definition selected_db : DB :=
  @run plain_GoStd sample_db [request alice (OpSelectTicket "1") 10].

Definition voting_db : DB :=
  @run plain_GoStd selected_db [request alice OpStartVoting 11].

(** Bob votes 5, Carol votes 8, Bob changes his mind to 13. *)
Definition sample_votes : list Submission :=
  [mkSubmission bob "5" 12; mkSubmission carol "8" 13;
   mkSubmission bob "13" 14].

Definition sample_sse : SSEService.t :=
  SSEService.mk
    (list_to_map [("s1_u-bob_1", sse_bob); ("s1_u-carol_2", sse_carol)])
    (list_to_map [(0%nat, full_chan); (1%nat, empty_chan)]).

(** ** internal/services/user.go *)

Definition set_users (m : gmap string UserRow) (db : DB) : DB :=
  mkDB m (sessions db) (tickets db) (votes db) (ticket_seq db) (vote_seq db)
       (foreign_keys db).

Module UserService.

(** [GetUserByID]: [None] is the [nil, nil] result of [sql.ErrNoRows]. *)
Definition GetUserByID (db : DB) (userID : string) : option User.t :=
  r ← users db !! userID;
  Some (User.mk userID (u_username r) (u_created_at r) (u_last_seen r)).

(** [UPDATE users SET last_seen = ? WHERE id = ?] *)
Definition UpdateLastSeen (now : Z) (userID : string) (db : DB)
    : option unit * DB :=
  (Some (),
   set_users
     (alter (λ r, mkUserRow (u_username r) (u_created_at r) now) userID
            (users db))
     db).

End UserService.

(** ** The session middleware and the middleware chain

    [SessionMiddleware] reads the [poker_session] cookie, looks the user
    up, refreshes [last_seen], renews the cookie for six hours and puts the
    user in the context of the request; without a cookie the request goes
    on as it is, and a cookie that names no user is cleared.  The error of
    [UpdateLastSeen] is dropped. *)

Inductive SetCookie :=
  | CookieUntouched
  | CookieCleared
  | CookieRenewed (value : string) (maxAge : Z).

(** An HTTP request as it reaches the chain: the value of the cookie, if
    there is one, the request the handler will see (its context still
    without a user), and whether the database lets the two calls of the
    middleware down. *)
Record HTTPRequest := mkHTTPRequest {
  cookie : option string;
  inner : Request;
  fail_GetUserByID : bool;
  fail_UpdateLastSeen : bool
}.

Definition SessionMiddleware (h : HTTPRequest) (db : DB)
    : option User.t * SetCookie * DB :=
  match cookie h with
  | None => (None, CookieUntouched, db)
  | Some value =>
      if fail_GetUserByID h then (None, CookieCleared, db)
      else
        match UserService.GetUserByID db value with
        | None => (None, CookieCleared, db)
        | Some user =>
            let db' :=
              if fail_UpdateLastSeen h then db
              else (UserService.UpdateLastSeen (now (inner h))
                      (User.ID user) db).2 in
            (Some user, CookieRenewed (User.ID user) (6 * 3600), db')
        end
  end.

(** [r.WithContext(context.WithValue(r.Context(), UserContextKey, user))] *)
Definition with_user (u : option User.t) (r : Request) : Request :=
  mkRequest u (sessionID r) (op r) (now r) (fails r).

(** The chain of [cmd/server/main.go] from [utils.RecoverFromPanic]
    inwards: the session middleware, then the route. *)
Definition ServeHTTP `{GoStd} (db : DB) (h : HTTPRequest)
    : Result * SetCookie :=
  let '(u, c, db1) := SessionMiddleware h db in
  let res := serve db1 (with_user u (inner h)) in
  (mkResult (RecoverFromPanic (outcome res)) (db_after res) (effects res), c).

(** The tables the handlers work on. *)
Definition same_tables (db db' : DB) : Prop :=
  sessions db' = sessions db ∧ tickets db' = tickets db
  ∧ votes db' = votes db.

(** ** Further properties of requests *)

(** The values [ValidateVoteValue] and the check against
    [models.AllVotingCards] both let through. *)
Definition votable_cards : list string :=
  ["0"; "1"; "2"; "3"; "5"; "8"; "13"; "21"; "34"; "?"].

(** The routes that issue no statement on [votes]. *)
Definition keeps_votes (o : Op) : bool :=
  match o with
  | OpEndVoting | OpNextTicket | OpSelectTicket _
  | OpCreateTicket _ _ _ | OpUpdateTicket _ _ _ _ => true
  | _ => false
  end.

(** A vote row whose ticket is not a ticket of session [sid]. *)
Definition vote_elsewhere (sid : string) (db : DB) (r : VoteRow) : Prop :=
  t_session_id <$> tickets db !! v_ticket_id r ≠ Some sid.

(** The rows that do not belong to session [sid] are the same in [db] and
    [db']: the users, the rows of the other sessions, the tickets of the
    other sessions, and the votes on them, in their order. *)
Definition untouched_outside (sid : string) (db db' : DB) : Prop :=
  users db' = users db
  ∧ (∀ sid', sid' ≠ sid → sessions db' !! sid' = sessions db !! sid')
  ∧ (∀ tid row, t_session_id row ≠ sid →
       tickets db' !! tid = Some row ↔ tickets db !! tid = Some row)
  ∧ filter (vote_elsewhere sid db) (votes db')
    = filter (vote_elsewhere sid db) (votes db).

(** The positions of the tickets of a session, and the invariant that
    they are the numbers 1 to n, each once. *)
Definition positions (db : DB) (sid : string) : list Z :=
  t_position ∘ snd <$>
    filter (λ kr, t_session_id kr.2 = sid) (map_to_list (tickets db)).

(** A list of positions that holds the numbers 1 to n, each once. *)
Definition dense (l : list Z) : Prop :=
  l ≡ₚ seqZ 1 (Z.of_nat (length l)).

Definition positions_dense (db : DB) : Prop :=
  ∀ sid, dense (positions db sid).

Definition positions_dense_check (db : DB) : bool :=
  forallb (λ kr, bool_decide
                   (merge_sort Z.le (positions db (t_session_id kr.2))
                    = seqZ 1 (Z.of_nat
                                (length (positions db (t_session_id kr.2))))))
          (map_to_list (tickets db)).

(** * Proofs *)

Local Open Scope list_scope.

Arguments Atoi : simpl never.
Arguments SessionService.GetSessionByID : simpl never.
Arguments SessionService.UpdateSession : simpl never.
Arguments SessionService.DeleteSession : simpl never.
Arguments VotingService.SubmitVote : simpl never.
Arguments VotingService.GetVotesForTicket : simpl never.
Arguments VotingService.ClearVotesForTicket : simpl never.
Arguments TicketService.CreateTicket : simpl never.
Arguments TicketService.GetTicketByID : simpl never.
Arguments TicketService.UpdateTicket : simpl never.
Arguments TicketService.DeleteTicket : simpl never.
Arguments utils.ValidateVoteValue : simpl never.
Arguments utils.ValidateTicketTitle : simpl never.
Arguments utils.ValidateTicketDescription : simpl never.
Arguments utils.HasErrors : simpl never.
Arguments utils.Error : simpl never.
Arguments utils.SanitizeInput : simpl never.
Arguments Handler.find_next : simpl never.
Arguments existsb : simpl never.
Arguments List.find : simpl never.
Arguments String.append : simpl never.

(** Unfolds the handlers down to the state they thread. *)
Ltac unfold_handlers :=
  unfold serve, Handler.route, Handler.SubmitVote, Handler.StartVoting,
    Handler.EndVoting, Handler.NextTicket, Handler.SelectTicket,
    Handler.CreateTicket, Handler.DeleteTicket, Handler.UpdateTicket,
    Handler.DeleteSession, Handler.load_ticket, Handler.load_session,
    Handler.require_user, call, wsService_Broadcast, http_Error,
    WriteHTMLError, http_Redirect, WriteHeader, panic, reply,
    mbind, H_bind, mret, H_ret in *.

(** Follows every branch of an unfolded handler whose result is described
    by the hypothesis [H], innermost test first. *)
Ltac inner_case H :=
  match type of H with
  | context [match ?x with _ => _ end] =>
      lazymatch x with
      | context [match _ with _ => _ end] => fail
      | _ => destruct x eqn:?
      end
  end.

Ltac walk H :=
  cbn beta iota zeta delta [hdb hlog] in H;
  repeat (inner_case H; cbn beta iota zeta delta [hdb hlog] in H).

(** Names the database a service call returned. *)
Ltac use_eq :=
  repeat match goal with
         | H : ?f = (_, ?d) |- _ =>
             assert (d = (f).2) by (by rewrite H); clear H; subst d
         end.

(** Finds the position of an effect in an explicit list. *)
Ltac split_log pre := repeat (destruct pre as [|? pre]; simplify_eq/=).

(** Membership in an explicit list of effects. *)
Ltac in_log H :=
  repeat match type of H with
         | _ ∈ _ :: _ =>
             apply elem_of_cons in H; destruct H as [H|H]; [by simplify_eq|]
         end;
  by apply elem_of_nil in H.

Section Emission.
Context `{GoStd}.

(** C1, as the code has it. For every request: session deletion hands its
    session-ended message to the hub before it attempts the deletion; every
    other mutating operation (start-voting, end-voting, submit-vote,
    advance and select ticket, ticket create, update and delete) broadcasts
    nothing when one of its storage calls fails, and when it broadcasts the
    message is its last effect, sent after every write of the operation has
    been applied and after no storage call has failed. *)
Theorem emit_implies_applied_except_session_delete db r :
  emit_policy (op r) (serve db r).
Proof.
  remember (serve db r) as res eqn:Hres.
  unfold_handlers.
  unfold emit_policy, emit_before_delete, no_emit_on_failure,
    storage_failed, emit_after_applied.
  destruct (op r) eqn:Hop; walk Hres; subst res; simpl.
  all: try (intros pre sid m post Hl; split_log pre; eauto; fail).
  all: split; [first [done | intros [k Hk]; in_log Hk]|].
  all: intros pre sid m post Hl; split_log pre.
  all: split; [done|]; split; [intros k Hk|intros k ok Hk]; simpl in *.
  all: try in_log Hk.
  all: repeat (apply elem_of_cons in Hk; destruct Hk as [->|Hk]).
  all: try (by apply elem_of_nil in Hk).
  all: repeat first [apply list_elem_of_here | apply list_elem_of_further].
Qed.

End Emission.

(** ** What [GetSessionByID] loads *)

Section Loading.

Lemma order_by_perm {A} (key : A → Z) (l : list A) : order_by key l ≡ₚ l.
Proof. apply merge_sort_Permutation. Qed.

Lemma ticket_of_row_ID db kr : Ticket.ID (SessionService.ticket_of_row db kr) = kr.1.
Proof. by destruct kr. Qed.

Lemma ticket_rows_IDs db (l : list (Z * TicketRow)) :
  Ticket.ID <$> (SessionService.ticket_of_row db <$> l) = l.*1.
Proof. induction l as [|[] l IH]; simpl; [done|]. by f_equal. Qed.

Lemma getSessionTickets_IDs db sid :
  Ticket.ID <$> SessionService.getSessionTickets db sid
  ≡ₚ (filter (λ kr, t_session_id kr.2 = sid) (map_to_list (tickets db))).*1.
Proof.
  unfold SessionService.getSessionTickets.
  rewrite ticket_rows_IDs. by rewrite order_by_perm.
Qed.

(** Ticket ids are a primary key: the loaded slice has no two tickets with
    one id. *)
Lemma getSessionTickets_NoDup db sid :
  NoDup (Ticket.ID <$> SessionService.getSessionTickets db sid).
Proof.
  rewrite getSessionTickets_IDs.
  eapply sublist_NoDup; [apply (NoDup_fst_map_to_list (tickets db))|].
  apply fmap_sublist, sublist_filter.
Qed.

Lemma getSessionTickets_elem db sid t :
  t ∈ SessionService.getSessionTickets db sid →
  ∃ row, tickets db !! Ticket.ID t = Some row ∧ t_session_id row = sid.
Proof.
  unfold SessionService.getSessionTickets.
  intros ([id row] & -> & Hin)%list_elem_of_fmap.
  rewrite order_by_perm in Hin.
  apply list_elem_of_filter in Hin as [Hs Hin].
  apply elem_of_map_to_list in Hin. exists row. by simpl in *.
Qed.

Lemma getSessionTickets_has db sid id row :
  tickets db !! id = Some row → t_session_id row = sid →
  id ∈ Ticket.ID <$> SessionService.getSessionTickets db sid.
Proof.
  intros Hrow Hs. rewrite getSessionTickets_IDs.
  apply list_elem_of_fmap. exists (id, row). split; [done|].
  apply list_elem_of_filter. split; [done|]. by apply elem_of_map_to_list.
Qed.

Lemma resolve_current_Some cur ts t :
  SessionService.resolve_current cur ts = Some t →
  cur = Some (Ticket.ID t) ∧ t ∈ ts.
Proof.
  destruct cur as [c|]; [|done]. simpl. intros Hf.
  apply find_some in Hf as [Hin Hid].
  apply bool_decide_eq_true in Hid. subst.
  split; [done|]. by apply list_elem_of_In.
Qed.

Lemma resolve_current_None c ts :
  SessionService.resolve_current (Some c) ts = None →
  c ∉ Ticket.ID <$> ts.
Proof.
  simpl. intros Hf (t & -> & Hin)%list_elem_of_fmap.
  apply list_elem_of_In in Hin.
  pose proof (find_none _ _ Hf _ Hin) as Hn. simpl in Hn.
  by apply bool_decide_eq_false in Hn.
Qed.

(** The fields of a loaded session in terms of its row. *)
Lemma GetSessionByID_Some db sid s :
  SessionService.GetSessionByID db sid = Some s →
  ∃ row, sessions db !! sid = Some row
    ∧ Session.ID s = sid
    ∧ Session.Name s = s_name row
    ∧ Session.OwnerID s = s_owner_id row
    ∧ Session.CurrentTicketID s = s_current_ticket_id row
    ∧ Session.IsVotingActive s = s_is_voting_active row
    ∧ Session.Tickets s = SessionService.getSessionTickets db sid
    ∧ Session.CurrentTicket s =
        SessionService.resolve_current (s_current_ticket_id row)
          (SessionService.getSessionTickets db sid).
Proof.
  unfold SessionService.GetSessionByID. intros Hs.
  destruct (sessions db !! sid) as [row|]; simplify_eq/=.
  by exists row.
Qed.

(** The current ticket of a loaded session is a row of [tickets] that
    belongs to the session and carries the id the session row points to. *)
Lemma current_ticket_row db sid s cur :
  SessionService.GetSessionByID db sid = Some s →
  Session.CurrentTicket s = Some cur →
  Session.CurrentTicketID s = Some (Ticket.ID cur)
  ∧ ∃ row, tickets db !! Ticket.ID cur = Some row ∧ t_session_id row = sid.
Proof.
  intros (row & _ & _ & _ & _ & Hc & _ & _ & Hcur)%GetSessionByID_Some Hs.
  rewrite Hcur in Hs. apply resolve_current_Some in Hs as [Hid Hin].
  split; [congruence|]. by eapply getSessionTickets_elem.
Qed.

(** Conversely a current ticket id that names a ticket of the session is
    resolved. *)
Lemma current_ticket_resolved db sid s c row :
  SessionService.GetSessionByID db sid = Some s →
  Session.CurrentTicketID s = Some c →
  tickets db !! c = Some row → t_session_id row = sid →
  ∃ cur, Session.CurrentTicket s = Some cur ∧ Ticket.ID cur = c.
Proof.
  intros (srow & _ & _ & _ & _ & Hc & _ & _ & Hcur)%GetSessionByID_Some
    Hid Hrow Hs.
  rewrite Hcur, <- Hc, Hid.
  destruct (SessionService.resolve_current (Some c) _) as [cur|] eqn:Hr.
  - exists cur. split; [done|].
    apply resolve_current_Some in Hr as [? _]. congruence.
  - apply resolve_current_None in Hr. destruct Hr.
    by eapply getSessionTickets_has.
Qed.

End Loading.

(** ** Single requests *)

Section Requests.
Context `{GoStd}.

(** C4. A caller who is not the owner of the session: every owner-only
    route (in particular start-voting, end-voting, advance-ticket,
    select-ticket and ticket deletion) leaves the database as it was,
    broadcasts nothing, does not panic, and, when the session could be
    read, answers with a 4xx rejection. *)
Theorem non_owner_is_rejected db r u s :
  owner_only (op r) = true →
  ctx_user r = Some u →
  SessionService.GetSessionByID db (sessionID r) = Some s →
  User.ID u ≠ Session.OwnerID s →
  db_after (serve db r) = db
  ∧ events (effects (serve db r)) = []
  ∧ outcome (serve db r) ≠ Panicked
  ∧ (fails r KGetSessionByID = false → rejected (outcome (serve db r))).
Proof.
  intros Hop Hu Hs Hne.
  remember (serve db r) as res eqn:Hres. unfold_handlers.
  rewrite Hu in Hres.
  destruct (op r) eqn:Ho; try discriminate Hop; walk Hres; simplify_eq/=.
  all: try match goal with
           | n : ¬ (_ ≠ _) |- _ => destruct n; intros ?; apply Hne; congruence
           end.
  all: repeat split; try done; try congruence.
  all: intros Hread; try congruence.
  all: eexists _, _; split; [reflexivity|lia].
Qed.

(** C6, the failing case. The owner ends voting on a session without a
    current ticket: the handler first writes the session row and then
    dereferences the nil [session.CurrentTicket]. *)
Theorem EndVoting_without_ticket_panics db r u s :
  op r = OpEndVoting →
  ctx_user r = Some u →
  SessionService.GetSessionByID db (sessionID r) = Some s →
  Session.OwnerID s = User.ID u →
  Session.CurrentTicket s = None →
  fails r KGetSessionByID = false →
  fails r KUpdateSession = false →
  outcome (serve db r) = Panicked
  ∧ effects (serve db r)
    = [Storage KGetSessionByID true; Storage KUpdateSession true]
  ∧ db_after (serve db r)
    = (SessionService.UpdateSession (now r)
         (Session.set_IsVotingActive false s) db).2.
Proof.
  intros Ho Hu Hs Hown Hcur Hf1 Hf2.
  unfold_handlers. rewrite Ho, Hu. simpl. rewrite Hf1. simpl. rewrite Hs.
  simpl. destruct (decide _) as [Hne|_]; [by destruct Hne|].
  rewrite Hf2. unfold SessionService.UpdateSession. simpl.
  by rewrite Hcur.
Qed.

(** The sibling route has the guard [EndVoting] lacks. *)
Lemma StartVoting_without_ticket_rejected db r u s :
  op r = OpStartVoting →
  ctx_user r = Some u →
  SessionService.GetSessionByID db (sessionID r) = Some s →
  Session.OwnerID s = User.ID u →
  Session.CurrentTicket s = None →
  fails r KGetSessionByID = false →
  outcome (serve db r) = Response 400 "No active ticket"
  ∧ events (effects (serve db r)) = []
  ∧ db_after (serve db r) = db.
Proof.
  intros Ho Hu Hs Hown Hcur Hf1.
  unfold_handlers. rewrite Ho, Hu. simpl. rewrite Hf1. simpl. rewrite Hs.
  simpl. destruct (decide _) as [Hne|_]; [by destruct Hne|].
  by rewrite Hcur.
Qed.

Lemma ticket_after_last cur pre (t : Ticket.t) :
  cur ∉ Ticket.ID <$> pre →
  Handler.ticket_after cur (pre ++ [t]) = None.
Proof.
  induction pre as [|a pre IH]; [done|].
  intros Hn. rewrite fmap_cons, not_elem_of_cons in Hn. destruct Hn as [Ha Hn].
  simpl. destruct (pre ++ [t]) eqn:E.
  - by destruct pre.
  - destruct (decide _); [done|]. by apply IH.
Qed.

(** C10. The owner advances past the last ticket, or with no tickets at
    all: the session row loses its current ticket and its voting flag,
    and a ticket-changed message with a nil ticket is broadcast. *)
Theorem NextTicket_at_end_clears_current db r u s :
  op r = OpNextTicket →
  ctx_user r = Some u →
  SessionService.GetSessionByID db (sessionID r) = Some s →
  Session.OwnerID s = User.ID u →
  fails r KGetSessionByID = false →
  fails r KUpdateSession = false →
  (Session.Tickets s = []
   ∨ ∃ pre cur, Session.Tickets s = pre ++ [cur]
                ∧ Session.CurrentTicket s = Some cur) →
  (∃ row, sessions (db_after (serve db r)) !! sessionID r = Some row
          ∧ s_current_ticket_id row = None
          ∧ s_is_voting_active row = false)
  ∧ events (effects (serve db r))
    = [(sessionID r, SSEMessage.mk "ticket-changed" (DataTicket None))]
  ∧ outcome (serve db r) = Response 303 ("/session/" +:+ sessionID r).
Proof.
  intros Ho Hu Hs Hown Hf1 Hf2 Hend.
  assert (Handler.find_next s = None) as Hnext.
  { pose proof (GetSessionByID_Some _ _ _ Hs)
      as (row & _ & _ & _ & _ & _ & _ & Hts & Hcur).
    unfold Handler.find_next.
    destruct Hend as [Hnil|(pre & cur & Hpre & Hc)].
    - rewrite Hnil in *. rewrite Hcur, <- Hts.
      destruct (s_current_ticket_id row); [|done].
      by simpl.
    - rewrite Hc, Hpre. apply ticket_after_last.
      pose proof (getSessionTickets_NoDup db (sessionID r)) as Hnd.
      rewrite <- Hts, Hpre, fmap_app, NoDup_app in Hnd.
      destruct Hnd as (_ & Hnd & _). intros Hin.
      apply (Hnd _ Hin). simpl. apply list_elem_of_here. }
  pose proof (GetSessionByID_Some _ _ _ Hs) as (row & Hrow & Hid & _).
  unfold_handlers. rewrite Ho, Hu. simpl. rewrite Hf1. simpl. rewrite Hs.
  simpl. destruct (decide _) as [Hne|_]; [by destruct Hne|].
  rewrite Hf2, Hnext. simpl. split; [|done].
  unfold SessionService.UpdateSession. simpl. rewrite Hid.
  rewrite lookup_alter_eq, Hrow. simpl. eauto.
Qed.

(** C2, as the code has it. With an authenticated user that exists, a
    valid card, a readable session and working storage, a vote is accepted
    exactly when the session has a current ticket, irrespective of whether
    voting has been started: accepted in Selected, Voting and Reviewing,
    rejected with 400 and without any effect in Idle. *)
Theorem vote_accepted_iff_current_ticket db r raw u s started :
  op r = OpSubmitVote raw →
  ctx_user r = Some u →
  is_Some (users db !! User.ID u) →
  valid_card (utils.SanitizeInput raw) →
  SessionService.GetSessionByID db (sessionID r) = Some s →
  (∀ k, fails r k = false) →
  (vote_accepted (serve db r) ↔ spec_phase started s ≠ Idle)
  ∧ (spec_phase started s = Idle →
     outcome (serve db r) = Response 400 "No active ticket"
     ∧ db_after (serve db r) = db
     ∧ events (effects (serve db r)) = []).
Proof.
  intros Ho Hu Huser [Hv1 Hv2] Hs Hf.
  unfold vote_accepted, spec_phase.
  unfold_handlers. rewrite Ho, Hu. simpl. rewrite Hv1, !Hf. simpl.
  rewrite Hs. simpl.
  destruct (Session.CurrentTicket s) as [cur|] eqn:Hcur; simpl.
  - rewrite Hv2. simpl.
    destruct (current_ticket_row _ _ _ _ Hs Hcur) as (_ & row & Hrow & _).
    unfold VotingService.SubmitVote.
    rewrite (bool_decide_eq_true_2 _ (mk_is_Some _ _ Hrow)).
    rewrite (bool_decide_eq_true_2 _ Huser). rewrite andb_false_r. simpl.
    split; [|by repeat case_match].
    split; [by repeat case_match|done].
  - split; [|done]. split; [done|by intros []].
Qed.

End Requests.

(** ** The session invariant along a run *)

Section Invariant.
Context `{GoStd}.

Lemma rows_inv_iff db : voting_implies_ticket db ↔ rows_inv db.
Proof.
  split.
  - intros Hinv sid row Hrow Hact.
    destruct (SessionService.GetSessionByID db sid) as [s|] eqn:Hs.
    2:{ unfold SessionService.GetSessionByID in Hs. by rewrite Hrow in Hs. }
    pose proof (GetSessionByID_Some _ _ _ Hs)
      as (row' & Hrow' & _ & _ & _ & Hc & Ha & _).
    simplify_eq. destruct (Hinv sid s Hs) as [_ Hcur]; [congruence|].
    destruct (Session.CurrentTicket s) as [cur|] eqn:Hcur'; [|done].
    destruct (current_ticket_row _ _ _ _ Hs Hcur') as (Hid & trow & ? & ?).
    exists (Ticket.ID cur), trow. split; [congruence|done].
  - intros Hinv sid s Hs Hact.
    pose proof (GetSessionByID_Some _ _ _ Hs)
      as (row & Hrow & _ & _ & _ & Hc & Ha & _).
    destruct (Hinv sid row Hrow) as (c & trow & Hcid & Ht & Hts);
      [congruence|].
    split; [congruence|].
    destruct (current_ticket_resolved db sid s c trow) as (cur & -> & _);
      [done|congruence|done|done|done].
Qed.

(** A write that leaves [sessions] and [tickets] alone. *)
Lemma rows_inv_frame db db' :
  sessions db' = sessions db → tickets db' = tickets db →
  rows_inv db → rows_inv db'.
Proof. unfold rows_inv. intros -> ->. done. Qed.

Lemma rows_inv_update_inactive db now s :
  Session.IsVotingActive s = false →
  rows_inv db → rows_inv (SessionService.UpdateSession now s db).2.
Proof.
  intros Hfalse Hinv sid row. unfold SessionService.UpdateSession. simpl.
  destruct (decide (Session.ID s = sid)) as [->|Hne].
  - rewrite lookup_alter_eq. destruct (sessions db !! _); [|done].
    intros Hr Ha. simplify_eq/=. congruence.
  - rewrite lookup_alter_ne by done. apply Hinv.
Qed.

Lemma rows_inv_update_active db now sid s cur :
  SessionService.GetSessionByID db sid = Some s →
  Session.CurrentTicket s = Some cur →
  rows_inv db →
  rows_inv (SessionService.UpdateSession now
              (Session.set_IsVotingActive true s) db).2.
Proof.
  intros Hs Hcur Hinv sid' row. unfold SessionService.UpdateSession. simpl.
  destruct (current_ticket_row _ _ _ _ Hs Hcur) as (Hid & trow & Ht & Hts).
  pose proof (GetSessionByID_Some _ _ _ Hs) as (srow & Hrow & Hsid & _).
  destruct (decide (Session.ID s = sid')) as [<-|Hne].
  - rewrite lookup_alter_eq, Hsid, Hrow.
    intros Hr _. simplify_eq/=. exists (Ticket.ID cur), trow.
    repeat split; congruence.
  - rewrite lookup_alter_ne by done. apply Hinv.
Qed.

Lemma max_list_ge (l : list Z) x : x ∈ l → x ≤ max_list l.
Proof.
  induction 1 as [|x y l _ IH]; simpl; lia.
Qed.

(** The id given to a new ticket is not in use. *)
Lemma next_ticket_id_fresh db : tickets db !! next_ticket_id db = None.
Proof.
  destruct (tickets db !! next_ticket_id db) as [row|] eqn:Hrow; [|done].
  apply elem_of_map_to_list in Hrow.
  apply (list_elem_of_fmap_2 fst) in Hrow. simpl in Hrow.
  apply max_list_ge in Hrow. unfold next_ticket_id in Hrow at 1. lia.
Qed.

Lemma rows_inv_CreateTicket db now sid title desc :
  rows_inv db →
  rows_inv (TicketService.CreateTicket now sid title desc db).2.
Proof.
  intros Hinv. unfold TicketService.CreateTicket.
  destruct (_ && _); [done|]. simpl.
  intros sid' row Hrow Hact. simpl in *.
  destruct (Hinv sid' row Hrow Hact) as (c & trow & ? & Ht & ?).
  exists c, trow. split; [done|]. split; [|done].
  rewrite lookup_insert_ne; [done|].
  intros <-. by rewrite next_ticket_id_fresh in Ht.
Qed.

Lemma rows_inv_UpdateTicket db t :
  rows_inv db → rows_inv (TicketService.UpdateTicket t db).2.
Proof.
  intros Hinv sid row Hrow Hact. simpl in *.
  destruct (Hinv sid row Hrow Hact) as (c & trow & ? & Ht & ?).
  destruct (decide (Ticket.ID t = c)) as [->|Hne].
  - eexists c, _. split; [done|].
    unfold TicketService.UpdateTicket. simpl.
    rewrite lookup_alter_eq, Ht. simpl. split; [reflexivity|done].
  - exists c, trow. split; [done|].
    unfold TicketService.UpdateTicket. simpl.
    by rewrite lookup_alter_ne.
Qed.

Lemma rows_inv_DeleteSession db sid :
  rows_inv db → rows_inv (SessionService.DeleteSession sid db).2.
Proof.
  intros Hinv sid' row. unfold SessionService.DeleteSession.
  destruct (foreign_keys db); simpl.
  - intros Hrow Hact.
    apply lookup_delete_Some in Hrow as [Hne Hrow].
    destruct (Hinv sid' row Hrow Hact) as (c & trow & ? & Ht & ?).
    exists c, trow. split; [done|]. split; [|done].
    apply map_lookup_filter_Some. split; [done|]. simpl. congruence.
  - intros Hrow Hact.
    apply lookup_delete_Some in Hrow as [Hne Hrow].
    by apply Hinv.
Qed.

(** Deleting a ticket that no voting session points to. *)
Lemma rows_inv_DeleteTicket db tid :
  (∀ sid row, sessions db !! sid = Some row →
              s_is_voting_active row = true →
              s_current_ticket_id row ≠ Some tid) →
  rows_inv db → rows_inv (TicketService.DeleteTicket tid db).2.
Proof.
  intros Hfree Hinv. unfold TicketService.DeleteTicket.
  destruct (tickets db !! tid) as [trow0|] eqn:Htid; [|done]. simpl.
  intros sid row Hrow Hact. simpl in *.
  destruct (Hinv sid row Hrow Hact) as (c & trow & Hc & Ht & Hts).
  assert (c ≠ tid) as Hne.
  { intros ->. by eapply Hfree. }
  eexists c, _. split; [done|].
  rewrite lookup_fmap, lookup_delete_ne, Ht by done. simpl.
  split; [reflexivity|]. by case_bool_decide.
Qed.

Lemma rows_inv_SubmitVote db now tid uid v :
  rows_inv db → rows_inv (VotingService.SubmitVote now tid uid v db).2.
Proof.
  intros Hinv. unfold VotingService.SubmitVote.
  destruct (_ && _); [done|]. by eapply rows_inv_frame.
Qed.

(** Only the session a ticket belongs to can point to it. *)
Lemma rows_inv_pointer db sid row tid trow :
  rows_inv db →
  sessions db !! sid = Some row → s_is_voting_active row = true →
  s_current_ticket_id row = Some tid →
  tickets db !! tid = Some trow → t_session_id trow = sid.
Proof.
  intros Hinv Hrow Hact Hc Ht.
  destruct (Hinv sid row Hrow Hact) as (c & trow' & ? & ? & ?). congruence.
Qed.

Lemma GetTicketByID_Some db tid t :
  TicketService.GetTicketByID db tid = Some t →
  ∃ trow, tickets db !! tid = Some trow
          ∧ Ticket.SessionID t = t_session_id trow.
Proof.
  unfold TicketService.GetTicketByID.
  destruct (tickets db !! tid) as [trow|]; [|done].
  intros [= <-]. by exists trow.
Qed.

Lemma rows_inv_delete_current db sid s now tid t :
  rows_inv db →
  SessionService.GetSessionByID db sid = Some s →
  TicketService.GetTicketByID db tid = Some t →
  Ticket.SessionID t = sid →
  rows_inv
    (TicketService.DeleteTicket tid
       (SessionService.UpdateSession now
          (Session.set_IsVotingActive false
             (Session.set_CurrentTicketID None s)) db).2).2.
Proof.
  intros Hinv Hs (trow & Ht & Hts)%GetTicketByID_Some Hsid.
  pose proof (GetSessionByID_Some _ _ _ Hs) as (srow & Hrow & Hid & _).
  apply rows_inv_DeleteTicket; [|by apply rows_inv_update_inactive].
  unfold SessionService.UpdateSession. simpl. intros sid' row.
  destruct (decide (Session.ID s = sid')) as [<-|Hne].
  - rewrite lookup_alter_eq, Hid, Hrow. intros Hr. by simplify_eq/=.
  - rewrite lookup_alter_ne by done. intros Hr Hact Hc.
    pose proof (rows_inv_pointer _ _ _ _ _ Hinv Hr Hact Hc Ht). congruence.
Qed.

Lemma rows_inv_delete_other db sid s tid t :
  rows_inv db →
  SessionService.GetSessionByID db sid = Some s →
  TicketService.GetTicketByID db tid = Some t →
  Ticket.SessionID t = sid →
  Session.CurrentTicketID s ≠ Some tid →
  rows_inv (TicketService.DeleteTicket tid db).2.
Proof.
  intros Hinv Hs (trow & Ht & Hts)%GetTicketByID_Some Hsid Hcur.
  pose proof (GetSessionByID_Some _ _ _ Hs)
    as (srow & Hrow & Hid & _ & _ & Hc & _).
  apply rows_inv_DeleteTicket; [|done].
  intros sid' row Hr Hact Hc'.
  pose proof (rows_inv_pointer _ _ _ _ _ Hinv Hr Hact Hc' Ht).
  assert (sid' = sid) as -> by congruence. simplify_eq. congruence.
Qed.

(** Every handler keeps the invariant, on each of its exits, the panic of
    [EndVoting] included. *)
Lemma rows_inv_serve db r : rows_inv db → rows_inv (db_after (serve db r)).
Proof.
  intros Hinv. remember (serve db r) as res eqn:Hres. unfold_handlers.
  destruct (op r) eqn:Ho; walk Hres; subst res; simpl; try done.
  all: use_eq.
  all: try (by apply rows_inv_update_inactive).
  all: try (by eapply rows_inv_update_active).
  all: try (by apply rows_inv_SubmitVote).
  all: try (by apply rows_inv_CreateTicket).
  all: try (by apply rows_inv_UpdateTicket).
  all: try (by apply rows_inv_DeleteSession).
  all: try (eapply rows_inv_frame; [| |eassumption]; done).
  all: try (eapply rows_inv_delete_current; [done|done|done|];
            by apply dec_stable).
  all: eapply rows_inv_delete_other; [done|done|done| |done];
       by apply dec_stable.
Qed.

(** C9. Along every sequence of requests (select-ticket, start-voting,
    end-voting, advance-ticket, delete-ticket, and every other route),
    served one after the other from a database in which each session with
    its voting flag set has a current ticket, the same holds of every
    database reached: the flag implies that the current ticket id is set
    and that the current ticket is loaded. *)
Theorem voting_active_implies_current_ticket db rs :
  voting_implies_ticket db → voting_implies_ticket (run db rs).
Proof.
  rewrite !rows_inv_iff. unfold run.
  revert db. induction rs as [|r rs IH]; intros db Hinv; [done|].
  simpl. apply IH. by apply rows_inv_serve.
Qed.

End Invariant.

(** ** A round of voting *)

Section VotingRound.
Context `{GoStd}.

Lemma SubmitVote_ok db now tid uid v :
  is_Some (tickets db !! tid) → is_Some (users db !! uid) →
  VotingService.SubmitVote now tid uid v db
  = (Some (Vote.mk (next_vote_id db) tid uid v now None),
     mkDB (users db) (sessions db) (tickets db)
       (filter (λ r, ¬ (v_ticket_id r = tid ∧ v_user_id r = uid)) (votes db)
        ++ [mkVoteRow (next_vote_id db) tid uid v now])
       (ticket_seq db) (next_vote_id db) (foreign_keys db)).
Proof.
  intros Ht Hu. unfold VotingService.SubmitVote.
  rewrite (bool_decide_eq_true_2 _ Ht), (bool_decide_eq_true_2 _ Hu).
  by rewrite andb_false_r.
Qed.

(** What the three requests of a round do when nothing fails. *)

Lemma serve_StartVoting db r u s cur :
  op r = OpStartVoting → ctx_user r = Some u →
  SessionService.GetSessionByID db (sessionID r) = Some s →
  Session.OwnerID s = User.ID u →
  Session.CurrentTicket s = Some cur →
  (∀ k, fails r k = false) →
  db_after (serve db r)
  = (VotingService.ClearVotesForTicket (Ticket.ID cur)
       (SessionService.UpdateSession (now r)
          (Session.set_IsVotingActive true s) db).2).2
  ∧ events (effects (serve db r))
    = [(sessionID r, SSEMessage.mk "voting-started" (DataTicket (Some cur)))].
Proof.
  intros Ho Hu Hs Hown Hcur Hf.
  unfold_handlers. rewrite Ho, Hu. simpl. rewrite !Hf. simpl. rewrite Hs.
  simpl. destruct (decide _) as [Hne|_]; [by destruct Hne|].
  rewrite Hcur. simpl. by rewrite ?Hf.
Qed.

Lemma serve_SubmitVote db r raw u s cur :
  op r = OpSubmitVote raw → ctx_user r = Some u →
  is_Some (users db !! User.ID u) →
  valid_card (utils.SanitizeInput raw) →
  SessionService.GetSessionByID db (sessionID r) = Some s →
  Session.CurrentTicket s = Some cur →
  (∀ k, fails r k = false) →
  db_after (serve db r)
  = (VotingService.SubmitVote (now r) (Ticket.ID cur) (User.ID u)
       (utils.SanitizeInput raw) db).2.
Proof.
  intros Ho Hu Huser [Hv1 Hv2] Hs Hcur Hf.
  destruct (current_ticket_row _ _ _ _ Hs Hcur) as (_ & row & Hrow & _).
  unfold_handlers. rewrite Ho, Hu. simpl. rewrite Hv1, !Hf. simpl.
  rewrite Hs. simpl. rewrite Hcur, Hv2. simpl.
  by rewrite SubmitVote_ok.
Qed.

Lemma serve_EndVoting db r u s cur :
  op r = OpEndVoting → ctx_user r = Some u →
  SessionService.GetSessionByID db (sessionID r) = Some s →
  Session.OwnerID s = User.ID u →
  Session.CurrentTicket s = Some cur →
  (∀ k, fails r k = false) →
  events (effects (serve db r))
  = [(sessionID r,
      SSEMessage.mk "voting-ended"
        (DataVotingEnded (Some cur)
           (VotingService.GetVotesForTicket
              (SessionService.UpdateSession (now r)
                 (Session.set_IsVotingActive false s) db).2
              (Ticket.ID cur))))].
Proof.
  intros Ho Hu Hs Hown Hcur Hf.
  unfold_handlers. rewrite Ho, Hu. simpl. rewrite !Hf. simpl. rewrite Hs.
  simpl. destruct (decide _) as [Hne|_]; [by destruct Hne|].
  rewrite ?Hf. unfold SessionService.UpdateSession. simpl.
  rewrite Hcur. simpl. by rewrite ?Hf.
Qed.

(** The current ticket of a session depends on [sessions] and [tickets]
    only. *)
Lemma current_ticket_stable db db' sid s cur :
  sessions db' = sessions db → tickets db' = tickets db →
  SessionService.GetSessionByID db sid = Some s →
  Session.CurrentTicket s = Some cur →
  ∃ s' cur', SessionService.GetSessionByID db' sid = Some s'
             ∧ Session.CurrentTicket s' = Some cur'
             ∧ Ticket.ID cur' = Ticket.ID cur
             ∧ Session.OwnerID s' = Session.OwnerID s.
Proof.
  intros Hss Hts Hs Hcur.
  destruct (current_ticket_row _ _ _ _ Hs Hcur) as (Hid & trow & Ht & Hsid).
  pose proof (GetSessionByID_Some _ _ _ Hs)
    as (row & Hrow & _ & _ & Hown & Hc & _).
  destruct (SessionService.GetSessionByID db' sid) as [s'|] eqn:Hs'.
  2:{ unfold SessionService.GetSessionByID in Hs'.
      by rewrite Hss, Hrow in Hs'. }
  pose proof (GetSessionByID_Some _ _ _ Hs')
    as (row' & Hrow' & _ & _ & Hown' & Hc' & _).
  rewrite Hss, Hrow in Hrow'. injection Hrow' as <-.
  destruct (current_ticket_resolved db' sid s' (Ticket.ID cur) trow)
    as (cur' & ? & ?); [done|congruence|by rewrite Hts|done|].
  exists s', cur'. repeat split; [done..|congruence].
Qed.

Lemma latest_vote_snoc done sub u :
  latest_vote (done ++ [sub]) u
  = if decide (User.ID (voter sub) = u)
    then Some (utils.SanitizeInput (form_vote sub))
    else latest_vote done u.
Proof.
  induction done as [|a done IH]; simpl.
  - done.
  - rewrite IH. destruct (decide (User.ID (voter sub) = u)); [done|].
    done.
Qed.

Lemma filter_filter_sublist {A} (P Q : A → Prop)
    `{!∀ x, Decision (P x)} `{!∀ x, Decision (Q x)} (l : list A) :
  filter P (filter Q l) `sublist_of` filter P l.
Proof.
  induction l as [|x l IH]; [done|].
  rewrite (filter_cons Q), (filter_cons P).
  destruct (decide (Q x)), (decide (P x)).
  - rewrite filter_cons, decide_True by done. by apply sublist_skip.
  - by rewrite filter_cons, decide_False.
  - by apply sublist_cons.
  - done.
Qed.

(** One accepted vote: the voter's row is replaced by the new value. *)
Lemma round_inv_vote users0 sid owner_id tid done db sub :
  round_inv users0 sid owner_id tid done db →
  is_Some (users0 !! User.ID (voter sub)) →
  valid_card (utils.SanitizeInput (form_vote sub)) →
  round_inv users0 sid owner_id tid (done ++ [sub])
    (db_after (serve db (vote_request sid sub))).
Proof.
  intros (Hu & (s & cur & Hs & Hcur & Hid & Hown) & Hex & Hnd & Hlatest)
    Huser Hvalid.
  destruct (current_ticket_row _ _ _ _ Hs Hcur) as (_ & trow & Ht & _).
  rewrite (serve_SubmitVote db (vote_request sid sub) (form_vote sub)
             (voter sub) s cur); try done; [|by rewrite Hu].
  rewrite SubmitVote_ok; [|done|by rewrite Hu]. simpl. rewrite Hid.
  set (uid := User.ID (voter sub)) in *.
  set (val := utils.SanitizeInput (form_vote sub)).
  set (row := mkVoteRow _ _ _ _ _).
  set (kept := filter _ (votes db)).
  assert (∀ r, r ∈ kept ↔ r ∈ votes db
                          ∧ ¬ (v_ticket_id r = tid ∧ v_user_id r = uid))
    as Hkept.
  { intros r. unfold kept. rewrite list_elem_of_filter. tauto. }
  split; [done|]. split; [|split; [|split]].
  - destruct (current_ticket_stable db
                (mkDB (users db) (sessions db) (tickets db) (kept ++ [row])
                   (ticket_seq db) (next_vote_id db) (foreign_keys db))
                sid s cur) as (s' & cur' & ? & ? & ? & ?); try done.
    exists s', cur'. repeat split; congruence.
  - simpl. intros r [Hr| ->%list_elem_of_singleton]%elem_of_app Htid.
    + apply Hex; [|done]. by apply Hkept.
    + done.
  - simpl. rewrite filter_app, fmap_app.
    rewrite (filter_cons _ row), decide_True by done. simpl.
    apply NoDup_app. split; [|split].
    + eapply sublist_NoDup; [apply Hnd|].
      apply fmap_sublist, filter_filter_sublist.
    + intros u (r & Heq & Hr)%list_elem_of_fmap Hin.
      apply list_elem_of_singleton in Hin.
      apply list_elem_of_filter in Hr as [Htid Hr].
      apply Hkept in Hr as [_ Hn]. apply Hn. split; congruence.
    + apply NoDup_singleton.
  - simpl. intros u v. rewrite latest_vote_snoc. fold uid val.
    destruct (decide (uid = u)) as [<-|Hne].
    + split.
      * intros (r & [Hr| ->%list_elem_of_singleton]%elem_of_app
                  & Htid & Hru & Hrv).
        -- apply Hkept in Hr as [_ Hn]. tauto.
        -- by subst.
      * intros [= <-]. exists row. split; [|done].
        apply elem_of_app. right. by apply list_elem_of_singleton.
    + rewrite <- Hlatest. split.
      * intros (r & [Hr| ->%list_elem_of_singleton]%elem_of_app
                  & Htid & Hru & Hrv).
        -- exists r. split; [|done]. by apply Hkept.
        -- done.
      * intros (r & Hr & Htid & Hru & Hrv). exists r. split; [|done].
        apply elem_of_app. left. apply Hkept. split; [done|].
        intros [_ ?]. congruence.
Qed.

Lemma round_inv_run users0 sid owner_id tid subs :
  ∀ done db,
    round_inv users0 sid owner_id tid done db →
    (∀ sub, sub ∈ subs →
            is_Some (users0 !! User.ID (voter sub))
            ∧ valid_card (utils.SanitizeInput (form_vote sub))) →
    round_inv users0 sid owner_id tid (done ++ subs)
      (run db (vote_request sid <$> subs)).
Proof.
  induction subs as [|sub subs IH]; intros done db Hinv Hsubs.
  - by rewrite app_nil_r.
  - simpl. replace (done ++ sub :: subs) with ((done ++ [sub]) ++ subs)
      by by rewrite <- app_assoc.
    apply IH.
    + apply round_inv_vote; [done|..]; apply Hsubs, list_elem_of_here.
    + intros sub' Hin. by apply Hsubs, list_elem_of_further.
Qed.

Lemma filter_filter_not {A} (P : A → Prop) `{!∀ x, Decision (P x)}
    (l : list A) :
  filter P (filter (λ x, ¬ P x) l) = [].
Proof.
  apply elem_of_nil_inv. intros x [HP Hin]%list_elem_of_filter.
  by apply list_elem_of_filter in Hin as [HnP _].
Qed.

(** Start-voting opens the round with no vote on the ticket. *)
Lemma round_inv_start db r u s cur :
  op r = OpStartVoting → ctx_user r = Some u →
  SessionService.GetSessionByID db (sessionID r) = Some s →
  Session.OwnerID s = User.ID u →
  Session.CurrentTicket s = Some cur →
  (∀ k, fails r k = false) →
  round_inv (users db) (sessionID r) (User.ID u) (Ticket.ID cur) []
    (db_after (serve db r))
  ∧ VotingService.GetVotesForTicket (db_after (serve db r)) (Ticket.ID cur)
    = [].
Proof.
  intros Ho Hu Hs Hown Hcur Hf.
  destruct (serve_StartVoting db r u s cur) as [-> _]; try done.
  destruct (current_ticket_row _ _ _ _ Hs Hcur) as (Hid & trow & Ht & Hsid).
  pose proof (GetSessionByID_Some _ _ _ Hs)
    as (row & Hrow & Hsid' & _ & Hown' & Hc & _).
  unfold VotingService.ClearVotesForTicket, SessionService.UpdateSession.
  simpl. set (db1 := set_votes _ _).
  assert (filter (λ r, v_ticket_id r = Ticket.ID cur) (votes db1) = [])
    as Hnone.
  { simpl. apply (filter_filter_not (λ r, v_ticket_id r = Ticket.ID cur)). }
  split.
  - split; [done|]. split; [|split; [|split]].
    + destruct (SessionService.GetSessionByID db1 (sessionID r))
        as [s1|] eqn:Hs1.
      2:{ unfold SessionService.GetSessionByID in Hs1. simpl in Hs1.
          by rewrite Hsid', lookup_alter_eq, Hrow in Hs1. }
      pose proof (GetSessionByID_Some _ _ _ Hs1)
        as (row1 & Hrow1 & _ & _ & Hown1 & Hc1 & _).
      simpl in Hrow1. rewrite Hsid', lookup_alter_eq, Hrow in Hrow1.
      simpl in Hrow1. injection Hrow1 as <-. simpl in *.
      destruct (current_ticket_resolved db1 (sessionID r) s1 (Ticket.ID cur)
                  trow) as (cur1 & ? & ?); [done|congruence|done|done|].
      exists s1, cur1. repeat split; congruence.
    + intros r0 Hr0 Htid.
      assert (r0 ∈ filter (λ r, v_ticket_id r = Ticket.ID cur) (votes db1))
        as Hin by by apply list_elem_of_filter.
      rewrite Hnone in Hin. by apply elem_of_nil in Hin.
    + rewrite Hnone. constructor.
    + intros u0 v. simpl. split; [|done].
      intros (r0 & Hr0 & Htid & _).
      assert (r0 ∈ filter (λ r, v_ticket_id r = Ticket.ID cur) (votes db1))
        as Hin by by apply list_elem_of_filter.
      rewrite Hnone in Hin. by apply elem_of_nil in Hin.
  - unfold VotingService.GetVotesForTicket. by rewrite Hnone.
Qed.

Lemma vote_rows_pairs db (l : list VoteRow) :
  (∀ r, r ∈ l → is_Some (users db !! v_user_id r)) →
  (λ v, (Vote.UserID v, Vote.VoteValue v))
    <$> omap (VotingService.vote_of_row db) l
  = (λ r, (v_user_id r, v_vote_value r)) <$> l.
Proof.
  induction l as [|r l IH]; intros Hl; [done|].
  simpl. unfold VotingService.vote_of_row at 1.
  destruct (Hl r) as [urow Hurow]; [apply list_elem_of_here|].
  rewrite Hurow. simpl. f_equal. apply IH.
  intros r' Hr'. by apply Hl, list_elem_of_further.
Qed.

(** The votes a query for the ticket returns, as (user, value) pairs, are
    the rows of the ticket up to their order. *)
Lemma GetVotesForTicket_pairs db tid :
  (∀ r, r ∈ votes db → v_ticket_id r = tid →
        is_Some (users db !! v_user_id r)) →
  (λ v, (Vote.UserID v, Vote.VoteValue v))
    <$> VotingService.GetVotesForTicket db tid
  ≡ₚ (λ r, (v_user_id r, v_vote_value r))
       <$> filter (λ r, v_ticket_id r = tid) (votes db).
Proof.
  intros Hu. unfold VotingService.GetVotesForTicket.
  rewrite vote_rows_pairs.
  - by rewrite order_by_perm.
  - intros r Hr. rewrite order_by_perm in Hr.
    apply list_elem_of_filter in Hr as [? ?]. by apply Hu.
Qed.

(** C5. Start-voting by the owner, then any number of accepted votes, then
    end-voting by the owner, on the current ticket of one session and with
    working storage: start-voting leaves no vote on the ticket, and the
    vote list of the voting-ended message has exactly one vote per user who
    voted since, carrying that user's latest value. *)
Theorem voting_round_reports_latest_votes db sid owner s cur subs t0 t1 :
  SessionService.GetSessionByID db sid = Some s →
  Session.OwnerID s = User.ID owner →
  Session.CurrentTicket s = Some cur →
  (∀ sub, sub ∈ subs →
          is_Some (users db !! User.ID (voter sub))
          ∧ valid_card (utils.SanitizeInput (form_vote sub))) →
  let db1 :=
    db_after (serve db (mkRequest (Some owner) sid OpStartVoting t0
                          no_faults)) in
  let db2 := run db1 (vote_request sid <$> subs) in
  let res :=
    serve db2 (mkRequest (Some owner) sid OpEndVoting t1 no_faults) in
  VotingService.GetVotesForTicket db1 (Ticket.ID cur) = []
  ∧ ∃ cur' votes,
      events (effects res)
      = [(sid, SSEMessage.mk "voting-ended"
                 (DataVotingEnded (Some cur') votes))]
      ∧ Ticket.ID cur' = Ticket.ID cur
      ∧ NoDup (Vote.UserID <$> votes)
      ∧ ∀ u v, (∃ vote, vote ∈ votes ∧ Vote.UserID vote = u
                        ∧ Vote.VoteValue vote = v)
               ↔ latest_vote subs u = Some v.
Proof.
  intros Hs Hown Hcur Hsubs db1 db2 res.
  destruct (round_inv_start db
              (mkRequest (Some owner) sid OpStartVoting t0 no_faults)
              owner s cur) as [Hinv0 Hclear]; try done.
  fold db1 in Hinv0, Hclear. simpl in Hinv0. split; [done|].
  pose proof (round_inv_run _ _ _ _ subs [] db1 Hinv0 Hsubs) as Hinv.
  fold db2 in Hinv. simpl in Hinv.
  destruct Hinv
    as (Hu & (s2 & cur2 & Hs2 & Hcur2 & Hid2 & Hown2) & Hex & Hnd & Hlatest).
  unfold res.
  rewrite (serve_EndVoting db2 _ owner s2 cur2); try done.
  eexists cur2, _. split; [reflexivity|]. split; [done|].
  set (db3 := (SessionService.UpdateSession _ _ db2).2).
  assert (votes db3 = votes db2) as Hv3 by done.
  assert (users db3 = users db2) as Hu3 by done.
  pose proof (GetVotesForTicket_pairs db3 (Ticket.ID cur2)) as Hp.
  rewrite Hv3, Hu3, Hu, Hid2 in Hp. specialize (Hp Hex).
  rewrite Hid2.
  remember (VotingService.GetVotesForTicket db3 (Ticket.ID cur)) as vs
    eqn:Hvs.
  clear Hvs. split.
  - replace (Vote.UserID <$> vs)
      with ((λ v, (Vote.UserID v, Vote.VoteValue v)) <$> vs).*1
      by by rewrite <- list_fmap_compose.
    rewrite Hp, <- list_fmap_compose. exact Hnd.
  - intros u v. rewrite <- Hlatest. split.
    + intros (vote & Hin & <- & <-).
      assert ((Vote.UserID vote, Vote.VoteValue vote)
              ∈ (λ v, (Vote.UserID v, Vote.VoteValue v)) <$> vs) as Hpair
        by by apply (list_elem_of_fmap_2
                       (λ v, (Vote.UserID v, Vote.VoteValue v))).
      rewrite Hp in Hpair.
      apply list_elem_of_fmap in Hpair as (r & [= -> ->] & Hr).
      apply list_elem_of_filter in Hr as [? ?]. by exists r.
    + intros (r & Hr & Htid & <- & <-).
      assert ((v_user_id r, v_vote_value r)
              ∈ (λ v, (Vote.UserID v, Vote.VoteValue v)) <$> vs) as Hpair.
      { rewrite Hp.
        apply (list_elem_of_fmap_2 (λ r, (v_user_id r, v_vote_value r))).
        by apply list_elem_of_filter. }
      apply list_elem_of_fmap in Hpair as (vote & [= -> ->] & Hin).
      by exists vote.
Qed.

End VotingRound.

(** ** The WebSocket hub *)

Section WebSocketHub.

Import WSService.

Lemma try_send_open h a m c :
  h !! a = Some c → Chan.closed c = false →
  try_send h a m
  = if Chan.full c then NotReady else Sent (<[a := pushed m c]> h).
Proof. intros Ha Hc. unfold try_send. by rewrite Ha, Hc. Qed.

Lemma close_chan_open h a c :
  h !! a = Some c → Chan.closed c = false →
  close_chan h a = Some (<[a := shut c]> h).
Proof. intros Ha Hc. unfold close_chan. by rewrite Ha, Hc. Qed.

(** One turn of the broadcast loop on a client whose queue is open. *)
Lemma Run_broadcast_client_open sid m ws c ch :
  heap ws !! Send c = Some ch → Chan.closed ch = false →
  Run_broadcast_client sid m ws c
  = Some (if decide (SessionID c = sid)
          then if Chan.full ch
               then mk (delete (ID c) (clients ws))
                       (<[Send c := shut ch]> (heap ws))
               else mk (clients ws) (<[Send c := pushed m ch]> (heap ws))
          else ws).
Proof.
  intros Hch Hopen. unfold Run_broadcast_client.
  destruct (decide _); [|done].
  rewrite (try_send_open _ _ _ ch) by done.
  destruct (Chan.full ch); [|done].
  by rewrite (close_chan_open _ _ ch).
Qed.

(** The whole loop, for any order of visit in which no queue occurs twice
    and every queue is open: it does not panic; queues of clients outside
    the session are untouched; the queue of every visited client of the
    session receives the message, or is closed when it was full; and a key
    disappears from the map only for a client of the session whose queue
    was full. *)
Lemma Run_broadcast_in_spec sid m order :
  ∀ ws,
    NoDup (Send <$> order) →
    (∀ c, c ∈ order → open_at (heap ws) (Send c)) →
    ∃ ws', Run_broadcast_in order sid m ws = Some ws'
      ∧ (∀ a, a ∉ Send <$> filter (λ c, SessionID c = sid) order →
              heap ws' !! a = heap ws !! a)
      ∧ (∀ c ch, c ∈ order → SessionID c = sid →
                 heap ws !! Send c = Some ch →
                 heap ws' !! Send c
                 = Some (if Chan.full ch then shut ch else pushed m ch))
      ∧ (∀ k, clients ws' !! k = clients ws !! k
              ∨ (clients ws' !! k = None
                 ∧ ∃ c, c ∈ order ∧ ID c = k ∧ SessionID c = sid
                        ∧ full_at (heap ws) (Send c))).
Proof.
  induction order as [|c rest IH]; intros ws Hnd Hopen.
  { exists ws. simpl. repeat split; auto. intros ?? Hin. by apply elem_of_nil in Hin. }
  rewrite fmap_cons in Hnd. apply NoDup_cons in Hnd as [Hc Hnd].
  destruct (Hopen c) as (ch & Hch & Hcl); [apply list_elem_of_here|].
  simpl. rewrite (Run_broadcast_client_open _ _ _ _ ch) by done. simpl.
  set (ws1 := if decide (SessionID c = sid) then _ else ws).
  assert (∀ a, a ≠ Send c → heap ws1 !! a = heap ws !! a) as Hframe1.
  { intros a Ha. unfold ws1. destruct (decide _); [|done].
    destruct (Chan.full ch); simpl; by rewrite lookup_insert_ne. }
  assert (∀ c', c' ∈ rest → Send c' ≠ Send c) as Hrest.
  { intros c' Hin Heq. apply Hc. rewrite <- Heq.
    by apply list_elem_of_fmap_2. }
  destruct (IH ws1 Hnd) as (ws' & Hrun & Hfr & Heff & Hcl').
  { intros c' Hin. destruct (Hopen c') as (ch' & ? & ?);
      [by apply list_elem_of_further|].
    exists ch'. split; [|done]. rewrite Hframe1; [done|by apply Hrest]. }
  exists ws'. split; [done|]. split; [|split].
  - intros a Ha. rewrite filter_cons in Ha. unfold ws1 in *.
    destruct (decide (SessionID c = sid)) as [Hs|Hs].
    + rewrite fmap_cons, not_elem_of_cons in Ha. destruct Ha as [Ha Ha'].
      rewrite Hfr by done. by apply Hframe1.
    + by rewrite Hfr.
  - intros c0 ch0 [->|Hin]%elem_of_cons Hs Hch0.
    + rewrite Hfr.
      * unfold ws1. rewrite decide_True by done.
        assert (ch0 = ch) as -> by congruence.
        destruct (Chan.full ch); simpl; by rewrite lookup_insert_eq.
      * intros Hin. apply Hc.
        apply list_elem_of_fmap in Hin as (c' & -> & Hin').
        apply list_elem_of_filter in Hin' as [_ Hin'].
        by apply list_elem_of_fmap_2.
    + apply Heff; [done..|]. rewrite Hframe1; [done|by apply Hrest].
  - intros k. destruct (Hcl' k) as [Heq|(Hnone & c' & Hin & Hid & Hs & Hfull)].
    + unfold ws1 in Heq. destruct (decide (SessionID c = sid)) as [Hs|Hs];
        [|by left].
      destruct (Chan.full ch) eqn:Hfull; simpl in Heq; [|by left].
      destruct (decide (ID c = k)) as [<-|Hne].
      * right. rewrite lookup_delete_eq in Heq. split; [done|].
        exists c. split; [apply list_elem_of_here|].
        repeat split; try done. by exists ch.
      * left. by rewrite lookup_delete_ne in Heq.
    + right. split; [done|]. exists c'.
      split; [by apply list_elem_of_further|]. repeat split; try done.
      destruct Hfull as (ch' & Hch' & ?). exists ch'. split; [|done].
      rewrite <- Hframe1; [done|by apply Hrest].
Qed.

(** In a well-formed hub the clients of the map have pairwise distinct
    queues. *)
Lemma ws_wf_NoDup ws :
  ws_wf ws → NoDup (Send <$> (map_to_list (clients ws)).*2).
Proof.
  intros [Hkey Hinj]. rewrite <- list_fmap_compose.
  apply NoDup_fmap_2_strong; [|apply NoDup_map_to_list].
  intros [k1 c1] [k2 c2] H1%elem_of_map_to_list H2%elem_of_map_to_list Heq.
  simpl in Heq. assert (k1 = k2) as -> by by eapply Hinj. congruence.
Qed.

Lemma registered_elem ws c :
  registered c ws ↔ c ∈ (map_to_list (clients ws)).*2.
Proof.
  unfold registered. split.
  - intros [k Hk]. apply list_elem_of_fmap. exists (k, c).
    split; [done|]. by apply elem_of_map_to_list.
  - intros ([k c'] & -> & Hin)%list_elem_of_fmap.
    exists k. by apply elem_of_map_to_list.
Qed.

Lemma Permutation_elem {A} (l k : list A) x : l ≡ₚ k → x ∈ l → x ∈ k.
Proof. intros Hp Hin. by rewrite <- Hp. Qed.

(** C7 for the WebSocket hub: the non-blocking [select] of [Run]. *)
Lemma ws_broadcast_one_full ws order slow sid m :
  ws_wf ws →
  order ≡ₚ (map_to_list (clients ws)).*2 →
  registered slow ws → SessionID slow = sid →
  full_at (heap ws) (Send slow) →
  (∀ c, registered c ws → SessionID c = sid → c ≠ slow →
        ¬ full_at (heap ws) (Send c)) →
  ∃ ws', Run_broadcast_in order sid m ws = Some ws'
    ∧ (∀ c, registered c ws → SessionID c = sid → c ≠ slow →
            registered c ws'
            ∧ queue c ws' = (λ q, q ++ [m]) <$> queue c ws)
    ∧ queue slow ws' = queue slow ws
    ∧ (∀ c, registered c ws → SessionID c ≠ sid →
            registered c ws' ∧ queue c ws' = queue c ws).
Proof.
  intros Hwf Hperm Hslow Hsid Hfull Hothers.
  pose proof (ws_wf_NoDup ws Hwf) as Hnd. rewrite <- Hperm in Hnd.
  assert (∀ c, c ∈ order ↔ registered c ws) as Hreg.
  { intros c. rewrite registered_elem. split; apply Permutation_elem; done. }
  destruct (Run_broadcast_in_spec sid m order ws Hnd)
    as (ws' & Hrun & Hfr & Heff & Hcl).
  { intros c [k Hk]%Hreg. by apply (proj1 Hwf k c). }
  assert (∀ c, registered c ws → (SessionID c = sid → c = slow → False) →
               registered c ws') as Hstay.
  { intros c [k Hk] Hnot. exists k.
    destruct (Hcl k) as [->|(_ & c' & Hin & Hid & Hs & Hf)]; [done|].
    apply Hreg in Hin as [k' Hk'].
    destruct (proj1 Hwf _ _ Hk) as [Hidc _].
    destruct (proj1 Hwf _ _ Hk') as [Hidc' _].
    assert (c' = c) as -> by congruence.
    destruct (decide (c = slow)) as [->|Hne]; [by destruct Hnot|].
    destruct (Hothers c); eauto. by exists k. }
  exists ws'. split; [done|]. split; [|split].
  - intros c Hc Hs Hne. split; [by apply Hstay|].
    destruct Hc as [k Hk].
    destruct (proj1 Hwf _ _ Hk) as (_ & ch & Hch & _).
    unfold queue. rewrite (Heff c ch); [|apply Hreg; by exists k|done..].
    rewrite Hch. simpl. destruct (Chan.full ch) eqn:Hf; [|done].
    destruct (Hothers c); [by exists k|done..|by exists ch].
  - destruct Hfull as (ch & Hch & Hf). unfold queue.
    rewrite (Heff slow ch); [|by apply Hreg|done..].
    by rewrite Hch, Hf.
  - intros c Hc Hs. split; [apply Hstay; [done|congruence]|].
    unfold queue. rewrite Hfr; [done|].
    intros (c' & Heq & Hin)%list_elem_of_fmap.
    apply list_elem_of_filter in Hin as [Hs' Hin].
    apply Hreg in Hin as [k' Hk']. destruct Hc as [k Hk].
    assert (k = k') as -> by by eapply (proj2 Hwf).
    congruence.
Qed.

End WebSocketHub.

(** ** The SSE hub *)

Section SSEHub.

Import SSEService.

Lemma filter_ext_elem {A} (P Q : A → Prop) `{!∀ x, Decision (P x)}
    `{!∀ x, Decision (Q x)} (l : list A) :
  (∀ x, x ∈ l → P x ↔ Q x) → filter P l = filter Q l.
Proof.
  induction l as [|a l IH]; intros Hl; [done|].
  rewrite !filter_cons.
  rewrite IH by (intros x Hx; by apply Hl, list_elem_of_further).
  destruct (decide (P a)) as [HP|HP], (decide (Q a)) as [HQ|HQ]; try done.
  - destruct HQ. by apply (Hl a); [apply list_elem_of_here|].
  - destruct HP. by apply (Hl a); [apply list_elem_of_here|].
Qed.

Lemma length_filter_unique {A} (P : A → Prop) `{!∀ x, Decision (P x)}
    (l : list A) x :
  NoDup l → x ∈ l → P x → (∀ y, y ∈ l → P y → y = x) →
  length (filter P l) = 1%nat.
Proof.
  induction l as [|a l IH]; intros Hnd Hx HP Huniq.
  { by apply elem_of_nil in Hx. }
  apply NoDup_cons in Hnd as [Ha Hnd]. rewrite filter_cons.
  apply elem_of_cons in Hx as [->|Hx].
  - rewrite decide_True by done. simpl. f_equal.
    replace (filter P l) with (@nil A); [done|]. symmetry.
    apply elem_of_nil_inv. intros y [HPy Hy]%list_elem_of_filter.
    apply Ha. rewrite <- (Huniq y); [done|by apply list_elem_of_further|done].
  - destruct (decide (P a)) as [HPa|HPa].
    + destruct Ha. rewrite (Huniq a); [done|apply list_elem_of_here|done].
    + apply IH; [done..|]. intros y Hy. by apply Huniq, list_elem_of_further.
Qed.

(** One turn of the loop of [Broadcast] on a client whose queue is open. *)
Lemma Broadcast_client_open sid m s w c ch :
  heap s !! Channel c = Some ch → Chan.closed ch = false →
  Broadcast_client sid m (s, w) c
  = Some (if decide (SessionID c = sid)
          then if Chan.full ch then (s, w + drop_timeout_ms)
               else (mk (clients s) (<[Channel c := pushed m ch]> (heap s)), w)
          else (s, w)).
Proof.
  intros Hch Hopen. unfold Broadcast_client.
  destruct (decide _); [|done].
  rewrite (try_send_open _ _ _ ch) by done.
  by destruct (Chan.full ch).
Qed.

(** The whole loop: no panic, the registry is untouched, every client of
    the session with room in its queue receives the message, and the time
    spent waiting is one timeout per client of the session whose queue was
    full. *)
Lemma Broadcast_in_spec sid m order :
  ∀ s w,
    NoDup (Channel <$> order) →
    (∀ c, c ∈ order → open_at (heap s) (Channel c)) →
    ∃ s',
      Broadcast_in order sid m (s, w)
      = Some (s', w + drop_timeout_ms
                      * Z.of_nat (length
                          (filter (λ c, SessionID c = sid
                                        ∧ not_ready (heap s) (Channel c) = true)
                                  order)))
      ∧ clients s' = clients s
      ∧ (∀ a, a ∉ Channel <$> filter (λ c, SessionID c = sid) order →
              heap s' !! a = heap s !! a)
      ∧ (∀ c ch, c ∈ order → SessionID c = sid →
                 heap s !! Channel c = Some ch →
                 heap s' !! Channel c
                 = Some (if Chan.full ch then ch else pushed m ch)).
Proof.
  induction order as [|c rest IH]; intros s w Hnd Hopen.
  { exists s. simpl. rewrite Z.mul_0_r, Z.add_0_r. repeat split; auto.
    intros ?? Hin. by apply elem_of_nil in Hin. }
  rewrite fmap_cons in Hnd. apply NoDup_cons in Hnd as [Hc Hnd].
  destruct (Hopen c) as (ch & Hch & Hcl); [apply list_elem_of_here|].
  cbn [Broadcast_in].
  rewrite (Broadcast_client_open _ _ _ _ _ ch) by done. simpl.
  assert (∀ c', c' ∈ rest → Channel c' ≠ Channel c) as Hrest.
  { intros c' Hin Heq. apply Hc. rewrite <- Heq.
    by apply list_elem_of_fmap_2. }
  rewrite filter_cons.
  destruct (decide (SessionID c = sid)) as [Hs|Hs].
  - destruct (Chan.full ch) eqn:Hfull.
    + destruct (IH s (w + drop_timeout_ms) Hnd)
        as (s' & Hrun & Hcl' & Hfr & Heff).
      { intros c' Hin. by apply Hopen, list_elem_of_further. }
      exists s'. rewrite decide_True
        by (split; [done|]; unfold not_ready; by rewrite Hch, Hcl, Hfull).
      split; [rewrite Hrun; f_equal; f_equal; simpl length; lia|].
      split; [done|]. split.
      * intros a Ha. apply Hfr.
        rewrite filter_cons, decide_True in Ha by done.
        rewrite fmap_cons, not_elem_of_cons in Ha. tauto.
      * intros c0 ch0 [->|Hin]%elem_of_cons Hs0 Hch0.
        -- assert (ch0 = ch) as -> by congruence. rewrite Hfull.
           rewrite Hfr; [done|].
           intros (c' & Heq & Hin)%list_elem_of_fmap.
           apply list_elem_of_filter in Hin as [_ Hin].
           by apply (Hrest c').
        -- by apply Heff.
    + set (s1 := mk (clients s) (<[Channel c := pushed m ch]> (heap s))).
      assert (∀ a, a ≠ Channel c → heap s1 !! a = heap s !! a) as Hframe1.
      { intros a Ha. simpl. by rewrite lookup_insert_ne. }
      destruct (IH s1 w Hnd) as (s' & Hrun & Hcl' & Hfr & Heff).
      { intros c' Hin. destruct (Hopen c') as (ch' & ? & ?);
          [by apply list_elem_of_further|].
        exists ch'. split; [|done]. rewrite Hframe1; [done|by apply Hrest]. }
      exists s'. rewrite decide_False
        by (intros [_ Hn]; unfold not_ready in Hn;
            by rewrite Hch, Hcl, Hfull in Hn).
      split.
      { rewrite Hrun. do 6 f_equal. apply filter_ext_elem.
        intros c' Hin. unfold not_ready.
        rewrite Hframe1; [done|by apply Hrest]. }
      split; [done|]. split.
      * intros a Ha. rewrite filter_cons, decide_True in Ha by done.
        rewrite fmap_cons, not_elem_of_cons in Ha.
        destruct Ha as [Ha Ha']. rewrite Hfr by done. by apply Hframe1.
      * intros c0 ch0 [->|Hin]%elem_of_cons Hs0 Hch0.
        -- assert (ch0 = ch) as -> by congruence. rewrite Hfull.
           rewrite Hfr; [simpl; by rewrite lookup_insert_eq|].
           intros (c' & Heq & Hin)%list_elem_of_fmap.
           apply list_elem_of_filter in Hin as [_ Hin].
           by apply (Hrest c').
        -- apply Heff; [done..|]. rewrite Hframe1; [done|by apply Hrest].
  - destruct (IH s w Hnd) as (s' & Hrun & Hcl' & Hfr & Heff).
    { intros c' Hin. by apply Hopen, list_elem_of_further. }
    exists s'. rewrite decide_False by tauto.
    split; [done|]. split; [done|]. split.
    { intros a Ha. rewrite filter_cons, decide_False in Ha by done.
      by apply Hfr. }
    intros c0 ch0 [->|Hin]%elem_of_cons Hs0 Hch0; [done|]. by apply Heff.
Qed.

Lemma sse_wf_NoDup s :
  sse_wf s → NoDup (Channel <$> (map_to_list (clients s)).*2).
Proof.
  intros [Hkey Hinj]. rewrite <- list_fmap_compose.
  apply NoDup_fmap_2_strong; [|apply NoDup_map_to_list].
  intros [k1 c1] [k2 c2] H1%elem_of_map_to_list H2%elem_of_map_to_list Heq.
  simpl in Heq. assert (k1 = k2) as -> by by eapply Hinj. congruence.
Qed.

Lemma sse_registered_elem s c :
  registered c s ↔ c ∈ (map_to_list (clients s)).*2.
Proof.
  unfold registered. split.
  - intros [k Hk]. apply list_elem_of_fmap. exists (k, c).
    split; [done|]. by apply elem_of_map_to_list.
  - intros ([k c'] & -> & Hin)%list_elem_of_fmap.
    exists k. by apply elem_of_map_to_list.
Qed.

(** C7 for the SSE hub: the [select] with the 100 ms timeout. *)
Lemma sse_broadcast_one_full s order slow sid m :
  sse_wf s →
  order ≡ₚ (map_to_list (clients s)).*2 →
  registered slow s → SessionID slow = sid →
  full_at (heap s) (Channel slow) →
  (∀ c, registered c s → SessionID c = sid → c ≠ slow →
        ¬ full_at (heap s) (Channel c)) →
  ∃ s', Broadcast_in order sid m (s, 0) = Some (s', drop_timeout_ms)
    ∧ clients s' = clients s
    ∧ (∀ c, registered c s → SessionID c = sid → c ≠ slow →
            queue c s' = (λ q, q ++ [m]) <$> queue c s)
    ∧ queue slow s' = queue slow s
    ∧ (∀ c, registered c s → SessionID c ≠ sid → queue c s' = queue c s).
Proof.
  intros Hwf Hperm Hslow Hsid Hfull Hothers.
  pose proof (sse_wf_NoDup s Hwf) as Hnd. rewrite <- Hperm in Hnd.
  assert (∀ c, c ∈ order ↔ registered c s) as Hreg.
  { intros c. rewrite sse_registered_elem.
    split; apply Permutation_elem; done. }
  destruct (Broadcast_in_spec sid m order s 0 Hnd)
    as (s' & Hrun & Hcl & Hfr & Heff).
  { intros c [k Hk]%Hreg. by apply (proj1 Hwf k c). }
  exists s'. split.
  { rewrite Hrun. do 2 f_equal.
    rewrite (length_filter_unique _ order slow).
    - unfold drop_timeout_ms. lia.
    - by apply NoDup_fmap_1 in Hnd.
    - by apply Hreg.
    - split; [done|]. destruct Hslow as [k Hk].
      destruct (proj1 Hwf _ _ Hk) as (_ & ch & Hch & Hopen).
      destruct Hfull as (ch' & Hch' & Hf).
      assert (ch' = ch) as -> by congruence.
      unfold not_ready. by rewrite Hch, Hopen, Hf.
    - intros c [k Hk]%Hreg [Hs Hnr].
      destruct (decide (c = slow)) as [|Hne]; [done|].
      destruct (Hothers c); [by exists k|done..|].
      destruct (proj1 Hwf _ _ Hk) as (_ & ch & Hch & Hopen).
      exists ch. split; [done|].
      unfold not_ready in Hnr. by rewrite Hch, Hopen in Hnr. }
  split; [done|]. split; [|split].
  - intros c [k Hk] Hs Hne.
    destruct (proj1 Hwf _ _ Hk) as (_ & ch & Hch & _).
    unfold queue. rewrite (Heff c ch); [|apply Hreg; by exists k|done..].
    rewrite Hch. simpl. destruct (Chan.full ch) eqn:Hf; [|done].
    destruct (Hothers c); [by exists k|done..|by exists ch].
  - destruct Hfull as (ch & Hch & Hf). unfold queue.
    rewrite (Heff slow ch); [|by apply Hreg|done..].
    by rewrite Hch, Hf.
  - intros c Hc Hs. unfold queue. rewrite Hfr; [done|].
    intros (c' & Heq & Hin)%list_elem_of_fmap.
    apply list_elem_of_filter in Hin as [Hs' Hin].
    apply Hreg in Hin as [k' Hk']. destruct Hc as [k Hk].
    assert (k = k') as -> by by eapply (proj2 Hwf).
    congruence.
Qed.

End SSEHub.

(** ** Registration and removal *)

Section Registry.

Lemma make_chan_fresh n (h : Heap) : h !! (make_chan n h).1 = None.
Proof. simpl. apply not_elem_of_dom, is_fresh. Qed.

Lemma HandleWebSocket_eq sid uid ws :
  WSService.HandleWebSocket sid uid ws
  = (WSService.mkWSClient (sid +:+ "_" +:+ uid) sid uid
       (make_chan 256 (WSService.heap ws)).1,
     WSService.mk
       (<[sid +:+ "_" +:+ uid :=
            WSService.mkWSClient (sid +:+ "_" +:+ uid) sid uid
              (make_chan 256 (WSService.heap ws)).1]>
          (WSService.clients ws))
       (<[(make_chan 256 (WSService.heap ws)).1 := Chan.mk [] 256 false]>
          (WSService.heap ws))).
Proof. done. Qed.

Lemma HandleWebSocket_clients_ne sid uid ws k :
  k ≠ sid +:+ "_" +:+ uid →
  WSService.clients (WSService.HandleWebSocket sid uid ws).2 !! k
  = WSService.clients ws !! k.
Proof.
  intros Hne. rewrite HandleWebSocket_eq. simpl. by rewrite lookup_insert_ne.
Qed.

(** [HandleWebSocket] keeps the hub well-formed. *)
Lemma ws_wf_HandleWebSocket sid uid ws :
  ws_wf ws → ws_wf (WSService.HandleWebSocket sid uid ws).2.
Proof.
  intros [Hkey Hinj]. rewrite HandleWebSocket_eq. simpl.
  pose proof (make_chan_fresh 256 (WSService.heap ws)) as Hfresh.
  set (a := (make_chan 256 (WSService.heap ws)).1) in *.
  set (id := sid +:+ "_" +:+ uid).
  assert (∀ k c, WSService.clients ws !! k = Some c → WSService.Send c ≠ a)
    as Hold.
  { intros k c Hk Heq. destruct (Hkey k c Hk) as (_ & ch & Hch & _).
    rewrite Heq in Hch. congruence. }
  split.
  - intros k c. simpl. destruct (decide (id = k)) as [<-|Hne].
    + rewrite lookup_insert_eq. intros [= <-]. simpl. split; [done|].
      eexists. by rewrite lookup_insert_eq.
    + rewrite lookup_insert_ne by done. intros Hk.
      destruct (Hkey k c Hk) as (? & ch & Hch & ?). split; [done|].
      exists ch. split; [|done]. rewrite lookup_insert_ne; [done|].
      intros Heq. by apply (Hold k c).
  - intros k1 k2 c1 c2. simpl.
    destruct (decide (id = k1)) as [<-|Hne1],
             (decide (id = k2)) as [<-|Hne2]; [done|..].
    + rewrite lookup_insert_eq, lookup_insert_ne by done.
      intros [= <-] Hk2 Heq. simpl in Heq. by destruct (Hold k2 c2).
    + rewrite lookup_insert_eq, lookup_insert_ne by done.
      intros Hk1 [= <-] Heq. simpl in Heq. by destruct (Hold k1 c1).
    + rewrite !lookup_insert_ne by done. apply Hinj.
Qed.

(** C3, as the WebSocket hub has it. Two connections of one user to one
    session get the same client id: the second registration takes the
    place of the first in the map, so that only the second connection is
    registered, and a broadcast to the session puts one copy of the message
    on the queue of the second connection and nothing on the queue of the
    first. *)
Theorem second_connection_replaces_first ws sid uid m order :
  ws_wf ws →
  order ≡ₚ (map_to_list
              (WSService.clients
                 (WSService.HandleWebSocket sid uid
                    (WSService.HandleWebSocket sid uid ws).2).2)).*2 →
  let r1 := WSService.HandleWebSocket sid uid ws in
  let r2 := WSService.HandleWebSocket sid uid r1.2 in
  r1.1 ≠ r2.1
  ∧ WSService.ID r1.1 = WSService.ID r2.1
  ∧ WSService.registered r2.1 r2.2
  ∧ ¬ WSService.registered r1.1 r2.2
  ∧ ∃ ws3, WSService.Run_broadcast_in order sid m r2.2 = Some ws3
           ∧ WSService.queue r2.1 ws3 = Some [m]
           ∧ WSService.queue r1.1 ws3 = Some [].
Proof.
  intros Hwf Hperm r1 r2.
  pose proof (ws_wf_HandleWebSocket sid uid ws Hwf) as Hwf1.
  pose proof (ws_wf_HandleWebSocket sid uid r1.2 Hwf1) as Hwf2.
  fold r1 r2 in Hperm, Hwf1, Hwf2.
  assert (WSService.heap ws !! WSService.Send r1.1 = None) as Hf1
    by apply (make_chan_fresh 256 (WSService.heap ws)).
  pose proof (make_chan_fresh 256 (WSService.heap r1.2)) as Hf2.
  assert (WSService.Send r1.1 = (make_chan 256 (WSService.heap ws)).1)
    as Ha1 by done.
  assert (WSService.Send r2.1 = (make_chan 256 (WSService.heap r1.2)).1)
    as Ha2 by done.
  assert (WSService.heap r1.2 !! WSService.Send r1.1
          = Some (Chan.mk [] 256 false)) as Hh1.
  { unfold r1. rewrite HandleWebSocket_eq. simpl. by rewrite lookup_insert_eq. }
  assert (WSService.Send r1.1 ≠ WSService.Send r2.1) as Hne.
  { intros Heq. rewrite <- Ha2, <- Heq in Hf2. congruence. }
  assert (WSService.heap r2.2 !! WSService.Send r2.1
          = Some (Chan.mk [] 256 false)) as Hh2.
  { unfold r2. rewrite HandleWebSocket_eq. simpl. by rewrite lookup_insert_eq. }
  assert (WSService.heap r2.2 !! WSService.Send r1.1
          = Some (Chan.mk [] 256 false)) as Hh21.
  { rewrite <- Hh1. unfold r2. rewrite (HandleWebSocket_eq sid uid r1.2).
    simpl. rewrite lookup_insert_ne; [done|]. intros Heq. by apply Hne. }
  assert (WSService.clients r2.2 !! (sid +:+ "_" +:+ uid) = Some r2.1)
    as Hreg2.
  { unfold r2. rewrite (HandleWebSocket_eq sid uid r1.2). simpl.
    by rewrite lookup_insert_eq. }
  assert (¬ WSService.registered r1.1 r2.2) as Hnot.
  { intros [k Hk]. destruct (decide (k = sid +:+ "_" +:+ uid)) as [->|Hk'].
    - assert (r2.1 = r1.1) as Heq by congruence. apply Hne. by rewrite Heq.
    - unfold r2 in Hk. rewrite HandleWebSocket_clients_ne in Hk by done.
      change (WSService.clients (WSService.HandleWebSocket sid uid ws).2 !! k
              = Some r1.1) in Hk.
      rewrite HandleWebSocket_clients_ne in Hk by done.
      destruct (proj1 Hwf _ _ Hk) as (_ & ch & Hch & _). congruence. }
  split; [intros Heq; apply Hne; by rewrite Heq|]. split; [done|].
  split; [by eexists|]. split; [done|].
  pose proof (ws_wf_NoDup _ Hwf2) as Hnd. rewrite <- Hperm in Hnd.
  assert (∀ c, c ∈ order ↔ WSService.registered c r2.2) as Hin.
  { intros c. rewrite registered_elem.
    split; apply Permutation_elem; done. }
  destruct (Run_broadcast_in_spec sid m order r2.2 Hnd)
    as (ws3 & Hrun & Hfr & Heff & _).
  { intros c [k Hk]%Hin. by apply (proj1 Hwf2 k c). }
  exists ws3. split; [done|]. unfold WSService.queue. split.
  - rewrite (Heff r2.1 (Chan.mk [] 256 false)); [done|..|done].
    + apply Hin. by eexists.
    + done.
  - rewrite Hfr, Hh21; [done|].
    intros (c & Heq & Hc)%list_elem_of_fmap.
    apply list_elem_of_filter in Hc as [_ Hc]. apply Hin in Hc.
    destruct Hc as [k Hk].
    destruct (decide (k = sid +:+ "_" +:+ uid)) as [->|Hk'].
    + assert (c = r2.1) as -> by congruence. by apply Hne.
    + unfold r2, r1 in Hk.
      rewrite !HandleWebSocket_clients_ne in Hk by done.
      destruct (proj1 Hwf _ _ Hk) as (_ & ch & Hch & _).
      rewrite <- Heq in Hch. congruence.
Qed.

(** C7. A broadcast to a session one of whose registered connections has
    a full queue, in the WebSocket hub and in the SSE hub, for every order
    in which the map is visited: the call goes through, every other
    connection of the session gets the message appended to its queue, the
    full queue is left without it, and the connections of other sessions
    are untouched.  The WebSocket hub drops at once; the SSE hub waits
    for one drop timeout. *)
Theorem broadcast_skips_only_the_full_queue
    (ws : WSService.t) (worder : list WSService.WSClient)
    (wslow : WSService.WSClient)
    (sse : SSEService.t) (sorder : list SSEService.SSEClient)
    (sslow : SSEService.SSEClient) (sid : string) (m : SSEMessage.t) :
  ws_one_full ws wslow sid →
  worder ≡ₚ (map_to_list (WSService.clients ws)).*2 →
  sse_one_full sse sslow sid →
  sorder ≡ₚ (map_to_list (SSEService.clients sse)).*2 →
  ws_dropped_for_one ws worder wslow sid m
  ∧ sse_dropped_for_one sse sorder sslow sid m.
Proof.
  intros (? & ? & ? & ? & ?) ? (? & ? & ? & ? & ?) ?. split.
  - by apply ws_broadcast_one_full.
  - by apply sse_broadcast_one_full.
Qed.

(** C8. Removing a client id that the registry does not hold changes
    nothing and raises no error, in the SSE hub ([RemoveClient]) and in the
    WebSocket hub (the [unregister] case of [Run]); a removal that went
    through leaves every other id as it was, and repeating it is such a
    no-op. *)
Theorem removal_is_idempotent (sse : SSEService.t) (id : string)
    (ws : WSService.t) (client : WSService.WSClient) :
  (SSEService.clients sse !! id = None →
   SSEService.RemoveClient id sse = Some sse)
  ∧ (∀ sse', SSEService.RemoveClient id sse = Some sse' →
       SSEService.RemoveClient id sse' = Some sse'
       ∧ ∀ id', id' ≠ id →
           SSEService.clients sse' !! id' = SSEService.clients sse !! id')
  ∧ (WSService.clients ws !! WSService.ID client = None →
     WSService.Run_unregister client ws = Some ws)
  ∧ (∀ ws', WSService.Run_unregister client ws = Some ws' →
       WSService.Run_unregister client ws' = Some ws'
       ∧ ∀ id', id' ≠ WSService.ID client →
           WSService.clients ws' !! id' = WSService.clients ws !! id').
Proof.
  split; [|split; [|split]].
  - intros Hnone. unfold SSEService.RemoveClient. by rewrite Hnone.
  - intros sse'. unfold SSEService.RemoveClient.
    destruct (SSEService.clients sse !! id) as [c|] eqn:Hc.
    + destruct (close_chan _ _) as [h|]; [|done]. simpl. intros [= <-].
      simpl. rewrite lookup_delete_eq. split; [done|].
      intros id' Hne. by rewrite lookup_delete_ne.
    + intros [= <-]. by rewrite Hc.
  - intros Hnone. unfold WSService.Run_unregister. by rewrite Hnone.
  - intros ws'. unfold WSService.Run_unregister.
    destruct (WSService.clients ws !! WSService.ID client) as [c|] eqn:Hc.
    + destruct (close_chan _ _) as [h|]; [|done]. simpl. intros [= <-].
      simpl. rewrite lookup_delete_eq. split; [done|].
      intros id' Hne. by rewrite lookup_delete_ne.
    + intros [= <-]. by rewrite Hc.
Qed.

End Registry.

(** ** Soundness of the executable checks *)

Section Checks.

Lemma is_open_sound h a : is_open h a = true → open_at h a.
Proof.
  unfold is_open, open_at. destruct (h !! a) as [c|]; [|done].
  intros Hc. exists c. split; [done|]. by destruct (Chan.closed c).
Qed.

Lemma is_full_iff h a : is_full h a = true ↔ full_at h a.
Proof.
  unfold is_full, full_at. destruct (h !! a) as [c|].
  - split; [by exists c|]. intros (c' & [= <-] & ?). done.
  - split; [done|]. by intros (c' & ? & ?).
Qed.

Lemma NoDup_fmap_elem_inj {A B} (f : A → B) (l : list A) x y :
  NoDup (f <$> l) → x ∈ l → y ∈ l → f x = f y → x = y.
Proof.
  induction l as [|a l IH]; intros Hnd Hx Hy Heq.
  { by apply elem_of_nil in Hx. }
  rewrite fmap_cons in Hnd. apply NoDup_cons in Hnd as [Ha Hnd].
  apply elem_of_cons in Hx as [->|Hx], Hy as [->|Hy]; [done|..].
  - destruct Ha. rewrite Heq. by apply list_elem_of_fmap_2.
  - destruct Ha. rewrite <- Heq. by apply list_elem_of_fmap_2.
  - by apply IH.
Qed.

Lemma ws_wf_check_sound ws : ws_wf_check ws = true → ws_wf ws.
Proof.
  intros [H1 H2]%andb_true_iff. rewrite forallb_forall in H1.
  apply bool_decide_eq_true in H2. split.
  - intros k c Hk. apply elem_of_map_to_list, list_elem_of_In in Hk.
    apply H1 in Hk. simpl in Hk. apply andb_true_iff in Hk as [Hid Hop].
    apply bool_decide_eq_true in Hid. split; [done|]. by apply is_open_sound.
  - intros k1 k2 c1 c2 Hk1%elem_of_map_to_list Hk2%elem_of_map_to_list Heq.
    rewrite <- list_fmap_compose in H2.
    by pose proof (NoDup_fmap_elem_inj _ _ (k1, c1) (k2, c2) H2 Hk1 Hk2 Heq)
      as [= -> _].
Qed.

Lemma ws_one_full_check_sound ws slow sid :
  ws_one_full_check ws slow sid = true → ws_one_full ws slow sid.
Proof.
  unfold ws_one_full_check. rewrite !andb_true_iff.
  intros ((((Hwf & Hreg) & Hsid) & Hfull) & Hothers).
  apply bool_decide_eq_true in Hreg, Hsid. rewrite forallb_forall in Hothers.
  split; [by apply ws_wf_check_sound|]. split; [by eexists|].
  split; [done|]. split; [by apply is_full_iff|].
  intros c [k Hk] Hs Hne Hf.
  apply elem_of_map_to_list, list_elem_of_In in Hk.
  apply Hothers in Hk. simpl in Hk. apply is_full_iff in Hf.
  rewrite Hf in Hk. rewrite !orb_true_iff in Hk.
  destruct Hk as [[Hk|Hk]|Hk]; [| |done]; by apply bool_decide_eq_true in Hk.
Qed.

Lemma sse_wf_check_sound s : sse_wf_check s = true → sse_wf s.
Proof.
  intros [H1 H2]%andb_true_iff. rewrite forallb_forall in H1.
  apply bool_decide_eq_true in H2. split.
  - intros k c Hk. apply elem_of_map_to_list, list_elem_of_In in Hk.
    apply H1 in Hk. simpl in Hk. apply andb_true_iff in Hk as [Hid Hop].
    apply bool_decide_eq_true in Hid. split; [done|]. by apply is_open_sound.
  - intros k1 k2 c1 c2 Hk1%elem_of_map_to_list Hk2%elem_of_map_to_list Heq.
    rewrite <- list_fmap_compose in H2.
    by pose proof (NoDup_fmap_elem_inj _ _ (k1, c1) (k2, c2) H2 Hk1 Hk2 Heq)
      as [= -> _].
Qed.

Lemma sse_one_full_check_sound s slow sid :
  sse_one_full_check s slow sid = true → sse_one_full s slow sid.
Proof.
  unfold sse_one_full_check. rewrite !andb_true_iff.
  intros ((((Hwf & Hreg) & Hsid) & Hfull) & Hothers).
  apply bool_decide_eq_true in Hreg, Hsid. rewrite forallb_forall in Hothers.
  split; [by apply sse_wf_check_sound|]. split; [by eexists|].
  split; [done|]. split; [by apply is_full_iff|].
  intros c [k Hk] Hs Hne Hf.
  apply elem_of_map_to_list, list_elem_of_In in Hk.
  apply Hothers in Hk. simpl in Hk. apply is_full_iff in Hf.
  rewrite Hf in Hk. rewrite !orb_true_iff in Hk.
  destruct Hk as [[Hk|Hk]|Hk]; [| |done]; by apply bool_decide_eq_true in Hk.
Qed.

Lemma rows_inv_check_sound db :
  rows_inv_check db = true → voting_implies_ticket db.
Proof.
  intros Hc. apply rows_inv_iff. unfold rows_inv_check in Hc.
  rewrite forallb_forall in Hc. intros sid row Hrow Hact.
  apply elem_of_map_to_list, list_elem_of_In in Hrow.
  apply Hc in Hrow. simpl in Hrow. rewrite Hact in Hrow. simpl in Hrow.
  destruct (s_current_ticket_id row) as [c|]; [|done].
  destruct (tickets db !! c) as [trow|] eqn:Ht; [|done].
  apply bool_decide_eq_true in Hrow. by exists c, trow.
Qed.

End Checks.

(** ** The theorems at the sample data *)

(** C1: the owner deletes the sample session while the database refuses
    the deletion.  The session-ended message has been broadcast all the
    same, the response is a 500 and the session is still there. *)
Lemma session_ended_sent_though_delete_failed :
  let res := @serve plain_GoStd sample_db
               (mkRequest (Some alice) "s1" OpDeleteSession 20
                  (fault_on KDeleteSession)) in
  ¬ no_emit_on_failure res
  ∧ effects res
    = [Storage KGetSessionByID true;
       Broadcast "s1"
         (SSEMessage.mk "session-ended"
            (DataSessionEnded "Session has been ended by the owner"));
       Storage KDeleteSession false]
  ∧ outcome res = Response 500 "Failed to delete session"
  ∧ db_after res = sample_db.
Proof.
  assert (effects (@serve plain_GoStd sample_db
                     (mkRequest (Some alice) "s1" OpDeleteSession 20
                        (fault_on KDeleteSession)))
          = [Storage KGetSessionByID true;
             Broadcast "s1"
               (SSEMessage.mk "session-ended"
                  (DataSessionEnded "Session has been ended by the owner"));
             Storage KDeleteSession false]) as Heff
    by (vm_compute; reflexivity).
  cbv zeta. split; [|split; [exact Heff|split; vm_compute; reflexivity]].
  unfold no_emit_on_failure, storage_failed. rewrite Heff. intros Hno.
  assert (events
            [Storage KGetSessionByID true;
             Broadcast "s1"
               (SSEMessage.mk "session-ended"
                  (DataSessionEnded "Session has been ended by the owner"));
             Storage KDeleteSession false] = []) as Hev.
  { apply Hno. exists KDeleteSession.
    apply list_elem_of_further, list_elem_of_further, list_elem_of_here. }
  discriminate Hev.
Qed.

(** C2: alice has selected the first ticket and voting has never been
    started, which is the Selected phase; bob's vote is accepted. *)
Lemma vote_accepted_in_selected_state :
  spec_phase (@started_since_selection plain_GoStd "s1" sample_db
           [request alice (OpSelectTicket "1") 10] false)
    <$> SessionService.GetSessionByID selected_db "s1"
  = Some Selected
  ∧ vote_accepted
      (@serve plain_GoStd selected_db (request bob (OpSubmitVote "5") 11)).
Proof. split; vm_compute; reflexivity. Qed.

Lemma vote_accepted_iff_current_ticket_witness :
  (vote_accepted
     (@serve plain_GoStd selected_db (request bob (OpSubmitVote "5") 11))
   ↔ spec_phase false
       (Session.mk "s1" "sprint 12" "u-alice" (Some 1) false 0 10
          (SessionService.getSessionTickets selected_db "s1")
          (SessionService.resolve_current (Some 1)
             (SessionService.getSessionTickets selected_db "s1")))
     ≠ Idle)
  ∧ (spec_phase false
       (Session.mk "s1" "sprint 12" "u-alice" (Some 1) false 0 10
          (SessionService.getSessionTickets selected_db "s1")
          (SessionService.resolve_current (Some 1)
             (SessionService.getSessionTickets selected_db "s1")))
     = Idle →
     outcome
       (@serve plain_GoStd selected_db (request bob (OpSubmitVote "5") 11))
     = Response 400 "No active ticket"
     ∧ db_after
         (@serve plain_GoStd selected_db (request bob (OpSubmitVote "5") 11))
       = selected_db
     ∧ events
         (effects
            (@serve plain_GoStd selected_db
               (request bob (OpSubmitVote "5") 11)))
       = []).
Proof.
  apply (@vote_accepted_iff_current_ticket plain_GoStd selected_db
           (request bob (OpSubmitVote "5") 11) "5" bob).
  - reflexivity.
  - reflexivity.
  - eexists. vm_compute. reflexivity.
  - split; vm_compute; reflexivity.
  - vm_compute. reflexivity.
  - reflexivity.
Defined.

(** C4: bob, who does not own the sample session, tries to start voting. *)
Lemma non_owner_is_rejected_witness :
  db_after (@serve plain_GoStd selected_db (request bob OpStartVoting 11))
  = selected_db
  ∧ events
      (effects
         (@serve plain_GoStd selected_db (request bob OpStartVoting 11)))
    = []
  ∧ outcome (@serve plain_GoStd selected_db (request bob OpStartVoting 11))
    ≠ Panicked
  ∧ (fails (request bob OpStartVoting 11) KGetSessionByID = false →
     rejected
       (outcome
          (@serve plain_GoStd selected_db (request bob OpStartVoting 11)))).
Proof.
  eapply (@non_owner_is_rejected plain_GoStd selected_db
            (request bob OpStartVoting 11) bob).
  - reflexivity.
  - reflexivity.
  - vm_compute. reflexivity.
  - vm_compute. discriminate.
Defined.

(** C5: the round of the sample votes on the first ticket. *)
Lemma voting_round_reports_latest_votes_witness :
  let db1 :=
    db_after (@serve plain_GoStd selected_db
                (mkRequest (Some alice) "s1" OpStartVoting 11 no_faults)) in
  let db2 := @run plain_GoStd db1 (vote_request "s1" <$> sample_votes) in
  let res :=
    @serve plain_GoStd db2
      (mkRequest (Some alice) "s1" OpEndVoting 15 no_faults) in
  VotingService.GetVotesForTicket db1 1 = []
  ∧ ∃ cur' votes,
      events (effects res)
      = [("s1", SSEMessage.mk "voting-ended"
                  (DataVotingEnded (Some cur') votes))]
      ∧ Ticket.ID cur' = 1
      ∧ NoDup (Vote.UserID <$> votes)
      ∧ ∀ u v, (∃ vote, vote ∈ votes ∧ Vote.UserID vote = u
                        ∧ Vote.VoteValue vote = v)
               ↔ @latest_vote plain_GoStd sample_votes u = Some v.
Proof.
  eapply (@voting_round_reports_latest_votes plain_GoStd selected_db "s1"
            alice _ (Ticket.mk 1 "s1" "login page" "" None 1 0 [])
            sample_votes 11 15).
  - vm_compute. reflexivity.
  - reflexivity.
  - reflexivity.
  - intros sub Hsub.
    repeat (apply elem_of_cons in Hsub; destruct Hsub as [->|Hsub]).
    4: by apply elem_of_nil in Hsub.
    all: split; [eexists; vm_compute; reflexivity
                |split; vm_compute; reflexivity].
Defined.

(** The voting-started message is sent after the votes have been cleared,
    but its payload is the ticket as it was loaded at the start of the
    request: restarting the round of the sample votes, the message still
    lists the votes that the tables no longer hold. *)
Lemma voting_started_payload_is_the_loaded_ticket :
  let db2 := @run plain_GoStd voting_db (vote_request "s1" <$> sample_votes) in
  let res := @serve plain_GoStd db2 (request alice OpStartVoting 16) in
  VotingService.GetVotesForTicket (db_after res) 1 = []
  ∧ ∃ t, events (effects res)
         = [("s1", SSEMessage.mk "voting-started" (DataTicket (Some t)))]
         ∧ Vote.VoteValue <$> Ticket.Votes t = ["8"; "13"].
Proof.
  cbv zeta. split; [vm_compute; reflexivity|].
  eexists. split; vm_compute; reflexivity.
Qed.

(** C6: alice ends voting on the sample session, which has no current
    ticket. *)
Lemma EndVoting_without_ticket_panics_witness :
  outcome (@serve plain_GoStd sample_db (request alice OpEndVoting 11))
  = Panicked
  ∧ effects (@serve plain_GoStd sample_db (request alice OpEndVoting 11))
    = [Storage KGetSessionByID true; Storage KUpdateSession true]
  ∧ db_after (@serve plain_GoStd sample_db (request alice OpEndVoting 11))
    = (SessionService.UpdateSession 11
         (Session.set_IsVotingActive false
            (Session.mk "s1" "sprint 12" "u-alice" None false 0 0
               (SessionService.getSessionTickets sample_db "s1") None))
         sample_db).2.
Proof.
  apply (@EndVoting_without_ticket_panics plain_GoStd sample_db
           (request alice OpEndVoting 11) alice).
  - reflexivity.
  - reflexivity.
  - vm_compute. reflexivity.
  - reflexivity.
  - reflexivity.
  - reflexivity.
  - reflexivity.
Defined.

(** The write that precedes the panic is visible in the session row. *)
Lemma EndVoting_without_ticket_touches_the_row :
  sessions
    (db_after (@serve plain_GoStd sample_db (request alice OpEndVoting 11)))
    !! "s1"
  = Some (mkSessionRow "sprint 12" "u-alice" None false 0 11)
  ∧ sessions sample_db !! "s1"
    = Some (mkSessionRow "sprint 12" "u-alice" None false 0 0)
  ∧ RecoverFromPanic
      (outcome (@serve plain_GoStd sample_db (request alice OpEndVoting 11)))
    = Response 500 "An unexpected error occurred".
Proof. repeat split; vm_compute; reflexivity. Qed.

(** C9: from the sample session with voting under way, through a delete
    of the current ticket, an advance and an end-voting. *)
Lemma voting_active_implies_current_ticket_witness :
  voting_implies_ticket
    (@run plain_GoStd voting_db
       [request alice (OpDeleteTicket "1") 12; request alice OpNextTicket 13;
        request alice OpStartVoting 14; request alice OpEndVoting 15]).
Proof.
  apply (@voting_active_implies_current_ticket plain_GoStd voting_db).
  apply rows_inv_check_sound. vm_compute. reflexivity.
Defined.

(** C10: alice advances from the second, last ticket of the sample
    session. *)
Lemma NextTicket_at_end_clears_current_witness :
  let db := @run plain_GoStd sample_db
              [request alice (OpSelectTicket "2") 10] in
  let r := request alice OpNextTicket 11 in
  (∃ row, sessions (db_after (@serve plain_GoStd db r)) !! "s1" = Some row
          ∧ s_current_ticket_id row = None
          ∧ s_is_voting_active row = false)
  ∧ events (effects (@serve plain_GoStd db r))
    = [("s1", SSEMessage.mk "ticket-changed" (DataTicket None))]
  ∧ outcome (@serve plain_GoStd db r) = Response 303 "/session/s1".
Proof.
  eapply (@NextTicket_at_end_clears_current plain_GoStd
            (@run plain_GoStd sample_db
               [request alice (OpSelectTicket "2") 10])
            (request alice OpNextTicket 11) alice).
  - reflexivity.
  - reflexivity.
  - vm_compute. reflexivity.
  - reflexivity.
  - reflexivity.
  - reflexivity.
  - right. eexists [_], _. split; vm_compute; reflexivity.
Defined.

(** C3: bob opens two tabs on the sample session.  One registration is
    left, that of the second tab, and a broadcast reaches the second
    queue only. *)
Lemma two_tabs_one_registration :
  let r1 := WSService.HandleWebSocket "s1" "u-bob" WSService.NewWSService in
  let r2 := WSService.HandleWebSocket "s1" "u-bob" r1.2 in
  r1.1 ≠ r2.1
  ∧ WSService.GetClientCount "s1" r2.2 = 1%nat
  ∧ ¬ (WSService.registered r1.1 r2.2 ∧ WSService.registered r2.1 r2.2)
  ∧ ∃ ws3, WSService.Run_broadcast "s1" sample_msg r2.2 = Some ws3
           ∧ WSService.queue r1.1 ws3 = Some []
           ∧ WSService.queue r2.1 ws3 = Some [sample_msg].
Proof.
  cbv zeta. split; [vm_compute; discriminate|].
  split; [vm_compute; reflexivity|]. split.
  - intros [[k Hk] _]. apply elem_of_map_to_list in Hk.
    vm_compute in Hk. apply list_elem_of_singleton in Hk. discriminate Hk.
  - eexists. split; [vm_compute; reflexivity|].
    split; vm_compute; reflexivity.
Qed.

Lemma second_connection_replaces_first_witness :
  let r1 := WSService.HandleWebSocket "s1" "u-bob" WSService.NewWSService in
  let r2 := WSService.HandleWebSocket "s1" "u-bob" r1.2 in
  r1.1 ≠ r2.1
  ∧ WSService.ID r1.1 = WSService.ID r2.1
  ∧ WSService.registered r2.1 r2.2
  ∧ ¬ WSService.registered r1.1 r2.2
  ∧ ∃ ws3,
      WSService.Run_broadcast_in
        (map_to_list (WSService.clients r2.2)).*2 "s1" sample_msg r2.2
      = Some ws3
      ∧ WSService.queue r2.1 ws3 = Some [sample_msg]
      ∧ WSService.queue r1.1 ws3 = Some [].
Proof.
  apply (second_connection_replaces_first WSService.NewWSService "s1"
           "u-bob" sample_msg).
  - apply ws_wf_check_sound. vm_compute. reflexivity.
  - reflexivity.
Defined.

(** The SSE hub gives every connection an id of its own: two tabs of bob,
    opened at different instants, are both registered and a broadcast
    reaches both queues. *)
Lemma sse_two_tabs_both_served :
  let r1 := SSEService.AddClient "s1" "u-bob" 1001 SSEService.NewSSEService in
  let r2 := SSEService.AddClient "s1" "u-bob" 1002 r1.2 in
  SSEService.GetClientCount "s1" r2.2 = 2%nat
  ∧ ∃ s3, SSEService.Broadcast "s1" sample_msg r2.2 = Some (s3, 0)
          ∧ SSEService.queue r1.1 s3 = Some [sample_msg]
          ∧ SSEService.queue r2.1 s3 = Some [sample_msg].
Proof.
  cbv zeta. split; [vm_compute; reflexivity|].
  eexists. split; [vm_compute; reflexivity|]. split; vm_compute; reflexivity.
Qed.

(** In the WebSocket hub the replaced connection still carries the shared
    id: when its read pump ends, its [unregister] removes the registration
    of the second tab. *)
Lemma closing_first_tab_unregisters_second :
  let r1 := WSService.HandleWebSocket "s1" "u-bob" WSService.NewWSService in
  let r2 := WSService.HandleWebSocket "s1" "u-bob" r1.2 in
  ∃ ws3, WSService.Run_unregister r1.1 r2.2 = Some ws3
         ∧ WSService.GetClientCount "s1" ws3 = 0%nat
         ∧ Chan.closed <$> WSService.heap ws3 !! WSService.Send r2.1
           = Some false.
Proof.
  cbv zeta. eexists. split; [vm_compute; reflexivity|].
  split; vm_compute; reflexivity.
Qed.

(** C7: a broadcast to the sample session in the two sample hubs, where
    bob's queue is full. *)
Lemma broadcast_skips_only_the_full_queue_witness :
  ws_dropped_for_one sample_ws
    (map_to_list (WSService.clients sample_ws)).*2 ws_bob "s1" sample_msg
  ∧ sse_dropped_for_one sample_sse
      (map_to_list (SSEService.clients sample_sse)).*2 sse_bob "s1"
      sample_msg.
Proof.
  apply broadcast_skips_only_the_full_queue.
  - apply ws_one_full_check_sound. vm_compute. reflexivity.
  - reflexivity.
  - apply sse_one_full_check_sound. vm_compute. reflexivity.
  - reflexivity.
Defined.

(** What the two hubs hold afterwards: carol has the message, bob does
    not; the WebSocket hub has also unregistered bob and closed his
    queue, the SSE hub has kept him and waited 100 ms. *)
Lemma broadcast_with_one_full_queue_evaluated :
  (∃ ws', WSService.Run_broadcast "s1" sample_msg sample_ws = Some ws'
     ∧ WSService.queue ws_carol ws' = Some [sample_msg]
     ∧ WSService.queue ws_bob ws' = Some [sample_msg; sample_msg]
     ∧ WSService.clients ws' !! "s1_u-bob" = None
     ∧ Chan.closed <$> WSService.heap ws' !! 0%nat = Some true
     ∧ WSService.GetClientCount "s1" ws' = 1%nat)
  ∧ (∃ s', SSEService.Broadcast "s1" sample_msg sample_sse = Some (s', 100)
     ∧ SSEService.queue sse_carol s' = Some [sample_msg]
     ∧ SSEService.queue sse_bob s' = Some [sample_msg; sample_msg]
     ∧ SSEService.GetClientCount "s1" s' = 2%nat).
Proof.
  split; eexists; (split; [vm_compute; reflexivity|]);
    repeat split; vm_compute; reflexivity.
Qed.

(** C8: carol's SSE client is removed twice, and an unknown WebSocket
    client is unregistered. *)
Lemma removal_is_idempotent_witness :
  SSEService.RemoveClient "s1_u-carol_2"
    (SSEService.mk (delete "s1_u-carol_2" (SSEService.clients sample_sse))
       (<[1%nat := shut empty_chan]> (SSEService.heap sample_sse)))
  = Some (SSEService.mk
            (delete "s1_u-carol_2" (SSEService.clients sample_sse))
            (<[1%nat := shut empty_chan]> (SSEService.heap sample_sse)))
  ∧ WSService.Run_unregister
      (WSService.mkWSClient "s9_u-erin" "s9" "u-erin" 7) sample_ws
    = Some sample_ws.
Proof.
  pose proof (removal_is_idempotent sample_sse "s1_u-carol_2" sample_ws
                (WSService.mkWSClient "s9_u-erin" "s9" "u-erin" 7))
    as (_ & Hsse & Hws & _).
  split.
  - apply Hsse. vm_compute. reflexivity.
  - apply Hws. vm_compute. reflexivity.
Defined.

(** * Further properties of the handlers *)

Section MoreRequests.
Context `{GoStd}.

(** X1. Whenever a handler answers with a 4xx status (401, 403, 404 or
    400, on any of the nine routes) the database is exactly as it was
    before the request and nothing has been handed to the hub. *)
Theorem rejection_changes_nothing db r :
  rejected (outcome (serve db r)) →
  db_after (serve db r) = db ∧ events (effects (serve db r)) = [].
Proof.
  remember (serve db r) as res eqn:Hres. unfold_handlers.
  destruct (op r) eqn:Ho; walk Hres; subst res; simpl.
  all: try done.
  all: intros (code & body & Heq & Hc); try (exfalso; simplify_eq; lia).
Qed.

(** X2. A request is answered with 401 Unauthorized exactly when the
    middleware has put no user in its context, and such a request makes no
    storage call at all. *)
Theorem unauthorized_iff_no_user db r :
  (outcome (serve db r) = Response 401 "Unauthorized" ↔ ctx_user r = None)
  ∧ (ctx_user r = None → effects (serve db r) = [] ∧ db_after (serve db r) = db).
Proof.
  remember (serve db r) as res eqn:Hres. unfold_handlers.
  destruct (op r) eqn:Ho; walk Hres; subst res; simpl.
  all: repeat split; try done.
Qed.

Lemma existsb_eqb_elem (v : string) (l : list string) :
  existsb (λ x, String.eqb v x) l = true ↔ v ∈ l.
Proof.
  rewrite existsb_exists. split.
  - intros (x & Hin & ->%String.eqb_eq). by apply list_elem_of_In.
  - intros Hin. exists v. split; [by apply list_elem_of_In|apply String.eqb_refl].
Qed.

Lemma existsb_eqb_elem' (v : string) (l : list string) :
  existsb (λ x, String.eqb x v) l = true ↔ v ∈ l.
Proof.
  rewrite existsb_exists. split.
  - intros (x & Hin & ->%String.eqb_eq). by apply list_elem_of_In.
  - intros Hin. exists v. split; [by apply list_elem_of_In|apply String.eqb_refl].
Qed.

(** X3. The values that pass both checks of [SubmitVote] are exactly 0, 1,
    2, 3, 5, 8, 13, 21, 34 and the question mark: the cards 55, 89, 144 and
    the coffee cup of [models.AllVotingCards] are turned down by
    [ValidateVoteValue], and the coffee entry of [validVotes] is not a
    card. *)
Theorem only_ten_cards_are_votable v : valid_card v ↔ v ∈ votable_cards.
Proof.
  unfold valid_card, utils.HasErrors, utils.ValidateVoteValue.
  rewrite existsb_eqb_elem'. split.
  - intros [Hv Hc].
    destruct (existsb _ utils.validVotes) eqn:E; [|done].
    apply existsb_eqb_elem in E.
    unfold utils.validVotes, AllVotingCards, FibonacciCards, SpecialCards in *.
    simpl in Hc.
    repeat (apply elem_of_cons in E as [->|E]);
      try (apply elem_of_nil in E; done);
      try (unfold votable_cards;
           solve [repeat first [apply list_elem_of_here
                               |apply list_elem_of_further]]).
    exfalso. clear -Hc.
    repeat (apply elem_of_cons in Hc as [Hc|Hc]; [by vm_compute in Hc|]).
    by apply elem_of_nil in Hc.
  - intros Hin. unfold votable_cards in Hin.
    repeat (apply elem_of_cons in Hin as [->|Hin]);
      try (apply elem_of_nil in Hin; done).
    all: split; [by vm_compute|].
    all: unfold AllVotingCards, FibonacciCards, SpecialCards; simpl.
    all: repeat first [apply list_elem_of_here | apply list_elem_of_further].
Qed.


Lemma find_cons {A} (P : A → bool) a l :
  List.find P (a :: l) = if P a then Some a else List.find P l.
Proof. done. Qed.

Lemma find_replaced {A} (P : A → bool) (R : A → Prop)
    `{!∀ x, Decision (R x)} (l : list A) x :
  P x = true → (∀ y, P y = true → ¬ R y) →
  List.find P (filter R l ++ [x]) = Some x.
Proof.
  intros Hx HP. induction l as [|a l IH]; simpl.
  - by rewrite find_cons, Hx.
  - rewrite filter_cons. destruct (decide (R a)) as [Ha|Ha]; [|done].
    simpl. rewrite find_cons. destruct (P a) eqn:E; [|done].
    by destruct (HP a E).
Qed.

Lemma find_kept {A} (P : A → bool) (R : A → Prop)
    `{!∀ x, Decision (R x)} (l : list A) x :
  P x = false → (∀ y, P y = true → R y) →
  List.find P (filter R l ++ [x]) = List.find P l.
Proof.
  intros Hx HP. induction l as [|a l IH]; simpl.
  - by rewrite find_cons, Hx.
  - rewrite filter_cons, (find_cons _ a l).
    destruct (decide (R a)) as [Ha|Ha]; simpl.
    + rewrite find_cons. by destruct (P a).
    + destruct (P a) eqn:E; [|done]. destruct Ha. by apply HP.
Qed.

Lemma GetUserVoteForTicket_own db now tid uid v vote db' :
  VotingService.SubmitVote now tid uid v db = (Some vote, db') →
  vote = Vote.mk (next_vote_id db) tid uid v now None
  ∧ VotingService.GetUserVoteForTicket db' tid uid = Some vote.
Proof.
  unfold VotingService.SubmitVote, VotingService.GetUserVoteForTicket.
  destruct (_ && _); [done|]. intros [= <- <-]. simpl.
  split; [done|]. rewrite find_replaced; [done| |].
  - by apply bool_decide_eq_true.
  - intros y Hy%bool_decide_eq_true Hn. by destruct Hn.
Qed.

(** X14. A successful [VotingService.SubmitVote] followed by
    [GetUserVoteForTicket] for the same ticket and user returns the vote
    that was submitted, and the answer for every other pair of ticket and
    user is what it was before. *)
Theorem submitted_vote_can_be_read_back db now tid uid v vote db' :
  VotingService.SubmitVote now tid uid v db = (Some vote, db') →
  vote = Vote.mk (next_vote_id db) tid uid v now None
  ∧ VotingService.GetUserVoteForTicket db' tid uid = Some vote
  ∧ ∀ tid' uid', (tid', uid') ≠ (tid, uid) →
      VotingService.GetUserVoteForTicket db' tid' uid'
      = VotingService.GetUserVoteForTicket db tid' uid'.
Proof.
  unfold VotingService.SubmitVote, VotingService.GetUserVoteForTicket.
  destruct (_ && _); [done|]. intros [= <- <-]. simpl.
  split; [done|]. split.
  - rewrite find_replaced; [done| |].
    + by apply bool_decide_eq_true.
    + intros y Hy%bool_decide_eq_true Hn. by destruct Hn.
  - intros tid' uid' Hne. rewrite find_kept; [done| |].
    + apply bool_decide_eq_false. simpl. intros [-> ->]. by destruct Hne.
    + intros y [-> ->]%bool_decide_eq_true [? ?]. destruct Hne. congruence.
Qed.

(** X4. When [SubmitVote] answers 200 the caller is authenticated, the
    session has a current ticket, the sanitized value passes both checks
    for a card, [GetUserVoteForTicket] on the resulting database returns
    for the caller and the current ticket a vote with that value and the
    time of the request, and this very vote is the payload of the single
    vote-cast message. *)
Theorem accepted_vote_is_stored db r raw :
  op r = OpSubmitVote raw →
  vote_accepted (serve db r) →
  ∃ u s cur vote,
    ctx_user r = Some u
    ∧ SessionService.GetSessionByID db (sessionID r) = Some s
    ∧ Session.CurrentTicket s = Some cur
    ∧ valid_card (utils.SanitizeInput raw)
    ∧ VotingService.GetUserVoteForTicket (db_after (serve db r))
        (Ticket.ID cur) (User.ID u) = Some vote
    ∧ Vote.VoteValue vote = utils.SanitizeInput raw
    ∧ Vote.CreatedAt vote = now r
    ∧ events (effects (serve db r))
      = [(sessionID r,
          SSEMessage.mk "vote-cast" (DataVoteCast (User.ID u) vote))].
Proof.
  intros Ho. unfold vote_accepted.
  remember (serve db r) as res eqn:Hres. unfold_handlers.
  rewrite Ho in Hres. walk Hres; subst res; simpl; try done.
  intros _.
  match goal with
  | Hs : VotingService.SubmitVote _ _ _ _ _ = _ |- _ =>
      apply GetUserVoteForTicket_own in Hs as (Hv & Hget)
  end.
  eexists _, _, _, _. repeat split; try eassumption; try reflexivity.
  - match goal with Hn : negb _ = false |- _ => by apply negb_false_iff in Hn end.
  - by rewrite Hv.
  - by rewrite Hv.
Qed.

(** The tickets come out of the query in the order of their positions. *)
Lemma getSessionTickets_sorted db sid :
  StronglySorted (key_le Ticket.Position)
    (SessionService.getSessionTickets db sid).
Proof.
  unfold SessionService.getSessionTickets, order_by.
  set (R := key_le (λ kr : Z * TicketRow, t_position kr.2)).
  assert (Transitive R) by (intros ???; unfold R, key_le; lia).
  assert (Total R) by (intros ??; unfold R, key_le; lia).
  pose proof (StronglySorted_merge_sort R
    (filter (λ kr, t_session_id kr.2 = sid) (map_to_list (tickets db)))) as Hs.
  induction Hs as [|[id row] l Hs IH Hall]; simpl; constructor; [done|].
  apply Forall_fmap. eapply Forall_impl; [exact Hall|].
  by intros [id' row'] Hle.
Qed.

Lemma ticket_after_next cur pre (t t' : Ticket.t) post :
  cur ∉ Ticket.ID <$> pre → Ticket.ID t = cur →
  Handler.ticket_after cur (pre ++ t :: t' :: post) = Some t'.
Proof.
  intros Hn Ht. induction pre as [|a pre IH]; simpl.
  - by rewrite decide_True.
  - rewrite fmap_cons, not_elem_of_cons in Hn. destruct Hn as [Ha Hn].
    destruct (pre ++ t :: t' :: post) eqn:E; [by destruct pre|].
    rewrite decide_False by done. by apply IH.
Qed.

(** X5. The owner advances while the current ticket is followed by
    another one in the loaded list: that next ticket becomes the current
    one, its position is not below the position of the ticket left, the
    voting flag is cleared, no vote is touched, and the ticket-changed
    message carries the next ticket. *)
Theorem NextTicket_moves_to_successor db r u s pre cur next post :
  op r = OpNextTicket →
  ctx_user r = Some u →
  SessionService.GetSessionByID db (sessionID r) = Some s →
  Session.OwnerID s = User.ID u →
  fails r KGetSessionByID = false →
  fails r KUpdateSession = false →
  Session.Tickets s = pre ++ cur :: next :: post →
  Session.CurrentTicket s = Some cur →
  (∃ row, sessions (db_after (serve db r)) !! sessionID r = Some row
          ∧ s_current_ticket_id row = Some (Ticket.ID next)
          ∧ s_is_voting_active row = false)
  ∧ Ticket.Position cur ≤ Ticket.Position next
  ∧ votes (db_after (serve db r)) = votes db
  ∧ events (effects (serve db r))
    = [(sessionID r, SSEMessage.mk "ticket-changed" (DataTicket (Some next)))]
  ∧ outcome (serve db r) = Response 303 ("/session/" +:+ sessionID r).
Proof.
  intros Ho Hu Hs Hown Hf1 Hf2 Hts Hcur.
  pose proof (GetSessionByID_Some _ _ _ Hs)
    as (row & Hrow & Hid & _ & _ & _ & _ & Hts' & _).
  assert (Handler.find_next s = Some next) as Hnext.
  { unfold Handler.find_next. rewrite Hcur, Hts.
    apply ticket_after_next; [|done].
    pose proof (getSessionTickets_NoDup db (sessionID r)) as Hnd.
    rewrite <- Hts', Hts, fmap_app, NoDup_app in Hnd.
    destruct Hnd as (_ & Hnd & _). intros Hin.
    apply (Hnd _ Hin). simpl. apply list_elem_of_here. }
  assert (Ticket.Position cur ≤ Ticket.Position next) as Hle.
  { pose proof (getSessionTickets_sorted db (sessionID r)) as Hso.
    rewrite <- Hts', Hts in Hso.
    apply StronglySorted_app_1_r in Hso.
    apply StronglySorted_inv in Hso as [_ Hall].
    by apply Forall_cons in Hall as [Hle _]. }
  unfold_handlers. rewrite Ho, Hu. simpl. rewrite Hf1. simpl. rewrite Hs.
  simpl. destruct (decide _) as [Hne|_]; [by destruct Hne|].
  rewrite Hf2, Hnext. simpl. split; [|done].
  unfold SessionService.UpdateSession. simpl. rewrite Hid.
  rewrite lookup_alter_eq, Hrow. simpl. eauto.
Qed.

(** X6. The owner advances in a session without a current ticket that
    has tickets: the first ticket of the list, which has the least
    position, becomes the current one and is the payload of the
    ticket-changed message. *)
Theorem NextTicket_starts_with_first db r u s first rest :
  op r = OpNextTicket →
  ctx_user r = Some u →
  SessionService.GetSessionByID db (sessionID r) = Some s →
  Session.OwnerID s = User.ID u →
  fails r KGetSessionByID = false →
  fails r KUpdateSession = false →
  Session.Tickets s = first :: rest →
  Session.CurrentTicket s = None →
  (∃ row, sessions (db_after (serve db r)) !! sessionID r = Some row
          ∧ s_current_ticket_id row = Some (Ticket.ID first)
          ∧ s_is_voting_active row = false)
  ∧ (∀ t, t ∈ Session.Tickets s → Ticket.Position first ≤ Ticket.Position t)
  ∧ events (effects (serve db r))
    = [(sessionID r, SSEMessage.mk "ticket-changed" (DataTicket (Some first)))]
  ∧ outcome (serve db r) = Response 303 ("/session/" +:+ sessionID r).
Proof.
  intros Ho Hu Hs Hown Hf1 Hf2 Hts Hcur.
  pose proof (GetSessionByID_Some _ _ _ Hs)
    as (row & Hrow & Hid & _ & _ & _ & _ & Hts' & _).
  assert (Handler.find_next s = Some first) as Hnext.
  { unfold Handler.find_next. by rewrite Hcur, Hts. }
  assert (∀ t, t ∈ Session.Tickets s →
               Ticket.Position first ≤ Ticket.Position t) as Hle.
  { pose proof (getSessionTickets_sorted db (sessionID r)) as Hso.
    rewrite <- Hts', Hts in Hso.
    apply StronglySorted_inv in Hso as [_ Hall].
    rewrite Forall_forall in Hall.
    intros t. rewrite Hts. intros [->|Hin]%elem_of_cons.
    - unfold key_le. lia.
    - by apply Hall. }
  unfold_handlers. rewrite Ho, Hu. simpl. rewrite Hf1. simpl. rewrite Hs.
  simpl. destruct (decide _) as [Hne|_]; [by destruct Hne|].
  rewrite Hf2, Hnext. simpl. split; [|done].
  unfold SessionService.UpdateSession. simpl. rewrite Hid.
  rewrite lookup_alter_eq, Hrow. simpl. eauto.
Qed.

Lemma find_ticket_Some (ts : list Ticket.t) id t :
  List.find (λ t, bool_decide (Ticket.ID t = id)) ts = Some t →
  t ∈ ts ∧ Ticket.ID t = id.
Proof.
  intros [Hin Hid]%find_some. apply bool_decide_eq_true in Hid.
  split; [by apply list_elem_of_In|done].
Qed.

Lemma find_ticket_None (ts : list Ticket.t) id :
  List.find (λ t, bool_decide (Ticket.ID t = id)) ts = None →
  id ∉ Ticket.ID <$> ts.
Proof.
  intros Hf (t & -> & Hin)%list_elem_of_fmap.
  apply list_elem_of_In in Hin.
  pose proof (find_none _ _ Hf _ Hin) as Hn. simpl in Hn.
  by apply bool_decide_eq_false in Hn.
Qed.

Lemma GetSessionByID_UpdateSession db now s sid row :
  sessions db !! sid = Some row → Session.ID s = sid →
  ∃ s', SessionService.GetSessionByID
          (SessionService.UpdateSession now s db).2 sid = Some s'
        ∧ Session.CurrentTicketID s' = Session.CurrentTicketID s
        ∧ Session.IsVotingActive s' = Session.IsVotingActive s
        ∧ Session.OwnerID s' = s_owner_id row
        ∧ Session.Tickets s' = SessionService.getSessionTickets db sid
        ∧ Session.CurrentTicket s'
          = SessionService.resolve_current (Session.CurrentTicketID s)
              (SessionService.getSessionTickets db sid).
Proof.
  intros Hrow Hid.
  unfold SessionService.GetSessionByID, SessionService.UpdateSession. simpl.
  rewrite Hid, lookup_alter_eq, Hrow. simpl. eexists. split; [done|].
  by repeat split.
Qed.

(** X7. The owner selects a ticket by id: when [tickets] holds a row of
    this session under the id, a later [GetSessionByID] loads that ticket
    as the current one with the voting flag cleared, and it is the payload
    of the ticket-changed message; when there is no such row (unknown id,
    or a ticket of another session) the answer is 404 and nothing
    changes. *)
Theorem SelectTicket_makes_ticket_current db r u s raw id :
  op r = OpSelectTicket raw →
  ctx_user r = Some u →
  SessionService.GetSessionByID db (sessionID r) = Some s →
  Session.OwnerID s = User.ID u →
  fails r KGetSessionByID = false →
  fails r KUpdateSession = false →
  Atoi raw = Some id →
  ((∃ row, tickets db !! id = Some row ∧ t_session_id row = sessionID r) →
   ∃ s' t,
     SessionService.GetSessionByID (db_after (serve db r)) (sessionID r)
     = Some s'
     ∧ Session.CurrentTicket s' = Some t
     ∧ Ticket.ID t = id
     ∧ Session.IsVotingActive s' = false
     ∧ events (effects (serve db r))
       = [(sessionID r, SSEMessage.mk "ticket-changed" (DataTicket (Some t)))]
     ∧ outcome (serve db r) = Response 303 ("/session/" +:+ sessionID r))
  ∧ (¬ (∃ row, tickets db !! id = Some row ∧ t_session_id row = sessionID r) →
     outcome (serve db r) = Response 404 "Ticket not found"
     ∧ db_after (serve db r) = db
     ∧ events (effects (serve db r)) = []).
Proof.
  intros Ho Hu Hs Hown Hf1 Hf2 Hid.
  pose proof (GetSessionByID_Some _ _ _ Hs)
    as (srow & Hrow & Hsid & _ & _ & _ & _ & Hts & _).
  unfold_handlers. rewrite Ho, Hu. simpl. rewrite Hf1. simpl. rewrite Hs.
  simpl. destruct (decide _) as [Hne|_]; [by destruct Hne|].
  rewrite Hid.
  destruct (List.find _ (Session.Tickets s)) as [t|] eqn:Hfind; simpl.
  - apply find_ticket_Some in Hfind as [Hin Ht].
    split; [intros _|].
    + rewrite Hf2. simpl.
      destruct (GetSessionByID_UpdateSession db (now r)
                  (Session.set_IsVotingActive false
                     (Session.set_CurrentTicketID (Some id) s))
                  (sessionID r) srow) as (s' & Hs' & Hc & Ha & _ & _ & Hcur);
        [done|done|].
      simpl in *. exists s', t. rewrite Hs'. repeat split; try done.
      rewrite Hcur. simpl. rewrite <- Hts.
      destruct (List.find _ (Session.Tickets s)) as [t'|] eqn:Hfind.
      * apply find_ticket_Some in Hfind as [Hin' Ht'].
        f_equal.
        pose proof (getSessionTickets_NoDup db (sessionID r)) as Hnd.
        rewrite <- Hts in Hnd.
        apply (NoDup_fmap_elem_inj Ticket.ID (Session.Tickets s));
          [done..|congruence].
      * apply find_ticket_None in Hfind. destruct Hfind.
        apply list_elem_of_fmap. eauto.
    + intros Hn. destruct Hn. rewrite Hts in Hin.
      apply getSessionTickets_elem in Hin as (row & ? & ?).
      exists row. by rewrite <- Ht.
  - apply find_ticket_None in Hfind. split; [|done].
    intros (row & Hr & Hsess). destruct Hfind. rewrite Hts.
    by eapply getSessionTickets_has.
Qed.

Lemma GetVotesForTicket_frame db db' tid :
  votes db' = votes db → users db' = users db →
  VotingService.GetVotesForTicket db' tid
  = VotingService.GetVotesForTicket db tid.
Proof.
  intros Hv Hu. unfold VotingService.GetVotesForTicket. rewrite Hv.
  induction (order_by _ _) as [|a l IH]; [done|].
  cbn [omap list_omap]. rewrite IH. unfold VotingService.vote_of_row.
  by rewrite Hu.
Qed.

(** X8. End-voting, advance-ticket, select-ticket, ticket creation and
    ticket update never write to [votes] or [users], whatever their
    outcome: [GetVotesForTicket] gives for every ticket the same list
    before and after. *)
Theorem votes_survive_ticket_changes db r :
  keeps_votes (op r) = true →
  votes (db_after (serve db r)) = votes db
  ∧ users (db_after (serve db r)) = users db
  ∧ ∀ tid, VotingService.GetVotesForTicket (db_after (serve db r)) tid
           = VotingService.GetVotesForTicket db tid.
Proof.
  intros Hk.
  assert (votes (db_after (serve db r)) = votes db
          ∧ users (db_after (serve db r)) = users db) as [Hv Hu].
  { remember (serve db r) as res eqn:Hres. unfold_handlers.
    destruct (op r) eqn:Ho; try discriminate Hk; walk Hres; subst res; simpl.
    all: try done.
    all: use_eq.
    all: unfold SessionService.UpdateSession, TicketService.UpdateTicket,
           TicketService.CreateTicket in *; simpl.
    all: try done.
    all: repeat case_match; simplify_eq/=; done. }
  split; [done|]. split; [done|].
  intros tid. by apply GetVotesForTicket_frame.
Qed.

Lemma GetVotesForTicket_Clear_other db tid tid' :
  tid' ≠ tid →
  VotingService.GetVotesForTicket
    (VotingService.ClearVotesForTicket tid db).2 tid'
  = VotingService.GetVotesForTicket db tid'.
Proof.
  intros Hne. unfold VotingService.GetVotesForTicket,
    VotingService.ClearVotesForTicket. simpl.
  f_equal. f_equal. induction (votes db) as [|a l IH]; [done|].
  rewrite !filter_cons. destruct (decide (v_ticket_id a ≠ tid)) as [Ha|Ha].
  - rewrite filter_cons. by rewrite IH.
  - rewrite IH. apply dec_stable in Ha. rewrite decide_False; [done|congruence].
Qed.

Lemma GetVotesForTicket_Clear db tid :
  VotingService.GetVotesForTicket
    (VotingService.ClearVotesForTicket tid db).2 tid = [].
Proof.
  unfold VotingService.GetVotesForTicket,
    VotingService.ClearVotesForTicket. simpl.
  rewrite (filter_filter_not (λ r, v_ticket_id r = tid)). done.
Qed.

(** X9. A successful start-voting sets the voting flag and keeps the
    current ticket, leaves the current ticket without votes, and leaves
    the votes of every other ticket and all tickets as they were. *)
Theorem StartVoting_opens_a_fresh_round db r u s cur :
  op r = OpStartVoting →
  ctx_user r = Some u →
  SessionService.GetSessionByID db (sessionID r) = Some s →
  Session.OwnerID s = User.ID u →
  Session.CurrentTicket s = Some cur →
  (∀ k, fails r k = false) →
  (∃ row, sessions (db_after (serve db r)) !! sessionID r = Some row
          ∧ s_is_voting_active row = true
          ∧ s_current_ticket_id row = Some (Ticket.ID cur))
  ∧ VotingService.GetVotesForTicket (db_after (serve db r)) (Ticket.ID cur)
    = []
  ∧ (∀ tid, tid ≠ Ticket.ID cur →
       VotingService.GetVotesForTicket (db_after (serve db r)) tid
       = VotingService.GetVotesForTicket db tid)
  ∧ tickets (db_after (serve db r)) = tickets db
  ∧ outcome (serve db r) = Response 303 ("/session/" +:+ sessionID r).
Proof.
  intros Ho Hu Hs Hown Hcur Hf.
  destruct (serve_StartVoting db r u s cur) as [Hdb _]; [done..|].
  rewrite Hdb.
  pose proof (GetSessionByID_Some _ _ _ Hs)
    as (row & Hrow & Hid & _ & _ & Hc & _).
  destruct (current_ticket_row _ _ _ _ Hs Hcur) as [Hcid _].
  split; [|split; [|split; [|split]]].
  - unfold SessionService.UpdateSession, VotingService.ClearVotesForTicket.
    simpl. rewrite Hid, lookup_alter_eq, Hrow. simpl. eauto.
  - apply GetVotesForTicket_Clear.
  - intros tid Hne. rewrite GetVotesForTicket_Clear_other by done.
    by apply GetVotesForTicket_frame.
  - done.
  - unfold_handlers. rewrite Ho, Hu. simpl. rewrite !Hf. simpl. rewrite Hs.
    simpl. destruct (decide _) as [Hne|_]; [by destruct Hne|].
    rewrite Hcur. simpl. by rewrite ?Hf.
Qed.

End MoreRequests.

(** ** Requests and the other sessions *)

Section Isolation.
Context `{GoStd}.

Lemma untouched_refl sid db : untouched_outside sid db db.
Proof. by repeat split. Qed.

Lemma untouched_trans sid db db1 db2 :
  tickets db1 = tickets db →
  untouched_outside sid db db1 → untouched_outside sid db1 db2 →
  untouched_outside sid db db2.
Proof.
  intros Ht (Hu1 & Hs1 & Ht1 & Hv1) (Hu2 & Hs2 & Ht2 & Hv2).
  unfold vote_elsewhere in *.
  remember (tickets db1) as m eqn:Hm in *. clear Hm. subst m.
  split; [congruence|]. split; [|split].
  - intros sid' Hne. rewrite Hs2, Hs1; done.
  - intros tid row Hne. etrans; [by apply Ht2|by apply Ht1].
  - etrans; [exact Hv2|exact Hv1].
Qed.

Lemma filter_filter_impl {A} (P Q : A → Prop) `{!∀ x, Decision (P x)}
    `{!∀ x, Decision (Q x)} (l : list A) :
  (∀ x, P x → Q x) → filter P (filter Q l) = filter P l.
Proof.
  intros HPQ. induction l as [|a l IH]; [done|].
  rewrite !filter_cons. destruct (decide (Q a)) as [Hq|Hq].
  - rewrite filter_cons. by rewrite IH.
  - rewrite IH. rewrite decide_False; [done|]. intros Hp. by apply Hq, HPQ.
Qed.

Lemma untouched_UpdateSession sid db now s :
  Session.ID s = sid →
  untouched_outside sid db (SessionService.UpdateSession now s db).2.
Proof.
  intros Hid. unfold SessionService.UpdateSession. simpl.
  repeat split; try done. simpl. intros sid' Hne.
  rewrite lookup_alter_ne; [done|congruence].
Qed.

Lemma untouched_ClearVotes sid db tid row :
  tickets db !! tid = Some row → t_session_id row = sid →
  untouched_outside sid db (VotingService.ClearVotesForTicket tid db).2.
Proof.
  intros Hrow Hs. unfold VotingService.ClearVotesForTicket. simpl.
  repeat split; try done. simpl.
  apply filter_filter_impl. intros x Hx Heq. apply Hx.
  by rewrite Heq, Hrow; simpl; rewrite Hs.
Qed.

Lemma untouched_SubmitVote sid db now tid uid v row :
  tickets db !! tid = Some row → t_session_id row = sid →
  untouched_outside sid db (VotingService.SubmitVote now tid uid v db).2.
Proof.
  intros Hrow Hs. unfold VotingService.SubmitVote.
  destruct (_ && _); [apply untouched_refl|]. simpl.
  repeat split; try done. simpl.
  rewrite filter_app, filter_cons, filter_nil.
  rewrite decide_False.
  2:{ unfold vote_elsewhere. simpl. rewrite Hrow. simpl. intros Hn.
      by apply Hn; rewrite Hs. }
  rewrite app_nil_r. apply filter_filter_impl.
  intros x Hx [Heq _]. apply Hx. by rewrite Heq, Hrow; simpl; rewrite Hs.
Qed.

Lemma untouched_CreateTicket sid db now title desc :
  untouched_outside sid db (TicketService.CreateTicket now sid title desc db).2.
Proof.
  unfold TicketService.CreateTicket.
  destruct (_ && _); [apply untouched_refl|]. simpl.
  repeat split; try done; simpl.
  - destruct (decide (tid = next_ticket_id db)) as [->|Hne].
    + rewrite lookup_insert_eq. intros [= <-]. by simpl in *.
    + by rewrite lookup_insert_ne.
  - destruct (decide (tid = next_ticket_id db)) as [->|Hne].
    + by rewrite next_ticket_id_fresh.
    + by rewrite lookup_insert_ne.
Qed.

Lemma untouched_UpdateTicket sid db t row :
  tickets db !! Ticket.ID t = Some row → t_session_id row = sid →
  untouched_outside sid db (TicketService.UpdateTicket t db).2.
Proof.
  intros Hrow Hs. unfold TicketService.UpdateTicket. simpl.
  repeat split; try done; simpl.
  - destruct (decide (tid = Ticket.ID t)) as [->|Hne].
    + rewrite lookup_alter_eq, Hrow. simpl. intros [= <-]. by simpl in *.
    + by rewrite lookup_alter_ne.
  - destruct (decide (tid = Ticket.ID t)) as [->|Hne].
    + rewrite Hrow. intros [= <-]. done.
    + by rewrite lookup_alter_ne.
Qed.

Lemma untouched_DeleteTicket sid db tid row :
  tickets db !! tid = Some row → t_session_id row = sid →
  untouched_outside sid db (TicketService.DeleteTicket tid db).2.
Proof.
  intros Hrow Hs. unfold TicketService.DeleteTicket. rewrite Hrow. simpl.
  repeat split; try done; simpl.
  - rewrite lookup_fmap. destruct (decide (tid0 = tid)) as [->|Hne].
    + by rewrite lookup_delete_eq.
    + rewrite lookup_delete_ne by done.
      destruct (tickets db !! tid0) as [r0|]; [|done]. simpl.
      case_bool_decide as Hb; [|done].
      intros [= <-]. simpl in *. destruct Hb. congruence.
  - rewrite lookup_fmap. destruct (decide (tid0 = tid)) as [->|Hne].
    + rewrite Hrow. intros [= <-]. done.
    + rewrite lookup_delete_ne by done. intros ->. simpl.
      rewrite bool_decide_eq_false_2; [done|]. intros [? _]. congruence.
  - destruct (foreign_keys db); [|done].
    apply filter_filter_impl. intros x Hx Heq. apply Hx.
    by rewrite Heq, Hrow; simpl; rewrite Hs.
Qed.

Lemma untouched_DeleteSession sid db :
  untouched_outside sid db (SessionService.DeleteSession sid db).2.
Proof.
  unfold SessionService.DeleteSession.
  destruct (foreign_keys db); simpl.
  - repeat split; try done; simpl.
    + intros sid' Hne. by rewrite lookup_delete_ne.
    + intros [? _]%map_lookup_filter_Some. done.
    + intros Hr. by apply map_lookup_filter_Some.
    + by apply filter_filter_impl.
  - repeat split; try done; simpl.
    intros sid' Hne. by rewrite lookup_delete_ne.
Qed.

Lemma loaded_session_ID db sid s :
  SessionService.GetSessionByID db sid = Some s → Session.ID s = sid.
Proof. by intros (row & _ & ? & _)%GetSessionByID_Some. Qed.

Lemma GetTicketByID_fields db tid t :
  TicketService.GetTicketByID db tid = Some t →
  ∃ trow, tickets db !! tid = Some trow
          ∧ Ticket.ID t = tid
          ∧ Ticket.SessionID t = t_session_id trow
          ∧ Ticket.Position t = t_position trow.
Proof.
  unfold TicketService.GetTicketByID.
  destruct (tickets db !! tid) as [trow|]; [|done].
  intros [= <-]. by exists trow.
Qed.

(** X10. No request, on any route and with any outcome, changes a row
    outside the session named in its URL: the users, the rows of the other
    sessions, the tickets of the other sessions and the votes on tickets
    that are not tickets of the session stay as they were. *)
Theorem requests_leave_other_sessions_alone db r :
  untouched_outside (sessionID r) db (db_after (serve db r)).
Proof.
  remember (serve db r) as res eqn:Hres. unfold_handlers.
  destruct (op r) eqn:Ho; walk Hres; subst res; simpl.
  all: try apply untouched_refl.
  all: use_eq.
  all: repeat match goal with Hq : decide _ = _ |- _ => clear Hq end.
  all: repeat match goal with
         | Hs : SessionService.GetSessionByID _ _ = Some ?s,
           Hc : Session.CurrentTicket ?s = Some _ |- _ =>
             destruct (current_ticket_row _ _ _ _ Hs Hc) as (_ & ? & ? & ?);
             clear Hc
         | Ht : TicketService.GetTicketByID _ _ = Some _ |- _ =>
             apply GetTicketByID_fields in Ht as (? & ? & ? & ? & ?)
         | n : ¬ (_ ≠ _) |- _ => apply dec_stable in n
         end.
  all: repeat match goal with
         | Hs : SessionService.GetSessionByID _ _ = Some _ |- _ =>
             apply loaded_session_ID in Hs
         end.
  all: try (by apply untouched_UpdateSession).
  all: try (by eapply untouched_SubmitVote).
  all: try (by apply untouched_CreateTicket).
  all: try (by apply untouched_DeleteSession).
  all: try (eapply untouched_UpdateTicket; simpl;
            [subst; eassumption|congruence]).
  all: try (eapply untouched_DeleteTicket; [eassumption|congruence]).
  all: match goal with
       | |- untouched_outside _ ?d
              (_ (SessionService.UpdateSession ?n ?s ?d).2).2 =>
           apply (untouched_trans _ d (SessionService.UpdateSession n s d).2);
           [done|by apply untouched_UpdateSession|]
       end.
  all: first [eapply untouched_ClearVotes | eapply untouched_DeleteTicket];
       [eassumption|congruence].
Qed.

End Isolation.

(** ** Ticket positions *)

Section Positions.
Context `{GoStd}.



Lemma dense_perm (l l' : list Z) : l ≡ₚ l' → dense l → dense l'.
Proof. unfold dense. intros Hp Hd. by rewrite <- Hp. Qed.

Lemma dense_nil : dense [].
Proof. unfold dense. by cbn. Qed.

Lemma dense_elem (l : list Z) x :
  dense l → x ∈ l ↔ 1 ≤ x ≤ Z.of_nat (length l).
Proof.
  unfold dense. intros Hd. split.
  - intros Hin. eapply Permutation_elem in Hin; [|exact Hd].
    apply elem_of_seqZ in Hin. lia.
  - intros Hx. eapply Permutation_elem; [symmetry; exact Hd|].
    apply elem_of_seqZ. lia.
Qed.

Lemma foldr_max_ge (p : Z) ps x : x ∈ p :: ps → x ≤ foldr Z.max p ps.
Proof.
  induction ps as [|a ps IH]; simpl.
  - intros ->%list_elem_of_singleton. lia.
  - rewrite !elem_of_cons. intros [->|[->|Hin]].
    + assert (p ≤ foldr Z.max p ps) by (apply IH, list_elem_of_here). lia.
    + lia.
    + assert (x ≤ foldr Z.max p ps)
        by (apply IH, list_elem_of_further, Hin). lia.
Qed.

Lemma foldr_max_in (p : Z) ps : foldr Z.max p ps ∈ p :: ps.
Proof.
  induction ps as [|a ps IH]; simpl.
  - apply list_elem_of_here.
  - destruct (Z.max_spec a (foldr Z.max p ps)) as [[_ ->]|[_ ->]].
    + apply elem_of_cons in IH as [->|Hin].
      * apply list_elem_of_here.
      * by do 2 apply list_elem_of_further.
    + apply list_elem_of_further, list_elem_of_here.
Qed.

(** Over dense positions [COALESCE(MAX(position), 0)] is the number of
    tickets. *)
Lemma max_position_dense db sid :
  dense (positions db sid) →
  TicketService.max_position db sid = Z.of_nat (length (positions db sid)).
Proof.
  unfold TicketService.max_position. fold (positions db sid).
  intros Hd. destruct (positions db sid) as [|p ps] eqn:E; [done|].
  pose proof (foldr_max_in p ps) as Hin.
  apply (dense_elem _ _ Hd) in Hin.
  assert (Z.of_nat (length (p :: ps)) ∈ p :: ps) as Hn.
  { apply (dense_elem _ _ Hd). simpl. lia. }
  apply foldr_max_ge in Hn. lia.
Qed.

Lemma dense_snoc (l : list Z) :
  dense l → dense ((Z.of_nat (length l) + 1) :: l).
Proof.
  unfold dense. intros Hd. cbn [length]. rewrite seqZ_S.
  rewrite <- Permutation_cons_append. rewrite <- Hd.
  replace (1 + Z.of_nat (length l)) with (Z.of_nat (length l) + 1) by lia.
  done.
Qed.

Lemma dense_remove (p : Z) (l : list Z) :
  dense (p :: l) →
  dense ((λ x, if bool_decide (p < x) then x - 1 else x) <$> l).
Proof.
  intros Hd.
  assert (1 ≤ p ≤ Z.of_nat (length (p :: l))) as Hp
    by (apply (dense_elem _ _ Hd), list_elem_of_here).
  unfold dense in *. rewrite length_fmap. cbn [length] in *.
  set (n := Z.of_nat (length l)) in *.
  replace (Z.of_nat (S (length l))) with ((p - 1) + (1 + (n - p + 1))) in Hd
    by lia.
  rewrite seqZ_app, (seqZ_cons (1 + (p - 1))) in Hd by lia.
  replace (1 + (p - 1)) with p in Hd by lia.
  rewrite <- Permutation_middle in Hd.
  apply Permutation_cons_inv in Hd. rewrite Hd, fmap_app.
  replace n with ((p - 1) + (n - p + 1)) at 2 by lia.
  rewrite seqZ_app by lia.
  replace (Z.pred (1 + (n - p + 1))) with (n - p + 1) by lia.
  replace (1 + (p - 1)) with p by lia.
  set (g := λ x : Z, if bool_decide (p < x) then x - 1 else x).
  assert (g <$> seqZ 1 (p - 1) = seqZ 1 (p - 1)) as ->.
  { rewrite <- (list_fmap_id (seqZ 1 (p - 1))) at 2.
    apply Forall_fmap_ext_1, Forall_forall. intros x Hx%elem_of_seqZ.
    unfold g. rewrite bool_decide_eq_false_2; [done|lia]. }
  assert (g <$> seqZ (Z.succ p) (n - p + 1) = seqZ p (n - p + 1)) as ->.
  { assert (seqZ p (n - p + 1)
            = Z.add (-1) <$> seqZ (Z.succ p) (n - p + 1)) as ->
      by (rewrite fmap_add_seqZ; f_equal; lia).
    apply Forall_fmap_ext_1, Forall_forall. intros x Hx%elem_of_seqZ.
    unfold g. rewrite bool_decide_eq_true_2; lia. }
  done.
Qed.

Lemma positions_frame db db' sid :
  tickets db' = tickets db → positions db' sid = positions db sid.
Proof. unfold positions. by intros ->. Qed.

Lemma positions_insert db db' k row sid :
  tickets db !! k = None → tickets db' = <[k:=row]> (tickets db) →
  positions db' sid
  ≡ₚ (if decide (t_session_id row = sid) then [t_position row] else [])
     ++ positions db sid.
Proof.
  intros Hk Ht. unfold positions. rewrite Ht.
  rewrite map_to_list_insert by done. rewrite filter_cons. simpl.
  by destruct (decide _).
Qed.

Lemma positions_delete db db' k row sid :
  tickets db !! k = Some row → tickets db' = delete k (tickets db) →
  positions db sid
  ≡ₚ (if decide (t_session_id row = sid) then [t_position row] else [])
     ++ positions db' sid.
Proof.
  intros Hk Ht. unfold positions. rewrite Ht.
  rewrite <- (map_to_list_delete (tickets db) k row) by done.
  rewrite filter_cons. simpl. by destruct (decide _).
Qed.

Lemma filter_fmap_session (f : TicketRow → TicketRow) sid
    (l : list (Z * TicketRow)) :
  (∀ r, t_session_id (f r) = t_session_id r) →
  t_position ∘ snd <$>
    filter (λ kr, t_session_id kr.2 = sid) (prod_map id f <$> l)
  = (λ kr, t_position (f kr.2)) <$>
      filter (λ kr, t_session_id kr.2 = sid) l.
Proof.
  intros Hf. induction l as [|[k r] l IH]; [done|].
  rewrite fmap_cons, !filter_cons.
  change ((prod_map id f (k, r)).2) with (f r).
  change ((k, r).2) with r.
  destruct (decide (t_session_id (f r) = sid)) as [Ha|Ha];
    destruct (decide (t_session_id r = sid)) as [Hb|Hb];
    rewrite ?fmap_cons, IH; try done; rewrite Hf in Ha; done.
Qed.

Lemma positions_dense_frame db db' :
  tickets db' = tickets db → positions_dense db → positions_dense db'.
Proof.
  intros Ht Hd sid. rewrite (positions_frame db db') by done. apply Hd.
Qed.

Lemma positions_dense_CreateTicket db now sid title desc :
  positions_dense db →
  positions_dense (TicketService.CreateTicket now sid title desc db).2.
Proof.
  intros Hd. unfold TicketService.CreateTicket.
  destruct (_ && _); [done|]. simpl. intros sid'.
  eapply dense_perm.
  { symmetry. eapply positions_insert; [apply next_ticket_id_fresh|done]. }
  simpl. destruct (decide (sid = sid')) as [<-|Hne]; simpl; [|apply Hd].
  rewrite max_position_dense by apply Hd. apply dense_snoc, Hd.
Qed.

Lemma positions_dense_DeleteTicket db tid :
  positions_dense db → positions_dense (TicketService.DeleteTicket tid db).2.
Proof.
  intros Hd. unfold TicketService.DeleteTicket.
  destruct (tickets db !! tid) as [row|] eqn:Hrow; [|done]. simpl.
  intros sid. unfold positions. simpl.
  rewrite map_to_list_fmap, filter_fmap_session
    by (intros r; by case_bool_decide).
  pose proof (positions_delete db (set_tickets (delete tid (tickets db)) db)
                tid row sid Hrow eq_refl) as Hp.
  destruct (decide (t_session_id row = sid)) as [Hs|Hs]; simpl in Hp.
  - eapply dense_perm in Hp; [|apply Hd]. apply dense_remove in Hp.
    unfold positions in Hp. simpl in Hp.
    rewrite <- list_fmap_compose in Hp.
    erewrite Forall_fmap_ext_1; [exact Hp|].
    apply Forall_forall. intros [k r] [Hr _]%list_elem_of_filter. simpl in *.
    destruct (decide (t_position row < t_position r)) as [Hlt|Hlt].
    + rewrite !bool_decide_eq_true_2; [done|done|split; congruence].
    + rewrite !bool_decide_eq_false_2; [done|done|by intros [_ ?]].
  - eapply dense_perm in Hp; [|apply Hd].
    unfold positions in Hp. simpl in Hp.
    erewrite Forall_fmap_ext_1; [exact Hp|].
    apply Forall_forall. intros [k r] [Hr _]%list_elem_of_filter. simpl in *.
    rewrite bool_decide_eq_false_2; [done|]. intros [? _]. congruence.
Qed.

Lemma alter_as_insert {A} (f : A → A) (m : gmap Z A) k x :
  m !! k = Some x → alter f k m = <[k := f x]> (delete k m).
Proof.
  intros Hx. apply map_eq. intros j. destruct (decide (j = k)) as [->|Hne].
  - by rewrite lookup_alter_eq, lookup_insert_eq, Hx.
  - by rewrite lookup_alter_ne, lookup_insert_ne, lookup_delete_ne.
Qed.

Lemma positions_dense_UpdateTicket db t row :
  tickets db !! Ticket.ID t = Some row →
  Ticket.Position t = t_position row →
  positions_dense db → positions_dense (TicketService.UpdateTicket t db).2.
Proof.
  intros Hrow Hpos Hd. unfold TicketService.UpdateTicket. simpl. intros sid.
  pose proof (positions_delete db
                (set_tickets (delete (Ticket.ID t) (tickets db)) db)
                (Ticket.ID t) row sid Hrow eq_refl) as Hp.
  eapply dense_perm; [|apply (Hd sid)]. rewrite Hp.
  symmetry. etrans.
  { eapply (positions_insert
              (set_tickets (delete (Ticket.ID t) (tickets db)) db));
      [apply lookup_delete_eq|].
    simpl. by apply alter_as_insert. }
  simpl. by rewrite Hpos.
Qed.

Lemma map_to_list_filter_perm {A} (P : Z * A → Prop)
    `{!∀ x, Decision (P x)} (m : gmap Z A) :
  map_to_list (filter P m) ≡ₚ filter P (map_to_list m).
Proof.
  rewrite map_filter_alt. apply map_to_list_to_map.
  eapply sublist_NoDup; [apply (NoDup_fst_map_to_list m)|].
  apply fmap_sublist, sublist_filter.
Qed.

Lemma positions_dense_DeleteSession db sid :
  positions_dense db → positions_dense (SessionService.DeleteSession sid db).2.
Proof.
  intros Hd. unfold SessionService.DeleteSession.
  destruct (foreign_keys db); [|done]. simpl. intros sid'.
  eapply dense_perm.
  { symmetry. unfold positions. simpl. rewrite map_to_list_filter_perm.
    reflexivity. }
  fold (positions db sid').
  destruct (decide (sid' = sid)) as [->|Hne].
  - rewrite (filter_filter_not (λ kr : Z * TicketRow, t_session_id kr.2 = sid)).
    apply dense_nil.
  - rewrite filter_filter_impl; [apply Hd|]. intros x Hx. congruence.
Qed.

(** X11. Every request keeps the ticket positions dense: if in every
    session the positions of the tickets are the numbers 1 to n, each
    once, then the same holds after the request ([CreateTicket] appends at
    n + 1, [DeleteTicket] closes the gap, [UpdateTicket] writes back the
    position it read). *)
Theorem positions_stay_dense db r :
  positions_dense db → positions_dense (db_after (serve db r)).
Proof.
  intros Hd. remember (serve db r) as res eqn:Hres. unfold_handlers.
  destruct (op r) eqn:Ho; walk Hres; subst res; simpl; try done.
  all: use_eq.
  all: repeat match goal with
         | Ht : TicketService.GetTicketByID _ _ = Some _ |- _ =>
             apply GetTicketByID_fields in Ht as (? & ? & ? & ? & ?)
         end.
  all: try (by apply positions_dense_CreateTicket).
  all: try (by apply positions_dense_DeleteSession).
  all: try (eapply positions_dense_frame; [|eassumption]; done).
  all: try (eapply positions_dense_UpdateTicket; simpl;
            [subst; eassumption|done|done]).
  all: try (apply positions_dense_DeleteTicket;
            eapply positions_dense_frame; [|eassumption]; done).
  all: try (eapply positions_dense_frame; [|eassumption];
            unfold VotingService.SubmitVote; by case_match).
Qed.


Lemma getSessionTickets_row db sid t :
  t ∈ SessionService.getSessionTickets db sid →
  ∃ row, tickets db !! Ticket.ID t = Some row ∧ t_session_id row = sid
         ∧ Ticket.Position t = t_position row
         ∧ Ticket.Title t = t_title row.
Proof.
  unfold SessionService.getSessionTickets.
  intros ([id row] & -> & Hin)%list_elem_of_fmap.
  rewrite order_by_perm in Hin.
  apply list_elem_of_filter in Hin as [Hs Hin].
  apply elem_of_map_to_list in Hin. exists row. by simpl in *.
Qed.

Lemma getSessionTickets_length db sid :
  length (SessionService.getSessionTickets db sid)
  = length (positions db sid).
Proof.
  unfold SessionService.getSessionTickets, positions.
  by rewrite !length_fmap, order_by_perm.
Qed.

Lemma position_in_positions db sid id row :
  tickets db !! id = Some row → t_session_id row = sid →
  t_position row ∈ positions db sid.
Proof.
  intros Hrow Hs. unfold positions. apply list_elem_of_fmap.
  exists (id, row). split; [done|].
  apply list_elem_of_filter. split; [done|]. by apply elem_of_map_to_list.
Qed.

(** X12. With dense positions a successful ticket creation stores the
    sanitized title under an id no ticket had, at position n + 1 where n
    is the number of tickets the session had; the new ticket is the last
    one of the list the session then loads, which is one longer than
    before, and it is the payload of the ticket-created message. *)
Theorem CreateTicket_appends_to_queue db r u s title desc hx :
  op r = OpCreateTicket title desc hx →
  ctx_user r = Some u →
  SessionService.GetSessionByID db (sessionID r) = Some s →
  Session.OwnerID s = User.ID u →
  (∀ k, fails r k = false) →
  utils.HasErrors
    (utils.ValidateTicketTitle (utils.SanitizeInput title)
     ++ utils.ValidateTicketDescription (utils.SanitizeInput desc)) = false →
  positions_dense db →
  ∃ t,
    events (effects (serve db r))
    = [(sessionID r, SSEMessage.mk "ticket-created" (DataTicket (Some t)))]
    ∧ tickets db !! Ticket.ID t = None
    ∧ Ticket.Title t = utils.SanitizeInput title
    ∧ Ticket.Position t = Z.of_nat (length (Session.Tickets s)) + 1
    ∧ Ticket.ID <$> last (SessionService.getSessionTickets
                            (db_after (serve db r)) (sessionID r))
      = Some (Ticket.ID t)
    ∧ length (SessionService.getSessionTickets
                (db_after (serve db r)) (sessionID r))
      = S (length (Session.Tickets s)).
Proof.
  intros Ho Hu Hs Hown Hf Hval Hd.
  pose proof (GetSessionByID_Some _ _ _ Hs)
    as (srow & Hrow & Hsid & _ & _ & _ & _ & Hts & _).
  set (n := Z.of_nat (length (Session.Tickets s))).
  assert (TicketService.max_position db (sessionID r) = n) as Hmax.
  { rewrite max_position_dense by apply Hd. unfold n.
    by rewrite Hts, getSessionTickets_length. }
  set (row := mkTicketRow (sessionID r) (utils.SanitizeInput title)
                (utils.SanitizeInput desc) None (n + 1) (now r)).
  set (db' := mkDB (users db) (sessions db)
                (<[next_ticket_id db := row]> (tickets db)) (votes db)
                (next_ticket_id db) (vote_seq db) (foreign_keys db)).
  assert (serve db r
          = mkResult (if decide (hx ≠ "") then Response 200 ""
                      else Response 303 ("/session/" +:+ sessionID r))
              db'
              [Storage KGetSessionByID true; Storage KCreateTicket true;
               Broadcast (sessionID r)
                 (SSEMessage.mk "ticket-created"
                    (DataTicket
                       (Some (Ticket.mk (next_ticket_id db) (sessionID r)
                                (utils.SanitizeInput title)
                                (utils.SanitizeInput desc) None (n + 1)
                                (now r) []))))]) as Hserve.
  { unfold_handlers. rewrite Ho, Hu. simpl. rewrite !Hf. simpl. rewrite Hs.
    simpl. destruct (decide _) as [Hne|_]; [by destruct Hne|].
    rewrite Hval. simpl. rewrite ?Hf. unfold TicketService.CreateTicket.
    rewrite Hrow, Hmax. rewrite andb_false_r. simpl.
    by destruct (decide (hx ≠ "")). }
  rewrite Hserve. simpl.
  eexists. split; [reflexivity|]. simpl.
  split; [apply next_ticket_id_fresh|]. split; [done|]. split; [done|].
  assert (length (SessionService.getSessionTickets db' (sessionID r))
          = S (length (Session.Tickets s))) as Hlen.
  { rewrite getSessionTickets_length, Hts, getSessionTickets_length.
    erewrite Permutation_length;
      [|eapply (positions_insert db db');
        [apply next_ticket_id_fresh|done]].
    simpl. by rewrite decide_True. }
  split; [|done].
  destruct (last (SessionService.getSessionTickets db' (sessionID r)))
    as [y|] eqn:Hlast.
  2:{ apply last_None in Hlast. by rewrite Hlast in Hlen. }
  simpl. f_equal.
  apply last_Some in Hlast as [l' Hl'].
  assert (next_ticket_id db
          ∈ Ticket.ID <$> SessionService.getSessionTickets db' (sessionID r))
    as Hin.
  { eapply getSessionTickets_has; [apply lookup_insert_eq|done]. }
  apply list_elem_of_fmap in Hin as (x & Hx & Hin).
  rewrite Hl' in Hin. apply elem_of_app in Hin as [Hin|Hin].
  2:{ apply list_elem_of_singleton in Hin. congruence. }
  exfalso.
  pose proof (getSessionTickets_sorted db' (sessionID r)) as Hso.
  rewrite Hl' in Hso.
  pose proof (StronglySorted_app_1_elem_of _ _ _ x y Hso Hin
                ltac:(apply list_elem_of_here)) as Hle.
  unfold key_le in Hle.
  assert (x ∈ SessionService.getSessionTickets db' (sessionID r)) as Hx'
    by (rewrite Hl'; apply elem_of_app; by left).
  assert (y ∈ SessionService.getSessionTickets db' (sessionID r)) as Hy'
    by (rewrite Hl'; apply elem_of_app; right; apply list_elem_of_here).
  apply getSessionTickets_row in Hx' as (rx & Hrx & _ & Hpx & _).
  apply getSessionTickets_row in Hy' as (ry & Hry & Hsy & Hpy & _).
  simpl in Hrx, Hry. rewrite <- Hx, lookup_insert_eq in Hrx.
  injection Hrx as <-. simpl in Hpx.
  assert (Ticket.ID y ≠ next_ticket_id db) as Hne.
  { pose proof (getSessionTickets_NoDup db' (sessionID r)) as Hnd.
    rewrite Hl', fmap_app, NoDup_app in Hnd. destruct Hnd as (_ & Hnd & _).
    intros Heq. apply (Hnd (Ticket.ID x)).
    - apply list_elem_of_fmap. eauto.
    - simpl. rewrite Heq, Hx. apply list_elem_of_here. }
  rewrite lookup_insert_ne in Hry by done.
  pose proof (position_in_positions _ _ _ _ Hry Hsy) as Hpos.
  apply (dense_elem _ _ (Hd (sessionID r))) in Hpos.
  rewrite <- getSessionTickets_length, <- Hts in Hpos. lia.
Qed.

Lemma DeleteTicket_length db id row sid :
  tickets db !! id = Some row → t_session_id row = sid →
  length (SessionService.getSessionTickets
            (TicketService.DeleteTicket id db).2 sid)
  = pred (length (SessionService.getSessionTickets db sid)).
Proof.
  intros Hrow Hs. rewrite !getSessionTickets_length.
  pose proof (positions_delete db (set_tickets (delete id (tickets db)) db)
                id row sid Hrow eq_refl) as Hp.
  rewrite decide_True in Hp by done. rewrite Hp. simpl.
  unfold TicketService.DeleteTicket. rewrite Hrow.
  unfold positions. simpl.
  rewrite map_to_list_fmap, filter_fmap_session
    by (intros r; by case_bool_decide).
  by rewrite !length_fmap.
Qed.

(** X13. The owner deletes a ticket of the session and nothing fails:
    the ticket can no longer be read, the session loads one ticket fewer
    and none with this id; if the ticket was the current one the session
    is left without current ticket and with the voting flag cleared, and
    otherwise both stay as they were; with foreign keys enforced no vote
    on the ticket is left; one ticket-deleted message is broadcast. *)
Theorem DeleteTicket_removes_ticket db r u s raw id row :
  op r = OpDeleteTicket raw →
  ctx_user r = Some u →
  SessionService.GetSessionByID db (sessionID r) = Some s →
  Session.OwnerID s = User.ID u →
  (∀ k, fails r k = false) →
  Atoi raw = Some id →
  tickets db !! id = Some row →
  t_session_id row = sessionID r →
  TicketService.GetTicketByID (db_after (serve db r)) id = None
  ∧ (∃ s', SessionService.GetSessionByID (db_after (serve db r))
             (sessionID r) = Some s'
           ∧ (id ∉ Ticket.ID <$> Session.Tickets s')
           ∧ length (Session.Tickets s') = pred (length (Session.Tickets s))
           ∧ Session.CurrentTicketID s'
             = (if decide (Session.CurrentTicketID s = Some id) then None
                else Session.CurrentTicketID s)
           ∧ Session.IsVotingActive s'
             = (if decide (Session.CurrentTicketID s = Some id) then false
                else Session.IsVotingActive s))
  ∧ (foreign_keys db = true →
     ∀ uid, VotingService.GetUserVoteForTicket (db_after (serve db r)) id uid
            = None)
  ∧ events (effects (serve db r))
    = [(sessionID r, SSEMessage.mk "ticket-deleted" (DataTicketDeleted id))]
  ∧ outcome (serve db r) = Response 303 ("/session/" +:+ sessionID r).
Proof.
  intros Ho Hu Hs Hown Hf Hid Hrow Hsess.
  pose proof (GetSessionByID_Some _ _ _ Hs)
    as (srow & Hsrow & Hsid & _ & _ & Hcid & Hact & Hts & _).
  set (db1 := if decide (Session.CurrentTicketID s = Some id)
              then (SessionService.UpdateSession (now r)
                      (Session.set_IsVotingActive false
                         (Session.set_CurrentTicketID None s)) db).2
              else db).
  assert (tickets db1 = tickets db ∧ votes db1 = votes db
          ∧ foreign_keys db1 = foreign_keys db) as (Ht1 & Hv1 & Hfk1).
  { unfold db1. by destruct (decide _). }
  assert (serve db r
          = mkResult (Response 303 ("/session/" +:+ sessionID r))
              (TicketService.DeleteTicket id db1).2
              ([Storage KGetSessionByID true; Storage KGetTicketByID true]
               ++ (if decide (Session.CurrentTicketID s = Some id)
                   then [Storage KUpdateSession true] else [])
               ++ [Storage KDeleteTicket true;
                   Broadcast (sessionID r)
                     (SSEMessage.mk "ticket-deleted"
                        (DataTicketDeleted id))])) as Hserve.
  { unfold_handlers. rewrite Ho, Hu. simpl. rewrite Hid, !Hf. simpl.
    rewrite Hs. simpl.
    destruct (decide (Session.OwnerID s ≠ _)) as [Hne|_]; [by destruct Hne|].
    rewrite ?Hf. simpl. unfold TicketService.GetTicketByID. rewrite Hrow.
    simpl.
    destruct (decide (t_session_id row ≠ _)) as [Hne|_]; [by destruct Hne|].
    unfold db1.
    destruct (decide (Session.CurrentTicketID s = Some id)); simpl;
      rewrite ?Hf;
      unfold TicketService.DeleteTicket, SessionService.UpdateSession; simpl;
      rewrite ?Hf; simpl; rewrite Hrow; done. }
  rewrite Hserve. simpl.
  assert (∀ j, tickets (TicketService.DeleteTicket id db1).2 !! j = None
               ↔ j = id ∨ tickets db !! j = None) as Hlook.
  { intros j. unfold TicketService.DeleteTicket. rewrite Ht1, Hrow. simpl.
    rewrite lookup_fmap, fmap_None, lookup_delete_None.
    intuition congruence. }
  split; [|split; [|split; [|split]]].
  - unfold TicketService.GetTicketByID.
    by rewrite (proj2 (Hlook id) (or_introl eq_refl)).
  - assert (sessions (TicketService.DeleteTicket id db1).2 = sessions db1)
      as Hss by (unfold TicketService.DeleteTicket; by rewrite Ht1, Hrow).
    unfold SessionService.GetSessionByID. rewrite Hss.
    assert (∃ row', sessions db1 !! sessionID r = Some row'
              ∧ s_current_ticket_id row'
                = (if decide (Session.CurrentTicketID s = Some id) then None
                   else Session.CurrentTicketID s)
              ∧ s_is_voting_active row'
                = (if decide (Session.CurrentTicketID s = Some id) then false
                   else Session.IsVotingActive s)) as (row' & Hr' & Hc' & Ha').
    { unfold db1. destruct (decide _).
      - unfold SessionService.UpdateSession. simpl.
        rewrite Hsid, lookup_alter_eq, Hsrow. simpl. eauto.
      - exists srow. by rewrite Hcid, Hact. }
    rewrite Hr'. simpl. eexists. split; [reflexivity|]. simpl.
    split; [|split; [|done]].
    + intros (t & Ht & Hin)%list_elem_of_fmap.
      apply getSessionTickets_elem in Hin as (trow & Hlk & _).
      rewrite <- Ht in Hlk.
      by rewrite (proj2 (Hlook id) (or_introl eq_refl)) in Hlk.
    + rewrite Hts. rewrite <- (DeleteTicket_length db id row) by done.
      rewrite !getSessionTickets_length. f_equal.
      apply positions_frame. unfold TicketService.DeleteTicket.
      by rewrite Ht1, !Hrow.
  - intros Hfk uid. unfold VotingService.GetUserVoteForTicket,
      TicketService.DeleteTicket. rewrite Ht1, Hrow, Hfk1, Hfk, Hv1. simpl.
    destruct (List.find _ _) as [v|] eqn:Hfind; [|done].
    apply find_some in Hfind as [Hin [Ht _]%bool_decide_eq_true].
    apply list_elem_of_In, list_elem_of_filter in Hin as [Hn _]. done.
  - by destruct (decide _).
  - done.
Qed.

End Positions.

(** * Further properties of the hubs *)

Section MoreWebSocketHub.
Import WSService.

Import WSService.

(** The loop only removes clients. *)
Lemma Run_broadcast_in_evicts sid m order :
  ∀ ws c,
    NoDup (Send <$> order) →
    (∀ c, c ∈ order → open_at (heap ws) (Send c)) →
    c ∈ order → SessionID c = sid → full_at (heap ws) (Send c) →
    ∀ ws', Run_broadcast_in order sid m ws = Some ws' →
           clients ws' !! ID c = None.
Proof.
  induction order as [|c0 rest IH]; intros ws c Hnd Hopen Hin Hs Hfull ws' Hrun.
  { by apply elem_of_nil in Hin. }
  rewrite fmap_cons in Hnd. apply NoDup_cons in Hnd as [Hc0 Hnd].
  destruct (Hopen c0) as (ch0 & Hch0 & Hcl0); [apply list_elem_of_here|].
  simpl in Hrun.
  rewrite (Run_broadcast_client_open _ _ _ _ ch0) in Hrun by done.
  simpl in Hrun.
  set (ws1 := if decide (SessionID c0 = sid) then _ else ws) in Hrun.
  assert (∀ a, a ≠ Send c0 → heap ws1 !! a = heap ws !! a) as Hframe1.
  { intros a Ha. unfold ws1. destruct (decide _); [|done].
    destruct (Chan.full ch0); simpl; by rewrite lookup_insert_ne. }
  assert (∀ c', c' ∈ rest → Send c' ≠ Send c0) as Hrest.
  { intros c' Hin' Heq. apply Hc0. rewrite <- Heq.
    by apply list_elem_of_fmap_2. }
  assert (∀ c', c' ∈ rest → open_at (heap ws1) (Send c')) as Hopen1.
  { intros c' Hin'. destruct (Hopen c') as (ch' & ? & ?);
      [by apply list_elem_of_further|].
    exists ch'. split; [|done]. rewrite Hframe1; [done|by apply Hrest]. }
  apply elem_of_cons in Hin as [->|Hin].
  - destruct (Run_broadcast_in_spec sid m rest ws1 Hnd Hopen1)
      as (ws'' & Hrun' & _ & _ & Hcl).
    assert (ws'' = ws') as -> by congruence.
    assert (clients ws1 !! ID c0 = None) as Hgone.
    { unfold ws1. rewrite decide_True by done.
      destruct Hfull as (ch & Hch & Hf).
      assert (ch = ch0) as -> by congruence. rewrite Hf. simpl.
      apply lookup_delete_eq. }
    destruct (Hcl (ID c0)) as [Heq|[Hn _]]; [by rewrite Heq|done].
  - eapply (IH ws1 c); try done.
    destruct Hfull as (ch & Hch & Hf). exists ch. split; [|done].
    rewrite Hframe1; [done|by apply Hrest].
Qed.

(** The loop on a well-formed hub, in terms of the keys of the map. *)
Lemma Run_broadcast_in_keys ws order sid m :
  ws_wf ws →
  order ≡ₚ (map_to_list (clients ws)).*2 →
  ∃ ws', Run_broadcast_in order sid m ws = Some ws'
    ∧ ws_wf ws'
    ∧ (∀ k c, clients ws' !! k = Some c → clients ws !! k = Some c)
    ∧ (∀ k c, clients ws !! k = Some c →
              (SessionID c = sid ∧ full_at (heap ws) (Send c))
              ↔ clients ws' !! k = None)
    ∧ (∀ k c ch, clients ws !! k = Some c → SessionID c = sid →
                 heap ws !! Send c = Some ch →
                 heap ws' !! Send c
                 = Some (if Chan.full ch then shut ch else pushed m ch))
    ∧ (∀ k c, clients ws !! k = Some c → SessionID c ≠ sid →
              heap ws' !! Send c = heap ws !! Send c).
Proof.
  intros Hwf Hperm.
  pose proof (ws_wf_NoDup ws Hwf) as Hnd. rewrite <- Hperm in Hnd.
  assert (∀ c, c ∈ order ↔ registered c ws) as Hreg.
  { intros c. rewrite registered_elem. split; apply Permutation_elem; done. }
  assert (∀ c, c ∈ order → open_at (heap ws) (Send c)) as Hopen.
  { intros c [k Hk]%Hreg. by apply (proj1 Hwf k c). }
  destruct (Run_broadcast_in_spec sid m order ws Hnd Hopen)
    as (ws' & Hrun & Hfr & Heff & Hcl).
  assert (∀ k c, clients ws' !! k = Some c → clients ws !! k = Some c) as Hsub.
  { intros k c Hk. destruct (Hcl k) as [Heq|[Hn _]]; congruence. }
  assert (∀ k c, clients ws !! k = Some c → SessionID c ≠ sid →
                 heap ws' !! Send c = heap ws !! Send c) as Hother.
  { intros k c Hk Hs. apply Hfr.
    intros (c' & Heq & Hin)%list_elem_of_fmap.
    apply list_elem_of_filter in Hin as [Hs' Hin].
    apply Hreg in Hin as [k' Hk'].
    assert (k = k') as -> by by eapply (proj2 Hwf).
    congruence. }
  assert (∀ k c, clients ws !! k = Some c →
                 (SessionID c = sid ∧ full_at (heap ws) (Send c))
                 ↔ clients ws' !! k = None) as Hdrop.
  { intros k c Hk. destruct (proj1 Hwf _ _ Hk) as [Hid _]. split.
    - intros [Hs Hfull]. rewrite <- Hid.
      eapply (Run_broadcast_in_evicts sid m order ws c); try done.
      apply Hreg. by exists k.
    - intros Hnone.
      destruct (Hcl k) as [Heq|(_ & c' & Hin & Hid' & Hs & Hf)]; [congruence|].
      apply Hreg in Hin as [k' Hk'].
      destruct (proj1 Hwf _ _ Hk') as [Hidc' _].
      assert (c' = c) as -> by congruence. done. }
  exists ws'. split; [done|]. split; [|split; [done|split; [done|split]]].
  - split.
    + intros k c Hk. pose proof (Hsub _ _ Hk) as Hk0.
      destruct (proj1 Hwf _ _ Hk0) as (Hid & ch & Hch & Hopenc).
      split; [done|]. unfold open_at.
      destruct (decide (SessionID c = sid)) as [Hs|Hs].
      * rewrite (Heff c ch); [|apply Hreg; by exists k|done..].
        destruct (Chan.full ch) eqn:Hf.
        -- assert (clients ws' !! k = None); [|congruence].
           apply (Hdrop k c Hk0). split; [done|]. by exists ch.
        -- eexists. split; [done|]. done.
      * exists ch. rewrite (Hother k); done.
    + intros k1 k2 c1 c2 H1 H2. apply (proj2 Hwf); by apply Hsub.
  - intros k c ch Hk Hs Hch. apply Heff; [apply Hreg; by exists k|done..].
  - done.
Qed.

(** X15. A broadcast of the WebSocket hub on a well-formed registry, in
    whatever order the map is visited: it does not panic and leaves the
    registry well-formed; a connection of the session gets the message
    appended to its queue and stays registered when the queue has room,
    and is closed and unregistered when the queue is full; connections of
    other sessions are untouched; nobody is added. *)
Theorem ws_broadcast_delivers_or_evicts ws order sid m :
  ws_wf ws →
  order ≡ₚ (map_to_list (clients ws)).*2 →
  ∃ ws', Run_broadcast_in order sid m ws = Some ws'
    ∧ ws_wf ws'
    ∧ (∀ c ch, registered c ws → SessionID c = sid →
               heap ws !! Send c = Some ch →
               heap ws' !! Send c
               = Some (if Chan.full ch then shut ch else pushed m ch)
               ∧ (registered c ws' ↔ Chan.full ch = false))
    ∧ (∀ c, registered c ws → SessionID c ≠ sid →
            registered c ws' ∧ heap ws' !! Send c = heap ws !! Send c)
    ∧ (∀ c, registered c ws' → registered c ws).
Proof.
  intros Hwf Hperm.
  destruct (Run_broadcast_in_keys ws order sid m Hwf Hperm)
    as (ws' & Hrun & Hwf' & Hsub & Hdrop & Heff & Hother).
  exists ws'. split; [done|]. split; [done|]. split; [|split].
  - intros c ch [k Hk] Hs Hch. split; [by eapply Heff|].
    destruct (proj1 Hwf _ _ Hk) as [Hid _]. split.
    + intros [k' Hk']. pose proof (Hsub _ _ Hk') as Hk0'.
      destruct (proj1 Hwf _ _ Hk0') as [Hid' _].
      assert (k' = k) as -> by congruence.
      destruct (Chan.full ch) eqn:Hf; [|done].
      assert (clients ws' !! k = None); [|congruence].
      apply (Hdrop k c Hk). split; [done|]. by exists ch.
    + intros Hf. exists k.
      destruct (clients ws' !! k) as [c'|] eqn:Hk'.
      * apply Hsub in Hk'. congruence.
      * apply (Hdrop k c Hk) in Hk' as [_ (ch' & Hch' & Hf')]. congruence.
  - intros c [k Hk] Hs. split; [|by eapply Hother].
    exists k. destruct (clients ws' !! k) as [c'|] eqn:Hk'.
    + apply Hsub in Hk'. congruence.
    + apply (Hdrop k c Hk) in Hk' as [? _]. done.
  - intros c [k Hk]. exists k. by apply Hsub.
Qed.

(** X16. Two broadcasts to one session, one after the other: every
    connection of the session whose queue has room for two more messages
    is still registered afterwards and finds the two messages at the end
    of its queue in the order in which they were broadcast. *)
Theorem ws_broadcasts_keep_order ws order1 sid m1 m2 :
  ws_wf ws →
  order1 ≡ₚ (map_to_list (clients ws)).*2 →
  ∃ ws1, Run_broadcast_in order1 sid m1 ws = Some ws1
    ∧ ∀ order2, order2 ≡ₚ (map_to_list (clients ws1)).*2 →
      ∃ ws2, Run_broadcast_in order2 sid m2 ws1 = Some ws2
        ∧ ∀ c ch, registered c ws → SessionID c = sid →
                  heap ws !! Send c = Some ch →
                  (length (Chan.buf ch) + 2 ≤ Chan.cap ch)%nat →
                  registered c ws2
                  ∧ queue c ws2 = Some (Chan.buf ch ++ [m1; m2]).
Proof.
  intros Hwf Hp1.
  destruct (Run_broadcast_in_keys ws order1 sid m1 Hwf Hp1)
    as (ws1 & Hrun1 & Hwf1 & Hsub1 & Hdrop1 & Heff1 & _).
  exists ws1. split; [done|]. intros order2 Hp2.
  destruct (Run_broadcast_in_keys ws1 order2 sid m2 Hwf1 Hp2)
    as (ws2 & Hrun2 & _ & Hsub2 & Hdrop2 & Heff2 & _).
  exists ws2. split; [done|]. intros c ch [k Hk] Hs Hch Hroom.
  assert (Chan.full ch = false) as Hf1.
  { unfold Chan.full. apply bool_decide_eq_false. lia. }
  assert (Chan.full (pushed m1 ch) = false) as Hf2.
  { unfold Chan.full, pushed. simpl. apply bool_decide_eq_false.
    rewrite length_app. simpl. lia. }
  pose proof (Heff1 k c ch Hk Hs Hch) as Hch1. rewrite Hf1 in Hch1.
  assert (clients ws1 !! k = Some c) as Hk1.
  { destruct (clients ws1 !! k) as [c'|] eqn:Hk'.
    - apply Hsub1 in Hk'. congruence.
    - apply (Hdrop1 k c Hk) in Hk' as [_ (ch' & Hch' & Hf')]. congruence. }
  pose proof (Heff2 k c _ Hk1 Hs Hch1) as Hch2. rewrite Hf2 in Hch2.
  split.
  - exists k. destruct (clients ws2 !! k) as [c'|] eqn:Hk'.
    + apply Hsub2 in Hk'. congruence.
    + apply (Hdrop2 k c Hk1) in Hk' as [_ (ch' & Hch' & Hf')]. congruence.
  - unfold queue. rewrite Hch2. simpl. by rewrite <- app_assoc.
Qed.

(** X17. Unregistering a registered WebSocket client of a well-formed
    hub removes it from the registry and closes its queue with its
    content; every other client stays registered with its queue untouched,
    the hub stays well-formed, and unregistering once more changes
    nothing. *)
Theorem ws_unregister_registered ws c :
  ws_wf ws → registered c ws →
  ∃ ws' ch,
    Run_unregister c ws = Some ws'
    ∧ ws_wf ws'
    ∧ heap ws !! Send c = Some ch
    ∧ heap ws' !! Send c = Some (shut ch)
    ∧ ¬ registered c ws'
    ∧ (∀ c', c' ≠ c → registered c' ws →
             registered c' ws'
             ∧ heap ws' !! Send c' = heap ws !! Send c')
    ∧ (∀ c', registered c' ws' → registered c' ws)
    ∧ Run_unregister c ws' = Some ws'.
Proof.
  intros Hwf [k Hk].
  destruct (proj1 Hwf _ _ Hk) as (Hid & ch & Hch & Hopen).
  unfold Run_unregister. rewrite Hid, Hk.
  rewrite (close_chan_open _ _ ch) by done. simpl.
  eexists _, ch. split; [done|].
  assert (∀ k' c', k' ≠ k → clients ws !! k' = Some c' → Send c' ≠ Send c)
    as Hsend.
  { intros k' c' Hne Hk' Heq. apply Hne. by eapply (proj2 Hwf). }
  split; [|split; [done|split; [|split; [|split; [|split]]]]].
  - split.
    + intros k' c'. simpl. intros [Hne Hk']%lookup_delete_Some.
      destruct (proj1 Hwf _ _ Hk') as (? & ch' & Hch' & ?).
      split; [done|]. exists ch'. split; [|done].
      rewrite lookup_insert_ne; [done|]. intros Heq.
      by apply (Hsend k' c').
    + intros k1 k2 c1 c2. simpl.
      intros [_ H1]%lookup_delete_Some [_ H2]%lookup_delete_Some.
      by apply (proj2 Hwf).
  - simpl. by rewrite lookup_insert_eq.
  - intros [k' Hk']. simpl in Hk'.
    apply lookup_delete_Some in Hk' as [Hne Hk'].
    destruct (proj1 Hwf _ _ Hk') as [Hid' _]. congruence.
  - intros c' Hne [k' Hk']. simpl.
    assert (k' ≠ k) as Hk'ne by (intros ->; congruence).
    split.
    + exists k'. simpl. by rewrite lookup_delete_ne.
    + rewrite lookup_insert_ne; [done|]. intros Heq.
      by apply (Hsend k' c').
  - intros c' [k' Hk']. simpl in Hk'.
    apply lookup_delete_Some in Hk' as [_ Hk']. by exists k'.
  - simpl. by rewrite lookup_delete_eq.
Qed.

(** X18. A client with a full queue is evicted by a broadcast, which
    closes its queue.  Unregistering it right away does nothing; but once
    the same user has connected to the same session again, so that the
    client id is back in the map, unregistering the old client closes its
    queue a second time, which is a panic of the hub goroutine. *)
Theorem ws_unregister_after_eviction_and_reconnect_panics
    ws order sid uid m c :
  ws_wf ws →
  order ≡ₚ (map_to_list (clients ws)).*2 →
  registered c ws →
  ID c = sid +:+ "_" +:+ uid →
  SessionID c = sid →
  full_at (heap ws) (Send c) →
  ∃ ws1, Run_broadcast_in order sid m ws = Some ws1
    ∧ ¬ registered c ws1
    ∧ Run_unregister c ws1 = Some ws1
    ∧ Run_unregister c (HandleWebSocket sid uid ws1).2 = None.
Proof.
  intros Hwf Hp [k Hk] Hid Hs (ch & Hch & Hfull).
  destruct (Run_broadcast_in_keys ws order sid m Hwf Hp)
    as (ws1 & Hrun & Hwf1 & Hsub & Hdrop & Heff & _).
  destruct (proj1 Hwf _ _ Hk) as [Hidk _].
  pose proof (Heff k c ch Hk Hs Hch) as Hch1. rewrite Hfull in Hch1.
  assert (clients ws1 !! ID c = None) as Hnone.
  { rewrite Hidk. apply (Hdrop k c Hk). split; [done|]. by exists ch. }
  exists ws1. split; [done|]. split; [|split].
  - intros [k' Hk']. destruct (proj1 Hwf1 _ _ Hk') as [Hid' _]. congruence.
  - unfold Run_unregister. by rewrite Hnone.
  - rewrite HandleWebSocket_eq. unfold Run_unregister. simpl.
    rewrite Hid, lookup_insert_eq. unfold close_chan.
    rewrite lookup_insert_ne.
    + by rewrite Hch1.
    + intros Heq. pose proof (make_chan_fresh 256 (heap ws1)) as Hfr.
      simpl in Hfr, Heq. rewrite Heq in Hfr. congruence.
Qed.

(** X19. [GetClientCount] of the WebSocket hub after [HandleWebSocket]:
    one more when the user had no registered connection to the session,
    and unchanged when the user already had one. *)
Theorem ws_second_tab_does_not_count ws sid uid :
  let id := sid +:+ "_" +:+ uid in
  (clients ws !! id = None →
   GetClientCount sid (HandleWebSocket sid uid ws).2
   = S (GetClientCount sid ws))
  ∧ (∀ c, clients ws !! id = Some c → SessionID c = sid →
          GetClientCount sid (HandleWebSocket sid uid ws).2
          = GetClientCount sid ws).
Proof.
  intros id. rewrite HandleWebSocket_eq. unfold GetClientCount. simpl.
  fold id. split.
  - intros Hnone. rewrite map_to_list_insert by done.
    rewrite filter_cons. simpl. by rewrite decide_True.
  - intros c Hc Hs.
    rewrite <- (insert_delete_eq (clients ws)).
    rewrite map_to_list_insert by apply lookup_delete_eq.
    rewrite <- (map_to_list_delete (clients ws) id c) by done.
    rewrite !filter_cons. simpl. by rewrite !decide_True.
Qed.

End MoreWebSocketHub.

Section MoreSSEHub.
Import SSEService.

Import SSEService.

Lemma AddClient_eq sid uid nanos s :
  AddClient sid uid nanos s
  = (mkSSEClient (sid +:+ "_" +:+ uid +:+ "_" +:+ pretty nanos) sid uid
       (make_chan 10 (heap s)).1,
     mk (<[sid +:+ "_" +:+ uid +:+ "_" +:+ pretty nanos :=
             mkSSEClient (sid +:+ "_" +:+ uid +:+ "_" +:+ pretty nanos)
               sid uid (make_chan 10 (heap s)).1]> (clients s))
        (<[(make_chan 10 (heap s)).1 := Chan.mk [] 10 false]> (heap s))).
Proof. done. Qed.

(** X20. [AddClient] of the SSE hub under an id that is not in the map:
    the hub stays well-formed, the new client is registered with an empty
    open queue, every client registered before stays registered with its
    queue untouched, and the client count of the session goes up by
    one. *)
Theorem sse_AddClient_registers_beside_the_others s sid uid nanos :
  sse_wf s →
  clients s !! (sid +:+ "_" +:+ uid +:+ "_" +:+ pretty nanos) = None →
  sse_wf (AddClient sid uid nanos s).2
  ∧ registered (AddClient sid uid nanos s).1 (AddClient sid uid nanos s).2
  ∧ queue (AddClient sid uid nanos s).1 (AddClient sid uid nanos s).2
    = Some []
  ∧ (∀ c, registered c s →
          registered c (AddClient sid uid nanos s).2
          ∧ queue c (AddClient sid uid nanos s).2 = queue c s)
  ∧ GetClientCount sid (AddClient sid uid nanos s).2
    = S (GetClientCount sid s).
Proof.
  intros [Hkey Hinj] Hnone. rewrite AddClient_eq. simpl.
  pose proof (make_chan_fresh 10 (heap s)) as Hfresh.
  set (a := (make_chan 10 (heap s)).1) in *.
  set (id := sid +:+ "_" +:+ uid +:+ "_" +:+ pretty nanos) in *.
  assert (∀ k c, clients s !! k = Some c → Channel c ≠ a) as Hold.
  { intros k c Hk Heq. destruct (Hkey k c Hk) as (_ & ch & Hch & _).
    rewrite Heq in Hch. congruence. }
  split; [|split; [|split; [|split]]].
  - split.
    + intros k c. simpl. destruct (decide (id = k)) as [<-|Hne].
      * rewrite lookup_insert_eq. intros [= <-]. simpl. split; [done|].
        eexists. by rewrite lookup_insert_eq.
      * rewrite lookup_insert_ne by done. intros Hk.
        destruct (Hkey k c Hk) as (? & ch & Hch & ?). split; [done|].
        exists ch. split; [|done]. rewrite lookup_insert_ne; [done|].
        intros Heq. by apply (Hold k c).
    + intros k1 k2 c1 c2. simpl.
      destruct (decide (id = k1)) as [<-|Hne1],
               (decide (id = k2)) as [<-|Hne2]; [done|..].
      * rewrite lookup_insert_eq, lookup_insert_ne by done.
        intros [= <-] Hk2 Heq. simpl in Heq. by destruct (Hold k2 c2).
      * rewrite lookup_insert_eq, lookup_insert_ne by done.
        intros Hk1 [= <-] Heq. simpl in Heq. by destruct (Hold k1 c1).
      * rewrite !lookup_insert_ne by done. apply Hinj.
  - exists id. simpl. by rewrite lookup_insert_eq.
  - unfold queue. simpl. by rewrite lookup_insert_eq.
  - intros c [k Hk]. split.
    + exists k. simpl. rewrite lookup_insert_ne; [done|]. congruence.
    + unfold queue. simpl. rewrite lookup_insert_ne; [done|].
      intros Heq. by apply (Hold k c).
  - unfold GetClientCount. simpl. rewrite map_to_list_insert by done.
    rewrite filter_cons. simpl. by rewrite decide_True.
Qed.

(** X21. In the SSE hub two connections of one user to one session, made
    at different readings of the clock under ids that are not in the map,
    are two distinct registered clients with distinct, empty queues, and
    the client count of the session goes up by two. *)
Theorem sse_two_tabs_are_two_clients s sid uid n1 n2 :
  n1 ≠ n2 →
  clients s !! (sid +:+ "_" +:+ uid +:+ "_" +:+ pretty n1) = None →
  clients s !! (sid +:+ "_" +:+ uid +:+ "_" +:+ pretty n2) = None →
  let r1 := AddClient sid uid n1 s in
  let r2 := AddClient sid uid n2 r1.2 in
  r1.1 ≠ r2.1
  ∧ registered r1.1 r2.2 ∧ registered r2.1 r2.2
  ∧ Channel r1.1 ≠ Channel r2.1
  ∧ queue r1.1 r2.2 = Some [] ∧ queue r2.1 r2.2 = Some []
  ∧ GetClientCount sid r2.2 = S (S (GetClientCount sid s)).
Proof.
  intros Hne H1 H2 r1 r2.
  assert (sid +:+ "_" +:+ uid +:+ "_" +:+ pretty n2
          ≠ sid +:+ "_" +:+ uid +:+ "_" +:+ pretty n1) as Hid.
  { intros Heq. do 4 apply (inj (String.app _)) in Heq.
    by apply (inj pretty) in Heq. }
  unfold r2, r1. rewrite !AddClient_eq. cbn [fst snd clients heap Channel].
  set (id1 := sid +:+ "_" +:+ uid +:+ "_" +:+ pretty n1) in *.
  set (id2 := sid +:+ "_" +:+ uid +:+ "_" +:+ pretty n2) in *.
  set (a1 := (make_chan 10 (heap s)).1).
  set (h1 := <[a1 := Chan.mk [] 10 false]> (heap s)).
  set (a2 := (make_chan 10 h1).1).
  assert (a1 ≠ a2) as Ha.
  { intros Heq. pose proof (make_chan_fresh 10 h1) as Hfr. fold a2 in Hfr.
    rewrite <- Heq in Hfr. unfold h1 in Hfr.
    by rewrite lookup_insert_eq in Hfr. }
  split; [|split; [|split; [|split; [done|split; [|split]]]]].
  - intros [= Heq _]. by destruct Hid.
  - exists id1. cbn [clients]. rewrite lookup_insert_ne by done.
    by rewrite lookup_insert_eq.
  - exists id2. cbn [clients]. by rewrite lookup_insert_eq.
  - unfold queue. cbn [heap Channel]. rewrite lookup_insert_ne by done.
    unfold h1. by rewrite lookup_insert_eq.
  - unfold queue. cbn [heap Channel]. by rewrite lookup_insert_eq.
  - unfold GetClientCount. cbn [clients].
    rewrite map_to_list_insert by (by rewrite lookup_insert_ne).
    rewrite filter_cons. cbn [snd SessionID]. rewrite decide_True by done.
    rewrite map_to_list_insert by done.
    rewrite filter_cons. cbn [snd SessionID]. by rewrite decide_True.
Qed.

(** X22. A broadcast of the SSE hub on a well-formed registry, with
    nobody draining the queues: it does not panic, waits one drop timeout
    of 100 ms for each registered connection of the session whose queue is
    full, unregisters nobody, leaves full queues as they are, appends the
    message to the other queues of the session and leaves the queues of
    other sessions untouched. *)
Theorem sse_broadcast_waits_for_each_full_queue s order sid m :
  sse_wf s →
  order ≡ₚ (map_to_list (clients s)).*2 →
  ∃ s',
    Broadcast_in order sid m (s, 0)
    = Some (s', drop_timeout_ms
                * Z.of_nat (length
                    (filter (λ c, SessionID c = sid
                                  ∧ is_full (heap s) (Channel c) = true)
                            order)))
    ∧ clients s' = clients s
    ∧ sse_wf s'
    ∧ (∀ c ch, registered c s → SessionID c = sid →
               heap s !! Channel c = Some ch →
               heap s' !! Channel c
               = Some (if Chan.full ch then ch else pushed m ch))
    ∧ (∀ c, registered c s → SessionID c ≠ sid →
            heap s' !! Channel c = heap s !! Channel c).
Proof.
  intros Hwf Hperm.
  pose proof (sse_wf_NoDup s Hwf) as Hnd. rewrite <- Hperm in Hnd.
  assert (∀ c, c ∈ order ↔ registered c s) as Hreg.
  { intros c. rewrite sse_registered_elem.
    split; apply Permutation_elem; done. }
  assert (∀ c, c ∈ order → open_at (heap s) (Channel c)) as Hopen.
  { intros c [k Hk]%Hreg. by apply (proj1 Hwf k c). }
  destruct (Broadcast_in_spec sid m order s 0 Hnd Hopen)
    as (s' & Hrun & Hcl & Hfr & Heff).
  exists s'. split; [|split; [done|split; [|split]]].
  - rewrite Hrun. do 3 f_equal. rewrite Z.add_0_l. do 3 f_equal.
    apply filter_ext_elem. intros c Hin.
    destruct (Hopen c Hin) as (ch & Hch & Hc).
    unfold not_ready, is_full. rewrite Hch, Hc. simpl. done.
  - assert (∀ c, registered c s → SessionID c ≠ sid →
                 heap s' !! Channel c = heap s !! Channel c) as Hother.
    { intros c [k Hk] Hs. apply Hfr.
      intros (c' & Heq & Hin)%list_elem_of_fmap.
      apply list_elem_of_filter in Hin as [Hs' Hin].
      apply Hreg in Hin as [k' Hk'].
      assert (k = k') as -> by by eapply (proj2 Hwf).
      congruence. }
    split.
    + intros k c. rewrite Hcl. intros Hk.
      destruct (proj1 Hwf _ _ Hk) as (Hid & ch & Hch & Hc).
      split; [done|]. unfold open_at.
      destruct (decide (SessionID c = sid)) as [Hs|Hs].
      * rewrite (Heff c ch); [|apply Hreg; by exists k|done..].
        eexists. split; [done|]. by destruct (Chan.full ch).
      * exists ch. rewrite Hother; [done|by exists k|done].
    + intros k1 k2 c1 c2. rewrite Hcl. apply (proj2 Hwf).
  - intros c ch Hc Hs Hch. apply Heff; [by apply Hreg|done..].
  - intros c [k Hk] Hs. apply Hfr.
    intros (c' & Heq & Hin)%list_elem_of_fmap.
    apply list_elem_of_filter in Hin as [Hs' Hin].
    apply Hreg in Hin as [k' Hk'].
    assert (k = k') as -> by by eapply (proj2 Hwf).
    congruence.
Qed.

End MoreSSEHub.

(** * Vote statistics *)

Section Statistics.
Import Handler.

Import Handler.

Lemma parseVoteValue_card v :
  (v ∈ FibonacciCards → pretty (parseVoteValue v) = v)
  ∧ (v ∉ FibonacciCards → parseVoteValue v = -1).
Proof.
  unfold FibonacciCards. split.
  - intros Hin.
    repeat (apply elem_of_cons in Hin as [->|Hin]; [by vm_compute|]).
    by apply elem_of_nil in Hin.
  - intros Hn. unfold parseVoteValue.
    repeat match goal with
           | |- context [String.eqb v ?c] =>
               destruct (String.eqb_spec v c) as [->|_];
               [destruct Hn;
                repeat first [apply list_elem_of_here
                             |apply list_elem_of_further]|]
           end.
    done.
Qed.

Lemma parseVoteValue_nonneg v :
  v ∈ FibonacciCards → 0 ≤ parseVoteValue v.
Proof.
  unfold FibonacciCards. intros Hv.
  repeat (apply elem_of_cons in Hv as [->|Hv]; [by vm_compute|]).
  by apply elem_of_nil in Hv.
Qed.

(** X23. [parseVoteValue] is non-negative exactly on the twelve
    Fibonacci cards, on which it is the number the card spells, and is -1
    on every other string. *)
Theorem parseVoteValue_reads_the_numeric_cards v :
  (0 ≤ parseVoteValue v ↔ v ∈ FibonacciCards)
  ∧ (0 ≤ parseVoteValue v → pretty (parseVoteValue v) = v)
  ∧ (v ∉ FibonacciCards → parseVoteValue v = -1).
Proof.
  destruct (parseVoteValue_card v) as [Hin Hout].
  destruct (decide (v ∈ FibonacciCards)) as [Hv|Hv].
  - split; [|split; [by auto|done]]. split; [done|]. intros _.
    by apply parseVoteValue_nonneg.
  - rewrite (Hout Hv). split; [|split; [lia|done]]. split; [lia|done].
Qed.

Lemma numericVotes_elem votes x :
  x ∈ numericVotes votes ↔
  ∃ vote, vote ∈ votes ∧ Vote.VoteValue vote ∈ FibonacciCards
          ∧ x = parseVoteValue (Vote.VoteValue vote).
Proof.
  unfold numericVotes. rewrite list_elem_of_bind. split.
  - intros (vote & Hx & Hin). exists vote. split; [done|].
    destruct (existsb _ _) eqn:E; [|by apply elem_of_nil in Hx].
    apply existsb_exists in E as (c & Hc & Heq%String.eqb_eq).
    apply list_elem_of_In in Hc. rewrite <- Heq in Hc.
    destruct (0 <=? _); [|by apply elem_of_nil in Hx].
    apply list_elem_of_singleton in Hx. split; [exact Hc|done].
  - intros (vote & Hin & Hc & ->). exists vote. split; [|done].
    destruct (existsb _ _) eqn:E.
    + rewrite (proj2 (Z.leb_le _ _) (parseVoteValue_nonneg _ Hc)).
      apply list_elem_of_here.
    + exfalso. apply not_true_iff_false in E. apply E.
      apply existsb_exists. exists (Vote.VoteValue vote).
      split; [by apply list_elem_of_In|apply String.eqb_refl].
Qed.

Lemma length_filter_all {A} (P : A → Prop) `{!∀ x, Decision (P x)}
    (l : list A) :
  Forall P l → length (filter P l) = length l.
Proof.
  induction 1 as [|x l Hx Hl IH]; [done|].
  rewrite filter_cons, decide_True by done. simpl. by rewrite IH.
Qed.

Lemma sorted_middle (s : list Z) (i : nat) (m : Z) :
  StronglySorted Z.le s → s !! i = Some m →
  (i + 1 ≤ length (filter (λ x, (x ≤ m)%Z) s))%nat
  ∧ (length s - i ≤ length (filter (λ x, (m ≤ x)%Z) s))%nat.
Proof.
  intros Hs Hi.
  pose proof (take_drop_middle s i m Hi) as Hsplit.
  pose proof (lookup_lt_Some _ _ _ Hi) as Hlt.
  rewrite <- Hsplit in Hs.
  assert (Forall (λ x, x ≤ m) (take i s)) as Hpre.
  { apply Forall_forall. intros x Hx.
    apply (StronglySorted_app_1_elem_of _ _ _ x m Hs Hx).
    apply list_elem_of_here. }
  assert (Forall (λ x, m ≤ x) (drop (S i) s)) as Hpost.
  { apply StronglySorted_app_1_r in Hs.
    by apply StronglySorted_inv in Hs as [_ Hall]. }
  rewrite <- Hsplit at 1 3. rewrite !filter_app, !filter_cons.
  rewrite !decide_True by lia. rewrite !length_app. simpl.
  rewrite (length_filter_all _ _ Hpre), (length_filter_all _ _ Hpost).
  rewrite length_take, length_drop. split; lia.
Qed.

Lemma merge_sort_Z_sorted (l : list Z) :
  StronglySorted Z.le (merge_sort Z.le l).
Proof.
  apply StronglySorted_merge_sort.
  - intros x y z. lia.
  - intros x y. lia.
Qed.

(** X24. [calculateVoteMedian] returns nil exactly when no vote carries a
    numeric card; otherwise it returns the number of a numeric card some
    vote carries, such that at least half of the numeric votes are not
    above it and more than half of them are not below it (of the two
    middle values of an even number of votes, the lower one). *)
Theorem calculateVoteMedian_is_the_lower_median votes :
  (calculateVoteMedian votes = None ↔ numericVotes votes = [])
  ∧ ∀ m, calculateVoteMedian votes = Some m →
      (∃ vote, vote ∈ votes ∧ Vote.VoteValue vote ∈ FibonacciCards
               ∧ m = parseVoteValue (Vote.VoteValue vote))
      ∧ (length (numericVotes votes)
         ≤ 2 * length (filter (λ x, (x ≤ m)%Z) (numericVotes votes)))%nat
      ∧ (length (numericVotes votes)
         < 2 * length (filter (λ x, (m ≤ x)%Z) (numericVotes votes)))%nat.
Proof.
  unfold calculateVoteMedian.
  case_bool_decide as Hv.
  { apply nil_length_inv in Hv. subst. by split. }
  case_bool_decide as Hn.
  { apply nil_length_inv in Hn. rewrite Hn. by split. }
  set (numeric := numericVotes votes) in *.
  pose proof (merge_sort_Permutation Z.le numeric) as Hperm.
  pose proof (merge_sort_Z_sorted numeric) as Hsorted.
  set (sorted := merge_sort Z.le numeric) in *.
  assert (length sorted = length numeric) as Hlen by by rewrite Hperm.
  set (i := if Z.of_nat (length sorted) `rem` 2 =? 0
            then Z.to_nat (Z.of_nat (length sorted) `quot` 2 - 1)
            else Z.to_nat (Z.of_nat (length sorted) `quot` 2)).
  assert ((if Z.of_nat (length sorted) `rem` 2 =? 0
           then sorted !! Z.to_nat (Z.of_nat (length sorted) `quot` 2 - 1)
           else sorted !! Z.to_nat (Z.of_nat (length sorted) `quot` 2))
          = sorted !! i) as -> by (unfold i; by destruct (_ =? _)).
  assert (length sorted ≤ 2 * (i + 1)
          ∧ length sorted < 2 * (length sorted - i))%nat as [Hi1 Hi2].
  { unfold i. destruct (_ =? _) eqn:E.
    - apply Z.eqb_eq in E. Z.to_euclidean_division_equations. lia.
    - apply Z.eqb_neq in E. Z.to_euclidean_division_equations. lia. }
  destruct (sorted !! i) as [m|] eqn:Hi.
  2:{ apply lookup_ge_None in Hi. lia. }
  split.
  - split; [done|]. intros Hnil. by rewrite Hnil in Hn.
  - intros m' [= <-].
    destruct (sorted_middle sorted i m Hsorted Hi) as [Hle Hge].
    split; [|split].
    + apply numericVotes_elem. fold numeric. rewrite <- Hperm.
      by eapply list_elem_of_lookup_2.
    + rewrite <- Hlen. rewrite <- Hperm. lia.
    + rewrite <- Hlen. rewrite <- Hperm. lia.
Qed.

(** X25. [calculateVoteMedian] does not depend on the order of the
    votes. *)
Theorem calculateVoteMedian_ignores_the_order votes votes' :
  votes ≡ₚ votes' → calculateVoteMedian votes = calculateVoteMedian votes'.
Proof.
  intros Hp. unfold calculateVoteMedian.
  assert (numericVotes votes ≡ₚ numericVotes votes') as Hnp
    by (unfold numericVotes; by rewrite Hp).
  assert (merge_sort Z.le (numericVotes votes)
          = merge_sort Z.le (numericVotes votes')) as Hs.
  { apply (StronglySorted_unique Z.le); try apply merge_sort_Z_sorted.
    by rewrite !merge_sort_Permutation. }
  rewrite Hs. rewrite (Permutation_length Hp), (Permutation_length Hnp). done.
Qed.

Import Handler.

Lemma count_votes_snoc votes vote :
  count_votes (votes ++ [vote])
  = <[Vote.VoteValue vote :=
        default 0 (count_votes votes !! Vote.VoteValue vote) + 1]>
      (count_votes votes).
Proof. unfold count_votes. by rewrite foldl_app. Qed.

(** The map counts the votes of each value and holds no zero entry. *)
Lemma count_votes_lookup votes v :
  count_votes votes !! v
  = (let n := length (filter (λ vote, Vote.VoteValue vote = v) votes) in
     if decide (n = 0%nat) then None else Some (Z.of_nat n)).
Proof.
  induction votes as [|vote votes IH] using rev_ind; [done|].
  rewrite count_votes_snoc, filter_app, filter_cons, filter_nil, length_app.
  destruct (decide (Vote.VoteValue vote = v)) as [->|Hne].
  - rewrite lookup_insert_eq, IH. simpl.
    destruct (decide (length _ = 0%nat)) as [->|Hn]; simpl.
    + done.
    + rewrite decide_False by lia. f_equal. lia.
  - rewrite lookup_insert_ne, IH by done. simpl. by rewrite Nat.add_0_r.
Qed.

Lemma foldr_add_perm (l l' : list Z) :
  l ≡ₚ l' → foldr Z.add 0 l = foldr Z.add 0 l'.
Proof. induction 1; simpl; lia. Qed.

Lemma count_votes_sum votes :
  foldr Z.add 0 (map_to_list (count_votes votes)).*2
  = Z.of_nat (length votes).
Proof.
  induction votes as [|vote votes IH] using rev_ind; [done|].
  rewrite count_votes_snoc, length_app, Nat2Z.inj_add, <- IH. simpl.
  set (m := count_votes votes) in *. set (v := Vote.VoteValue vote).
  rewrite <- (insert_delete_eq m).
  erewrite foldr_add_perm;
    [|apply fmap_Permutation, map_to_list_insert, lookup_delete_eq].
  rewrite fmap_cons. cbn [foldr snd length].
  destruct (m !! v) as [c|] eqn:Hc; cbn [default].
  - rewrite (foldr_add_perm (map_to_list m).*2
               ((v, c) :: map_to_list (delete v m)).*2).
    + rewrite fmap_cons. cbn [foldr snd]. unfold id. lia.
    + apply fmap_Permutation. symmetry. by apply map_to_list_delete.
  - rewrite delete_id by done. lia.
Qed.

Lemma pct_sum_bounds (l : list (string * Z)) (T : Z) :
  0 < T → Forall (λ kc, 0 ≤ kc.2) l →
  T * foldr Z.add 0 ((λ kc, (kc.2 * 100) `quot` T) <$> l)
  ≤ 100 * foldr Z.add 0 l.*2
  ∧ 100 * foldr Z.add 0 l.*2 - T * Z.of_nat (length l) + Z.of_nat (length l)
    ≤ T * foldr Z.add 0 ((λ kc, (kc.2 * 100) `quot` T) <$> l).
Proof.
  intros HT. induction 1 as [|[k c] l Hc Hl IH]; [simpl; lia|].
  cbn [fmap list_fmap foldr length snd] in *.
  destruct IH as [IH1 IH2].
  assert (T * ((c * 100) `quot` T) ≤ c * 100
          ∧ c * 100 - T + 1 ≤ T * ((c * 100) `quot` T)) as [H1 H2].
  { rewrite Z.quot_div_nonneg by lia.
    pose proof (Z.div_mod (c * 100) T). pose proof (Z.mod_pos_bound (c * 100) T).
    lia. }
  split; lia.
Qed.

Lemma omap_all {A B} (f : A → option B) (g : A → B) (l : list A) :
  Forall (λ x, f x = Some (g x)) l → omap f l = g <$> l.
Proof.
  induction 1 as [|x l Hx Hl IH]; [done|].
  cbn [omap list_omap]. by rewrite Hx, IH.
Qed.

Lemma calculateVoteHistogram_eq votes :
  calculateVoteHistogram votes
  = (λ kc, mkVoteCount kc.1 kc.2
             ((kc.2 * 100) `quot` Z.of_nat (length votes)))
    <$> map_to_list (count_votes votes).
Proof.
  unfold calculateVoteHistogram. apply omap_all, Forall_forall.
  intros [v c] Hin%elem_of_map_to_list. rewrite count_votes_lookup in Hin.
  simpl in Hin. destruct (decide _) as [|Hn]; [done|].
  injection Hin as <-.
  assert (0 < length votes)%nat.
  { pose proof (length_filter (λ vote, Vote.VoteValue vote = v) votes). lia. }
  simpl. rewrite (proj2 (Z.ltb_lt _ _)) by lia.
  by rewrite (proj2 (Z.ltb_lt _ _)) by lia.
Qed.

(** X26. [calculateVoteHistogram] has one entry for each value that
    occurs among the votes and no other; the count of an entry is the
    number of votes with its value, its percentage is the count times 100
    divided by the number of votes, rounded down; the counts add up to the
    number of votes, and the percentages add up to at most 100 and to more
    than 100 minus the number of entries. *)
Theorem calculateVoteHistogram_counts_every_vote votes :
  let h := calculateVoteHistogram votes in
  let total := Z.of_nat (length votes) in
  NoDup (Value <$> h)
  ∧ (∀ e, e ∈ h →
       Count e = Z.of_nat (length (filter (λ vote, Vote.VoteValue vote
                                                   = Value e) votes))
       ∧ 1 ≤ Count e
       ∧ Percentage e = (Count e * 100) / total
       ∧ 0 ≤ Percentage e ≤ 100)
  ∧ (∀ vote, vote ∈ votes → Vote.VoteValue vote ∈ Value <$> h)
  ∧ foldr Z.add 0 (Count <$> h) = total
  ∧ foldr Z.add 0 (Percentage <$> h) ≤ 100
  ∧ (h ≠ [] → 100 - Z.of_nat (length h) < foldr Z.add 0 (Percentage <$> h)).
Proof.
  intros h total. unfold h. rewrite calculateVoteHistogram_eq.
  set (l := map_to_list (count_votes votes)).
  assert (∀ v c, (v, c) ∈ l →
            c = Z.of_nat (length (filter (λ vote, Vote.VoteValue vote = v)
                                    votes)) ∧ 1 ≤ c ≤ total) as Hl.
  { intros v c Hin%elem_of_map_to_list. rewrite count_votes_lookup in Hin.
    simpl in Hin. destruct (decide _) as [|Hn]; [done|].
    injection Hin as <-. split; [done|].
    pose proof (length_filter (λ vote, Vote.VoteValue vote = v) votes).
    unfold total. lia. }
  assert (Forall (λ kc : string * Z, 0 ≤ kc.2) l) as Hpos.
  { apply Forall_forall. intros [v c] Hin. destruct (Hl v c Hin). simpl. lia. }
  rewrite <- !list_fmap_compose.
  assert (Count ∘ (λ kc : string * Z, mkVoteCount kc.1 kc.2
                     ((kc.2 * 100) `quot` Z.of_nat (length votes)))
          <$> l = l.*2) as -> by done.
  assert (Value ∘ (λ kc : string * Z, mkVoteCount kc.1 kc.2
                     ((kc.2 * 100) `quot` Z.of_nat (length votes)))
          <$> l = l.*1) as -> by done.
  assert (Percentage ∘ (λ kc : string * Z, mkVoteCount kc.1 kc.2
                          ((kc.2 * 100) `quot` Z.of_nat (length votes)))
          <$> l = (λ kc, (kc.2 * 100) `quot` total) <$> l) as -> by done.
  pose proof (count_votes_sum votes) as Hsum. fold l total in Hsum.
  assert (NoDup l.*1) as Hnd by apply NoDup_fst_map_to_list.
  assert (∀ vote, vote ∈ votes → Vote.VoteValue vote ∈ l.*1) as Hall.
  { intros vote Hin. apply list_elem_of_fmap.
    exists (Vote.VoteValue vote,
            Z.of_nat (length (filter (λ v', Vote.VoteValue v'
                                            = Vote.VoteValue vote) votes))).
    split; [done|]. apply elem_of_map_to_list.
    rewrite count_votes_lookup. simpl.
    rewrite decide_False; [done|].
    intros Hz%nil_length_inv.
    assert (vote ∈ filter (λ v', Vote.VoteValue v' = Vote.VoteValue vote)
                     votes) as Hf by by apply list_elem_of_filter.
    rewrite Hz in Hf. by apply elem_of_nil in Hf. }
  clearbody l.
  split; [done|].
  split; [|split; [|split; [done|]]].
  - intros e ([v c] & -> & Hin)%list_elem_of_fmap. simpl.
    destruct (Hl v c Hin) as [Hc Hb]. split; [done|]. split; [lia|].
    rewrite Z.quot_div_nonneg by lia. split; [done|].
    split; [apply Z.div_pos; lia|].
    apply Z.div_le_upper_bound; lia.
  - done.
  - destruct (decide (0 < total)) as [HT|HT].
    + destruct (pct_sum_bounds l total HT Hpos) as [H1 H2].
      rewrite Hsum in H1, H2. rewrite length_fmap. split; [nia|].
      intros Hne. assert (0 < length l)%nat by (destruct l; [done|simpl; lia]).
      nia.
    + assert (l = []) as ->.
      { destruct l as [|[v c] l']; [done|].
        destruct (Hl v c); [apply list_elem_of_here|lia]. }
      simpl. split; [lia|done].
Qed.

End Statistics.

(** * The middleware chain *)

Section Chain.
Context `{GoStd}.

Lemma serve_unauthenticated db r :
  ctx_user r = None →
  serve db r = mkResult (Response 401 "Unauthorized") db [].
Proof.
  intros Hu. unfold_handlers. rewrite Hu. by destruct (op r).
Qed.

Lemma GetUserByID_Some db uid row :
  users db !! uid = Some row →
  UserService.GetUserByID db uid
  = Some (User.mk uid (u_username row) (u_created_at row) (u_last_seen row)).
Proof. intros Hr. unfold UserService.GetUserByID. by rewrite Hr. Qed.

(** Refreshing [last_seen] changes nothing a handler reads. *)
Lemma vote_of_row_UpdateLastSeen db now uid r :
  VotingService.vote_of_row (UserService.UpdateLastSeen now uid db).2 r
  = VotingService.vote_of_row db r.
Proof.
  unfold VotingService.vote_of_row, UserService.UpdateLastSeen. simpl.
  destruct (decide (uid = v_user_id r)) as [->|Hne].
  - rewrite lookup_alter_eq. by destruct (users db !! v_user_id r).
  - by rewrite lookup_alter_ne.
Qed.

Lemma GetVotesForTicket_UpdateLastSeen db now uid tid :
  VotingService.GetVotesForTicket (UserService.UpdateLastSeen now uid db).2 tid
  = VotingService.GetVotesForTicket db tid.
Proof.
  unfold VotingService.GetVotesForTicket.
  change (votes (UserService.UpdateLastSeen now uid db).2) with (votes db).
  induction (order_by _ _) as [|a l IH]; [done|].
  cbn [omap list_omap]. by rewrite IH, vote_of_row_UpdateLastSeen.
Qed.

Lemma GetSessionByID_UpdateLastSeen db now uid sid :
  SessionService.GetSessionByID (UserService.UpdateLastSeen now uid db).2 sid
  = SessionService.GetSessionByID db sid.
Proof.
  unfold SessionService.GetSessionByID.
  change (sessions (UserService.UpdateLastSeen now uid db).2)
    with (sessions db).
  assert (SessionService.getSessionTickets
            (UserService.UpdateLastSeen now uid db).2 sid
          = SessionService.getSessionTickets db sid) as ->; [|done].
  unfold SessionService.getSessionTickets.
  change (tickets (UserService.UpdateLastSeen now uid db).2)
    with (tickets db).
  induction (order_by _ _) as [|[id r] l IH]; [done|].
  rewrite !fmap_cons, IH. f_equal. unfold SessionService.ticket_of_row.
  f_equal. apply GetVotesForTicket_UpdateLastSeen.
Qed.

(** X27. Through the middleware chain a vote needs nothing but a current
    ticket: with a cookie that names an existing user, a votable card, a
    readable session and working storage the answer is 200 exactly when
    the session has a current ticket, and 400 without any effect on the
    tables of the handlers otherwise; the cookie is renewed for six hours
    and [last_seen] of the user is set to the time of the request. *)
Theorem ServeHTTP_vote_needs_only_a_current_ticket db h raw uid urow s :
  cookie h = Some uid →
  users db !! uid = Some urow →
  fail_GetUserByID h = false →
  op (inner h) = OpSubmitVote raw →
  valid_card (utils.SanitizeInput raw) →
  SessionService.GetSessionByID db (sessionID (inner h)) = Some s →
  (∀ k, fails (inner h) k = false) →
  (outcome (ServeHTTP db h).1 = Response 200 ""
   ↔ Session.CurrentTicket s ≠ None)
  ∧ (Session.CurrentTicket s = None →
     outcome (ServeHTTP db h).1 = Response 400 "No active ticket"
     ∧ events (effects (ServeHTTP db h).1) = []
     ∧ same_tables db (db_after (ServeHTTP db h).1))
  ∧ (ServeHTTP db h).2 = CookieRenewed uid (6 * 3600)
  ∧ (fail_UpdateLastSeen h = false →
     users (db_after (ServeHTTP db h).1) !! uid
     = Some (mkUserRow (u_username urow) (u_created_at urow)
               (now (inner h)))).
Proof.
  intros Hc Hu Hfg Ho [Hv1 Hv2] Hs Hf.
  unfold ServeHTTP, SessionMiddleware.
  rewrite Hc, Hfg, (GetUserByID_Some _ _ _ Hu). cbn [User.ID].
  set (db1 := if fail_UpdateLastSeen h then db
              else (UserService.UpdateLastSeen (now (inner h)) uid db).2).
  assert (SessionService.GetSessionByID db1 (sessionID (inner h)) = Some s)
    as Hs1.
  { unfold db1. destruct (fail_UpdateLastSeen h); [done|].
    by rewrite GetSessionByID_UpdateLastSeen. }
  assert (is_Some (users db1 !! uid)) as Hu1.
  { unfold db1. destruct (fail_UpdateLastSeen h); [by eexists|].
    unfold UserService.UpdateLastSeen. simpl.
    rewrite lookup_alter_eq, Hu. by eexists. }
  assert (sessions db1 = sessions db ∧ tickets db1 = tickets db
          ∧ votes db1 = votes db) as Hsame.
  { unfold db1. by destruct (fail_UpdateLastSeen h). }
  assert (fail_UpdateLastSeen h = false →
          users db1 !! uid
          = Some (mkUserRow (u_username urow) (u_created_at urow)
                    (now (inner h)))) as Hseen.
  { intros Hfu. unfold db1. rewrite Hfu.
    unfold UserService.UpdateLastSeen. simpl.
    by rewrite lookup_alter_eq, Hu. }
  clearbody db1. cbn [fst snd outcome db_after effects].
  unfold_handlers. cbn [ctx_user with_user op sessionID now fails].
  rewrite Ho. simpl. rewrite Hv1, !Hf. simpl. rewrite Hs1. simpl.
  destruct (Session.CurrentTicket s) as [cur|] eqn:Hcur; simpl.
  - rewrite Hv2. simpl.
    destruct (current_ticket_row _ _ _ _ Hs1 Hcur) as (_ & row & Hrow & _).
    rewrite SubmitVote_ok by (done || by eexists). simpl.
    repeat split; try done.
  - repeat split; try done; try (by intros []); by apply Hsame.
Qed.

(** X28. Through the middleware chain a request without cookie, with a
    cookie that names no user, or whose user lookup fails, is answered
    with 401 on each of the nine routes, leaves the database as it was and
    broadcasts nothing; a cookie that was presented is cleared. *)
Theorem ServeHTTP_without_user_is_unauthorized db h :
  (cookie h = None
   ∨ fail_GetUserByID h = true
   ∨ ∃ v, cookie h = Some v ∧ users db !! v = None) →
  outcome (ServeHTTP db h).1 = Response 401 "Unauthorized"
  ∧ db_after (ServeHTTP db h).1 = db
  ∧ effects (ServeHTTP db h).1 = []
  ∧ (ServeHTTP db h).2
    = (if cookie h is None then CookieUntouched else CookieCleared).
Proof.
  intros Hcase. unfold ServeHTTP, SessionMiddleware.
  destruct (cookie h) as [v|] eqn:Hc.
  - destruct (fail_GetUserByID h) eqn:Hfg.
    + cbn beta iota zeta. by rewrite serve_unauthenticated.
    + destruct Hcase as [?|[?|(v' & [= <-] & Hv)]]; try done.
      unfold UserService.GetUserByID. rewrite Hv.
      cbn beta iota zeta delta [mbind option_bind].
      by rewrite serve_unauthenticated.
  - cbn beta iota zeta. by rewrite serve_unauthenticated.
Qed.

End Chain.

(** ** A check of the position invariant *)

Lemma positions_dense_check_sound db :
  positions_dense_check db = true → positions_dense db.
Proof.
  intros Hc sid. unfold dense.
  destruct (filter (λ kr : Z * TicketRow, t_session_id kr.2 = sid)
              (map_to_list (tickets db))) as [|kr l] eqn:E.
  { unfold positions. by rewrite E. }
  assert (kr ∈ filter (λ kr : Z * TicketRow, t_session_id kr.2 = sid)
                 (map_to_list (tickets db))) as Hin
    by (rewrite E; apply list_elem_of_here).
  apply list_elem_of_filter in Hin as [Hs Hin].
  unfold positions_dense_check in Hc. rewrite forallb_forall in Hc.
  specialize (Hc kr (proj1 (list_elem_of_In _ _) Hin)).
  apply bool_decide_eq_true in Hc. rewrite Hs in Hc.
  rewrite <- Hc. symmetry. apply merge_sort_Permutation.
Qed.

(** * Writes that are not validated or not undone *)

Section Writes.
Context `{GoStd}.

(** X29. A successful [UpdateTicket] stores the form fields as they were
    sent, neither sanitized nor validated: the title unless it is empty
    (an empty title keeps the old one), the description always, and the
    estimate when it parses as an integer; the position, the session and
    the creation time of the ticket and every other row stay as they
    were, and the updated ticket is the payload of the ticket-updated
    message. *)
Theorem UpdateTicket_stores_the_form_fields_as_sent
    db r u s raw id row title description estimateStr :
  op r = OpUpdateTicket raw title description estimateStr →
  ctx_user r = Some u →
  SessionService.GetSessionByID db (sessionID r) = Some s →
  Session.OwnerID s = User.ID u →
  (∀ k, fails r k = false) →
  Atoi raw = Some id →
  tickets db !! id = Some row →
  t_session_id row = sessionID r →
  tickets (db_after (serve db r)) !! id
  = Some (mkTicketRow (t_session_id row)
            (if decide (title = "") then t_title row else title)
            description
            (if decide (estimateStr = "") then t_final_estimate row
             else match Atoi estimateStr with
                  | Some e => Some e
                  | None => t_final_estimate row
                  end)
            (t_position row) (t_created_at row))
  ∧ (∀ j, j ≠ id → tickets (db_after (serve db r)) !! j = tickets db !! j)
  ∧ sessions (db_after (serve db r)) = sessions db
  ∧ votes (db_after (serve db r)) = votes db
  ∧ (∃ t, events (effects (serve db r))
          = [(sessionID r,
              SSEMessage.mk "ticket-updated" (DataTicket (Some t)))]
          ∧ Ticket.ID t = id ∧ Ticket.Description t = description)
  ∧ outcome (serve db r) = Response 303 ("/session/" +:+ sessionID r).
Proof.
  intros Ho Hu Hs Hown Hf Hid Hrow Hsess.
  unfold_handlers. rewrite Ho, Hu. simpl. rewrite Hid, !Hf. simpl.
  rewrite Hs. simpl.
  destruct (decide (Session.OwnerID s ≠ _)) as [Hne|_]; [by destruct Hne|].
  rewrite ?Hf. simpl. unfold TicketService.GetTicketByID. rewrite Hrow.
  simpl.
  destruct (decide (t_session_id row ≠ _)) as [Hne|_]; [by destruct Hne|].
  rewrite ?Hf. unfold TicketService.UpdateTicket. simpl.
  rewrite lookup_alter_eq, Hrow. simpl.
  split; [|split; [|split; [done|split; [done|split; [|done]]]]].
  - destruct (decide (title ≠ "")), (decide (title = "")),
      (decide (estimateStr ≠ "")), (decide (estimateStr = ""));
      try done; by destruct (Atoi estimateStr).
  - intros j Hj. by rewrite lookup_alter_ne.
  - eexists. split; [reflexivity|]. done.
Qed.

(** X30. [StartVoting] writes the session row before it clears the
    votes, outside any transaction: when the clearing fails the answer is
    500 and nothing is broadcast, yet the voting flag of the session is
    already set in the database, and the old votes are still there. *)
Theorem StartVoting_failure_after_update_leaves_flag_set db r u s cur :
  op r = OpStartVoting →
  ctx_user r = Some u →
  SessionService.GetSessionByID db (sessionID r) = Some s →
  Session.OwnerID s = User.ID u →
  Session.CurrentTicket s = Some cur →
  fails r KGetSessionByID = false →
  fails r KUpdateSession = false →
  fails r KClearVotesForTicket = true →
  outcome (serve db r) = Response 500 "Failed to clear votes"
  ∧ events (effects (serve db r)) = []
  ∧ (∃ row, sessions (db_after (serve db r)) !! sessionID r = Some row
            ∧ s_is_voting_active row = true)
  ∧ votes (db_after (serve db r)) = votes db.
Proof.
  intros Ho Hu Hs Hown Hcur Hf1 Hf2 Hf3.
  pose proof (GetSessionByID_Some _ _ _ Hs) as (row & Hrow & Hid & _).
  unfold_handlers. rewrite Ho, Hu. simpl. rewrite Hf1. simpl. rewrite Hs.
  simpl. destruct (decide _) as [Hne|_]; [by destruct Hne|].
  rewrite Hcur. simpl. rewrite Hf2. simpl. rewrite Hf3. simpl.
  repeat split; try done.
  unfold SessionService.UpdateSession. simpl.
  rewrite Hid, lookup_alter_eq, Hrow. simpl. eauto.
Qed.

End Writes.

(** * Instances of the properties above on the sample data *)

Lemma rejection_changes_nothing_witness :
  let r := request bob OpStartVoting 11 in
  db_after (@serve plain_GoStd selected_db r) = selected_db
  ∧ events (effects (@serve plain_GoStd selected_db r)) = [].
Proof.
  apply (@rejection_changes_nothing plain_GoStd selected_db
           (request bob OpStartVoting 11)).
  exists 403, "Only session owner can start voting".
  split; [vm_compute; reflexivity|lia].
Defined.

Lemma accepted_vote_is_stored_witness :
  let r := request bob (OpSubmitVote "5") 12 in
  ∃ u s cur vote,
    ctx_user r = Some u
    ∧ SessionService.GetSessionByID selected_db (sessionID r) = Some s
    ∧ Session.CurrentTicket s = Some cur
    ∧ valid_card (@utils.SanitizeInput plain_GoStd "5")
    ∧ VotingService.GetUserVoteForTicket
        (db_after (@serve plain_GoStd selected_db r))
        (Ticket.ID cur) (User.ID u) = Some vote
    ∧ Vote.VoteValue vote = @utils.SanitizeInput plain_GoStd "5"
    ∧ Vote.CreatedAt vote = now r
    ∧ events (effects (@serve plain_GoStd selected_db r))
      = [(sessionID r,
          SSEMessage.mk "vote-cast" (DataVoteCast (User.ID u) vote))].
Proof.
  apply (@accepted_vote_is_stored plain_GoStd selected_db
           (request bob (OpSubmitVote "5") 12) "5").
  - reflexivity.
  - vm_compute. reflexivity.
Defined.

Lemma submitted_vote_can_be_read_back_witness :
  VotingService.GetUserVoteForTicket
    (VotingService.SubmitVote 12 1 "u-bob" "5" selected_db).2 1 "u-bob"
  = (VotingService.SubmitVote 12 1 "u-bob" "5" selected_db).1.
Proof.
  destruct (VotingService.SubmitVote 12 1 "u-bob" "5" selected_db)
    as [[vote|] db'] eqn:E.
  - destruct (submitted_vote_can_be_read_back _ _ _ _ _ _ _ E)
      as (_ & Hget & _).
    exact Hget.
  - vm_compute in E. discriminate E.
Defined.

Lemma NextTicket_moves_to_successor_witness :
  let r := request alice OpNextTicket 11 in
  (∃ row, sessions (db_after (@serve plain_GoStd selected_db r)) !! "s1"
          = Some row
          ∧ s_current_ticket_id row = Some 2
          ∧ s_is_voting_active row = false)
  ∧ outcome (@serve plain_GoStd selected_db r) = Response 303 "/session/s1".
Proof.
  edestruct (@NextTicket_moves_to_successor plain_GoStd selected_db
               (request alice OpNextTicket 11) alice)
    with (pre := @nil Ticket.t) as (Hrow & _ & _ & _ & Hout).
  - reflexivity.
  - reflexivity.
  - vm_compute. reflexivity.
  - reflexivity.
  - reflexivity.
  - reflexivity.
  - vm_compute. reflexivity.
  - vm_compute. reflexivity.
  - split; [exact Hrow|exact Hout].
Defined.

Lemma NextTicket_starts_with_first_witness :
  let r := request alice OpNextTicket 11 in
  (∃ row, sessions (db_after (@serve plain_GoStd sample_db r)) !! "s1"
          = Some row
          ∧ s_current_ticket_id row = Some 1
          ∧ s_is_voting_active row = false)
  ∧ outcome (@serve plain_GoStd sample_db r) = Response 303 "/session/s1".
Proof.
  edestruct (@NextTicket_starts_with_first plain_GoStd sample_db
               (request alice OpNextTicket 11) alice)
    as (Hrow & _ & _ & Hout).
  - reflexivity.
  - reflexivity.
  - vm_compute. reflexivity.
  - reflexivity.
  - reflexivity.
  - reflexivity.
  - vm_compute. reflexivity.
  - vm_compute. reflexivity.
  - split; [exact Hrow|exact Hout].
Defined.

Lemma SelectTicket_makes_ticket_current_witness :
  let r := request alice (OpSelectTicket "2") 10 in
  ∃ s' t,
    SessionService.GetSessionByID
      (db_after (@serve plain_GoStd sample_db r)) "s1" = Some s'
    ∧ Session.CurrentTicket s' = Some t
    ∧ Ticket.ID t = 2
    ∧ Session.IsVotingActive s' = false.
Proof.
  edestruct (@SelectTicket_makes_ticket_current plain_GoStd sample_db
               (request alice (OpSelectTicket "2") 10) alice)
    as [Hyes _].
  - reflexivity.
  - reflexivity.
  - vm_compute. reflexivity.
  - reflexivity.
  - reflexivity.
  - reflexivity.
  - vm_compute. reflexivity.
  - destruct Hyes as (s' & t & Hs' & Hcur & Hid & Hact & _).
    + eexists. split; vm_compute; reflexivity.
    + exists s', t. repeat split; assumption.
Defined.

Lemma votes_survive_ticket_changes_witness :
  let db := @run plain_GoStd voting_db (vote_request "s1" <$> sample_votes) in
  let r := request alice OpNextTicket 20 in
  votes (db_after (@serve plain_GoStd db r)) = votes db
  ∧ users (db_after (@serve plain_GoStd db r)) = users db
  ∧ ∀ tid, VotingService.GetVotesForTicket
             (db_after (@serve plain_GoStd db r)) tid
           = VotingService.GetVotesForTicket db tid.
Proof.
  apply (@votes_survive_ticket_changes plain_GoStd
           (@run plain_GoStd voting_db (vote_request "s1" <$> sample_votes))
           (request alice OpNextTicket 20)).
  reflexivity.
Defined.

Lemma StartVoting_opens_a_fresh_round_witness :
  let r := request alice OpStartVoting 11 in
  (∃ row, sessions (db_after (@serve plain_GoStd selected_db r)) !! "s1"
          = Some row
          ∧ s_is_voting_active row = true
          ∧ s_current_ticket_id row = Some 1)
  ∧ VotingService.GetVotesForTicket
      (db_after (@serve plain_GoStd selected_db r)) 1 = [].
Proof.
  edestruct (@StartVoting_opens_a_fresh_round plain_GoStd selected_db
               (request alice OpStartVoting 11) alice)
    as (Hrow & Hclear & _).
  - reflexivity.
  - reflexivity.
  - vm_compute. reflexivity.
  - reflexivity.
  - vm_compute. reflexivity.
  - intros k. reflexivity.
  - split; [exact Hrow|exact Hclear].
Defined.

Lemma positions_stay_dense_witness :
  positions_dense
    (db_after (@serve plain_GoStd sample_db
                 (request alice (OpDeleteTicket "1") 5))).
Proof.
  apply (@positions_stay_dense plain_GoStd sample_db
           (request alice (OpDeleteTicket "1") 5)).
  apply positions_dense_check_sound. vm_compute. reflexivity.
Defined.

Lemma CreateTicket_appends_to_queue_witness :
  let r := request alice (OpCreateTicket "search" "" "") 5 in
  ∃ t,
    events (effects (@serve plain_GoStd sample_db r))
    = [("s1", SSEMessage.mk "ticket-created" (DataTicket (Some t)))]
    ∧ tickets sample_db !! Ticket.ID t = None
    ∧ Ticket.Title t = "search"
    ∧ Ticket.Position t = 3.
Proof.
  edestruct (@CreateTicket_appends_to_queue plain_GoStd sample_db
               (request alice (OpCreateTicket "search" "" "") 5) alice)
    as (t & Hev & Hfresh & Htitle & Hpos & _).
  - reflexivity.
  - reflexivity.
  - vm_compute. reflexivity.
  - reflexivity.
  - intros k. reflexivity.
  - vm_compute. reflexivity.
  - apply positions_dense_check_sound. vm_compute. reflexivity.
  - exists t. split; [exact Hev|]. split; [exact Hfresh|].
    split; [exact Htitle|exact Hpos].
Defined.

Lemma DeleteTicket_removes_ticket_witness :
  let r := request alice (OpDeleteTicket "1") 12 in
  TicketService.GetTicketByID (db_after (@serve plain_GoStd voting_db r)) 1
  = None
  ∧ outcome (@serve plain_GoStd voting_db r) = Response 303 "/session/s1".
Proof.
  edestruct (@DeleteTicket_removes_ticket plain_GoStd voting_db
               (request alice (OpDeleteTicket "1") 12) alice)
    as (Hgone & _ & _ & _ & Hout).
  - reflexivity.
  - reflexivity.
  - vm_compute. reflexivity.
  - reflexivity.
  - intros k. reflexivity.
  - vm_compute. reflexivity.
  - vm_compute. reflexivity.
  - reflexivity.
  - split; [exact Hgone|exact Hout].
Defined.

Lemma ws_broadcast_delivers_or_evicts_witness :
  ∃ ws',
    WSService.Run_broadcast_in (map_to_list (WSService.clients sample_ws)).*2
      "s1" sample_msg sample_ws = Some ws'
    ∧ ws_wf ws'.
Proof.
  destruct (ws_broadcast_delivers_or_evicts sample_ws
              (map_to_list (WSService.clients sample_ws)).*2 "s1" sample_msg)
    as (ws' & Hrun & Hwf & _).
  - apply ws_wf_check_sound. vm_compute. reflexivity.
  - reflexivity.
  - exists ws'. split; [exact Hrun|exact Hwf].
Defined.

Lemma ws_broadcasts_keep_order_witness :
  ∃ ws1,
    WSService.Run_broadcast_in (map_to_list (WSService.clients sample_ws)).*2
      "s1" sample_msg sample_ws = Some ws1.
Proof.
  destruct (ws_broadcasts_keep_order sample_ws
              (map_to_list (WSService.clients sample_ws)).*2 "s1"
              sample_msg sample_msg)
    as (ws1 & Hrun & _).
  - apply ws_wf_check_sound. vm_compute. reflexivity.
  - reflexivity.
  - exists ws1. exact Hrun.
Defined.

Lemma ws_unregister_registered_witness :
  ∃ ws', WSService.Run_unregister ws_carol sample_ws = Some ws'
         ∧ ws_wf ws'
         ∧ ¬ WSService.registered ws_carol ws'.
Proof.
  destruct (ws_unregister_registered sample_ws ws_carol)
    as (ws' & ch & Hrun & Hwf & _ & _ & Hgone & _).
  - apply ws_wf_check_sound. vm_compute. reflexivity.
  - exists "s1_u-carol". vm_compute. reflexivity.
  - exists ws'. split; [exact Hrun|]. split; [exact Hwf|exact Hgone].
Defined.

Lemma ws_unregister_after_eviction_and_reconnect_panics_witness :
  ∃ ws1,
    WSService.Run_broadcast_in (map_to_list (WSService.clients sample_ws)).*2
      "s1" sample_msg sample_ws = Some ws1
    ∧ WSService.Run_unregister ws_bob
        (WSService.HandleWebSocket "s1" "u-bob" ws1).2 = None.
Proof.
  destruct (ws_unregister_after_eviction_and_reconnect_panics sample_ws
              (map_to_list (WSService.clients sample_ws)).*2
              "s1" "u-bob" sample_msg ws_bob)
    as (ws1 & Hrun & _ & _ & Hpanic).
  - apply ws_wf_check_sound. vm_compute. reflexivity.
  - reflexivity.
  - exists "s1_u-bob". vm_compute. reflexivity.
  - reflexivity.
  - reflexivity.
  - apply is_full_iff. vm_compute. reflexivity.
  - exists ws1. split; [exact Hrun|exact Hpanic].
Defined.

Lemma sse_AddClient_registers_beside_the_others_witness :
  sse_wf (SSEService.AddClient "s1" "u-dave" 3 sample_sse).2
  ∧ SSEService.GetClientCount "s1"
      (SSEService.AddClient "s1" "u-dave" 3 sample_sse).2
    = S (SSEService.GetClientCount "s1" sample_sse).
Proof.
  destruct (sse_AddClient_registers_beside_the_others sample_sse
              "s1" "u-dave" 3)
    as (Hwf & _ & _ & _ & Hcount).
  - apply sse_wf_check_sound. vm_compute. reflexivity.
  - vm_compute. reflexivity.
  - split; [exact Hwf|exact Hcount].
Defined.

Lemma sse_two_tabs_are_two_clients_witness :
  let r1 := SSEService.AddClient "s1" "u-dave" 3 sample_sse in
  let r2 := SSEService.AddClient "s1" "u-dave" 4 r1.2 in
  r1.1 ≠ r2.1
  ∧ SSEService.registered r1.1 r2.2 ∧ SSEService.registered r2.1 r2.2
  ∧ SSEService.Channel r1.1 ≠ SSEService.Channel r2.1
  ∧ SSEService.queue r1.1 r2.2 = Some [] ∧ SSEService.queue r2.1 r2.2 = Some []
  ∧ SSEService.GetClientCount "s1" r2.2
    = S (S (SSEService.GetClientCount "s1" sample_sse)).
Proof.
  apply (sse_two_tabs_are_two_clients sample_sse "s1" "u-dave" 3 4).
  - lia.
  - vm_compute. reflexivity.
  - vm_compute. reflexivity.
Defined.

Lemma sse_broadcast_waits_for_each_full_queue_witness :
  ∃ s', SSEService.Broadcast "s1" sample_msg sample_sse = Some (s', 100)
        ∧ SSEService.clients s' = SSEService.clients sample_sse.
Proof.
  destruct (sse_broadcast_waits_for_each_full_queue sample_sse
              (map_to_list (SSEService.clients sample_sse)).*2
              "s1" sample_msg)
    as (s' & Hrun & Hcl & _).
  - apply sse_wf_check_sound. vm_compute. reflexivity.
  - reflexivity.
  - exists s'. split; [exact Hrun|exact Hcl].
Defined.

Lemma calculateVoteMedian_ignores_the_order_witness :
  Handler.calculateVoteMedian
    [Vote.mk 1 1 "u-bob" "5" 12 None; Vote.mk 2 1 "u-carol" "8" 13 None]
  = Handler.calculateVoteMedian
      [Vote.mk 2 1 "u-carol" "8" 13 None; Vote.mk 1 1 "u-bob" "5" 12 None].
Proof.
  apply calculateVoteMedian_ignores_the_order. apply perm_swap.
Defined.

Lemma ServeHTTP_vote_needs_only_a_current_ticket_witness :
  let h := mkHTTPRequest (Some "u-bob")
             (mkRequest None "s1" (OpSubmitVote "5") 12 no_faults)
             false false in
  outcome (@ServeHTTP plain_GoStd selected_db h).1 = Response 200 ""
  ∧ (@ServeHTTP plain_GoStd selected_db h).2 = CookieRenewed "u-bob" 21600.
Proof.
  edestruct (@ServeHTTP_vote_needs_only_a_current_ticket plain_GoStd
               selected_db
               (mkHTTPRequest (Some "u-bob")
                  (mkRequest None "s1" (OpSubmitVote "5") 12 no_faults)
                  false false))
    as (Hiff & _ & Hck & _).
  - reflexivity.
  - vm_compute. reflexivity.
  - reflexivity.
  - reflexivity.
  - split; vm_compute; reflexivity.
  - vm_compute. reflexivity.
  - intros k. reflexivity.
  - split; [|exact Hck]. apply Hiff. vm_compute. discriminate.
Defined.

Lemma ServeHTTP_without_user_is_unauthorized_witness :
  let h := mkHTTPRequest (Some "u-mallory")
             (mkRequest None "s1" OpStartVoting 12 no_faults) false false in
  outcome (@ServeHTTP plain_GoStd selected_db h).1
  = Response 401 "Unauthorized"
  ∧ db_after (@ServeHTTP plain_GoStd selected_db h).1 = selected_db
  ∧ effects (@ServeHTTP plain_GoStd selected_db h).1 = []
  ∧ (@ServeHTTP plain_GoStd selected_db h).2 = CookieCleared.
Proof.
  apply (@ServeHTTP_without_user_is_unauthorized plain_GoStd selected_db
           (mkHTTPRequest (Some "u-mallory")
              (mkRequest None "s1" OpStartVoting 12 no_faults) false false)).
  right. right. exists "u-mallory". split; [reflexivity|].
  vm_compute. reflexivity.
Defined.

Lemma UpdateTicket_stores_the_form_fields_as_sent_witness :
  let r := request alice
             (OpUpdateTicket "2" "" "<b>export</b>" "eight") 7 in
  tickets (db_after (@serve plain_GoStd sample_db r)) !! 2
  = Some (mkTicketRow "s1" "export" "<b>export</b>" None 2 0).
Proof.
  edestruct (@UpdateTicket_stores_the_form_fields_as_sent plain_GoStd
               sample_db
               (request alice
                  (OpUpdateTicket "2" "" "<b>export</b>" "eight") 7) alice)
    as (Hrow & _).
  - reflexivity.
  - reflexivity.
  - vm_compute. reflexivity.
  - reflexivity.
  - intros k. reflexivity.
  - vm_compute. reflexivity.
  - vm_compute. reflexivity.
  - reflexivity.
  - exact Hrow.
Defined.

Lemma StartVoting_failure_after_update_leaves_flag_set_witness :
  let r := mkRequest (Some alice) "s1" OpStartVoting 11
             (fault_on KClearVotesForTicket) in
  outcome (@serve plain_GoStd selected_db r)
  = Response 500 "Failed to clear votes"
  ∧ events (effects (@serve plain_GoStd selected_db r)) = []
  ∧ (∃ row, sessions (db_after (@serve plain_GoStd selected_db r)) !! "s1"
            = Some row
            ∧ s_is_voting_active row = true)
  ∧ votes (db_after (@serve plain_GoStd selected_db r)) = votes selected_db.
Proof.
  eapply (@StartVoting_failure_after_update_leaves_flag_set plain_GoStd
            selected_db
            (mkRequest (Some alice) "s1" OpStartVoting 11
               (fault_on KClearVotesForTicket)) alice).
  - reflexivity.
  - reflexivity.
  - vm_compute. reflexivity.
  - reflexivity.
  - vm_compute. reflexivity.
  - reflexivity.
  - reflexivity.
  - reflexivity.
Defined.
